(** * predict-and-prevail: the risk scorer of [src/lib/riskModel.ts] and
      the dashboard that shows the calls

    The scorer works on JavaScript numbers, that is on IEEE 754 binary64
    values.  They are modelled by Rocq's primitive [float]s, whose
    operations are the same binary64 operations (round to nearest, ties to
    even); a decimal literal such as [0.3] denotes, in both languages, the
    binary64 value closest to it.

    The file has the definitions first: the JavaScript values the scorer
    meets (module [JS]), the scorer and the classification the dashboard
    derives from a score, the reference formula of the specification
    (module [Spec]), binary64 rounding read on integers (module
    [Binary64]), the built-ins the dashboard uses (module [Builtins]), the
    queue of calls and the functions of [src/components/Dashboard.tsx]
    on it (module [Dashboard]), and those of the version of the dashboard
    that calls the scorer (module [BillingDashboard]).  The facts follow:
    the order of floats and the monotonicity of addition, of
    multiplication and of division by a positive constant (module
    [Binary64Facts]), the properties of the scorer on its numeric path,
    the claims, integers and [Math.floor] on floats (module
    [NumberFacts]), and the properties of the scorer beyond its numeric
    path and of the two dashboards. *)

From Stdlib Require Import ZArith Lia Bool List String Floats.
From Stdlib Require Uint63.
Import ListNotations.

Set Warnings "-inexact-float".

Local Open Scope string_scope.
Local Open Scope float_scope.

(** ** JavaScript values met by the scorer *)

Module JS.

(** [Math.min(x, y)]: NaN as soon as one argument is NaN, and [-0] is
    smaller than [+0]. *)
Definition Math_min (x y : float) : float :=
  if is_nan x || is_nan y then nan
  else if x <? y then x
  else if y <? x then y
  else match classify x with NZero => x | _ => y end.

(** What a property read on [issueTypeWeights] can give: a number (an own
    property of the literal), a built-in function or object (a member
    inherited from [Object.prototype], named here by its key), or
    [undefined]. *)
Inductive value : Type :=
  | VUndefined
  | VNumber (x : float)
  | VObject (key : string).

(** The members every object literal inherits from [Object.prototype]. *)
Definition Object_prototype : list string :=
  [ "constructor"; "hasOwnProperty"; "isPrototypeOf"; "propertyIsEnumerable";
    "toLocaleString"; "toString"; "valueOf"; "__proto__";
    "__defineGetter__"; "__defineSetter__";
    "__lookupGetter__"; "__lookupSetter__" ].

Definition inherited (k : string) : bool :=
  existsb (String.eqb k) Object_prototype.

Fixpoint own_property (o : list (string * float)) (k : string) : option float :=
  match o with
  | [] => None
  | (k', x) :: o' => if String.eqb k k' then Some x else own_property o' k
  end.

(** [o[k]] for an object literal [o] whose own properties are numbers: the
    own property when there is one, else the inherited member, else
    [undefined]. *)
Definition get (o : list (string * float)) (k : string) : value :=
  match own_property o k with
  | Some x => VNumber x
  | None => if inherited k then VObject k else VUndefined
  end.

Definition ToBoolean (v : value) : bool :=
  match v with
  | VUndefined => false
  | VNumber x => negb (is_zero x || is_nan x)
  | VObject _ => true
  end.

(** [v || d] *)
Definition or_else (v : value) (d : float) : value :=
  if ToBoolean v then v else VNumber d.

(** The variable [score].  It starts as a number.  [score += v] with [v] a
    function or an object is a string concatenation, and from then on every
    [+=] appends to that string: [SText x k vs] is the text of the number
    [x], followed by the text of the built-in member [k]
    (["function ...() { [native code] }"] or ["[object Object]"]), followed
    by the texts of [vs]. *)
Inductive scoreval : Type :=
  | SNumber (x : float)
  | SText (x : float) (key : string) (vs : list value).

(** [score += v] *)
Definition add_assign (s : scoreval) (v : value) : scoreval :=
  match s, v with
  | SNumber x, VNumber y => SNumber (x + y)
  | SNumber x, VUndefined => SNumber nan
  | SNumber x, VObject k => SText x k []
  | SText x k vs, _ => SText x k (vs ++ [v])
  end.

(** [ToNumber]: the text of a built-in member contains a bracket, so a
    string holding it is no numeric literal and converts to NaN. *)
Definition ToNumber (s : scoreval) : float :=
  match s with
  | SNumber x => x
  | SText _ _ _ => nan
  end.

End JS.

(** ** [src/lib/riskModel.ts] *)

Record CallFeatures : Type := {
  wait_time : float;
  issue_type : string;
  charge : float;
  status : string
}.

Definition issueTypeWeights : list (string * float) :=
  [ ("Insurance Claim Denial", 0.4);
    ("Bill Payment Query", 0.1);
    ("Coverage Verification", 0.2);
    ("Prior Authorization", 0.3);
    ("Copay Questions", 0.1);
    ("Billing Statement Error", 0.35);
    ("Insurance Network Query", 0.25);
    ("Prescription Coverage", 0.2);
    ("EOB Explanation", 0.15);
    ("Payment Plan Setup", 0.1) ].

Definition predictRiskScore (features : CallFeatures) : float :=
  let score := JS.SNumber 0 in
  let score :=
    JS.add_assign score
      (JS.VNumber (JS.Math_min (wait_time features / 600) 1 * 0.3)) in
  let score :=
    JS.add_assign score
      (JS.or_else (JS.get issueTypeWeights (issue_type features)) 0.1) in
  let score :=
    JS.add_assign score
      (JS.VNumber (JS.Math_min (charge features / 1000) 1 * 0.3)) in
  let score :=
    if String.eqb (status features) "Denied" then
      JS.add_assign score (JS.VNumber 0.3)
    else if String.eqb (status features) "Pending" then
      JS.add_assign score (JS.VNumber 0.1)
    else score in
  JS.Math_min (JS.ToNumber score) 1.

(** ** The classification derived in [Dashboard.tsx] *)

Inductive Priority : Type := High | Medium | Low.

Definition priority (probability : float) : Priority :=
  if 0.7 <? probability then High
  else if 0.4 <? probability then Medium
  else Low.

Definition predicted_action (probability : float) : string :=
  if 0.7 <? probability then "Priority Routing"%string
  else if 0.4 <? probability then "Offer Callback"%string
  else "Continue Queue"%string.

(** ** The reference formula of the specification *)

Module Spec.

(** The weight table with its default. *)
Definition w (issue : string) : float :=
  match JS.own_property issueTypeWeights issue with
  | Some x => x
  | None => 0.1
  end.

Definition s (st : string) : float :=
  if String.eqb st "Denied" then 0.3
  else if String.eqb st "Pending" then 0.1
  else 0.

Definition score (features : CallFeatures) : float :=
  JS.Math_min
    (JS.Math_min (wait_time features / 600) 1 * 0.3
     + w (issue_type features)
     + JS.Math_min (charge features / 1000) 1 * 0.3
     + s (status features))
    1.

End Spec.

(** ** The numeric path of the scorer

    As long as [score] stays a number, the scorer adds to [0] a wait
    component, an issue weight and a charge component, then the status
    bonus, and clamps. *)

Definition component (x ceiling : float) : float :=
  JS.Math_min (x / ceiling) 1 * 0.3.

Definition numeric_score (a w c : float) (st : string) : float :=
  let t := 0 + a + w + c in
  JS.Math_min
    (if String.eqb st "Denied" then t + 0.3
     else if String.eqb st "Pending" then t + 0.1
     else t) 1.

(** The values of the weight table, and its default. *)
Definition weights : list float := [0.4; 0.1; 0.2; 0.3; 0.35; 0.25; 0.15].

(** ** Binary64 arithmetic, read on integers

    The Standard Library specifies the primitive operations on [float] by
    the bit-level functions of [SpecFloat] (module [FloatAxioms]).  The
    definitions below read a float as an integer number of units [2^-1074],
    the smallest subnormal, and express one rounding on integers, so that
    the order of floats and the monotonicity of the operations become
    facts about [Z]. *)

Module Binary64.

Local Open Scope Z_scope.

Abbreviation fexp64 := (fexp prec emax).
Abbreviation valid64 := (SpecFloat.valid_binary prec emax).

(** A mantissa with its round bit, [h = 2 * m + r], and a sticky bit [t],
    as the record that [SpecFloat.shr] shifts. *)
Definition rec_of (h : Z) (t : bool) : shr_record :=
  Build_shr_record (Z.div2 h) (Z.odd h) t.

Definition loc_of_bits (b t : bool) : location :=
  match b, t with
  | false, false => loc_Exact
  | false, true => loc_Inexact Lt
  | true, false => loc_Inexact Eq
  | true, true => loc_Inexact Gt
  end.

(** Rounding to nearest, ties to even, of [h / 2] given the sticky bit. *)
Definition rne (h : Z) (t : bool) : Z :=
  if Z.odd h then
    if t then h / 2 + 1
    else if Z.even (h / 2) then h / 2 else h / 2 + 1
  else h / 2.

(** [SpecFloat.binary_round_aux] in closed form: shift to the exponent of
    the format, round, and shift once more when the mantissa overflowed. *)
Definition bra (sx : bool) (h : Z) (t : bool) (e : Z) : spec_float :=
  let k1 := Z.max (fexp64 (Zdigits2 (h / 2) + e) - e) 0 in
  let m2 := rne (h / 2 ^ k1) (negb (h mod 2 ^ k1 =? 0) || t) in
  let e1 := e + k1 in
  let k2 := Z.max (fexp64 (Zdigits2 m2 + e1) - e1) 0 in
  match m2 / 2 ^ k2 with
  | Z0 => S754_zero sx
  | Zpos m => if e1 + k2 <=? emax - prec then S754_finite sx m (e1 + k2)
              else S754_infinity sx
  | Zneg _ => S754_nan
  end.

(** The value given to the infinities: [2^1024], in units of [2^-1074]. *)
Definition BIG : Z := 2 ^ 2098.

(** The value of a float in units of [2^-1074]. *)
Definition ord (x : spec_float) : Z :=
  match x with
  | S754_zero _ => 0
  | S754_infinity s => cond_Zopp s BIG
  | S754_nan => 0
  | S754_finite s m e => cond_Zopp s (Zpos m * 2 ^ (e + 1074))
  end.

Definition B2Z (x : float) : Z := ord (Prim2SF x).

Definition is_fin (x : spec_float) : bool :=
  match x with
  | S754_zero _ | S754_finite _ _ _ => true
  | _ => false
  end.

(** The rounded value, before overflow, of the mantissa [h] with sticky
    bit [t] at exponent [e]. *)
Definition rval (h : Z) (t : bool) (e : Z) : Z :=
  let k1 := Z.max (fexp64 (Zdigits2 (h / 2) + e) - e) 0 in
  rne (h / 2 ^ k1) (negb (h mod 2 ^ k1 =? 0) || t) * 2 ^ (e + k1 + 1074).

(** The order of mantissas with a sticky bit. *)
Definition lexle (h1 : Z) (t1 : bool) (h2 : Z) (t2 : bool) : Prop :=
  h1 < h2 \/ (h1 = h2 /\ (t1 = true -> t2 = true)).

(** A rounding given on the non-negative values, extended by symmetry. *)
Definition oddext (f : Z -> Z) (N : Z) : Z :=
  if 0 <=? N then f N else - f (- N).

(** The roundings of a sum, of a product with the constant [mc * 2^ec] and
    of a quotient by it, on values in units of [2^-1074]. *)
Definition add_rnd (N : Z) : Z :=
  Z.min (rval (2 * N) false (-1074)) BIG.

Definition RN : Z -> Z := oddext add_rnd.

Definition mul_rnd (mc : positive) (ec : Z) (N : Z) : Z :=
  Z.min (rval (2 * (N * Zpos mc)) false (-1074 + ec)) BIG.

Definition div_rnd (mc : positive) (ec : Z) (N : Z) : Z :=
  let A := 2 * (N * 2 ^ (- ec)) in
  Z.min (rval (A / Zpos mc) (negb (A mod Zpos mc =? 0)) (-1074)) BIG.

(** The comparisons of JavaScript, as propositions; both fail on NaN. *)
Definition fle (x y : float) : Prop := (x <=? y)%float = true.
Definition flt (x y : float) : Prop := (x <? y)%float = true.

End Binary64.

Notation "x <= y" := (Binary64.fle x y) : float_scope.
Notation "x < y" := (Binary64.flt x y) : float_scope.

(** ** Built-ins of JavaScript used by the dashboard *)

Module Builtins.

(** [Math.floor(x)]: infinities, NaN and zeros are returned as they are,
    and so is a float whose exponent is non-negative, an integer.  Else
    the integer part is below [2^53] and is converted exactly. *)
Definition Math_floor (x : float) : float :=
  match Prim2SF x with
  | S754_finite s m e =>
      if (0 <=? e)%Z then x
      else
        let q := (cond_Zopp s (Zpos m) / 2 ^ (- e))%Z in
        if s then - of_uint63 (Uint63.of_Z (- q)) else of_uint63 (Uint63.of_Z q)
  | _ => x
  end.

(** [Math.round(x)]: the closest integer, a tie going up; a result that is
    zero keeps the sign of [x]. *)
Definition Math_round (x : float) : float :=
  match Prim2SF x with
  | S754_finite s m e =>
      if (0 <=? e)%Z then x
      else
        let q := ((2 * cond_Zopp s (Zpos m) + 2 ^ (- e)) / (2 * 2 ^ (- e)))%Z in
        if s then - of_uint63 (Uint63.of_Z (- q)) else of_uint63 (Uint63.of_Z q)
  | _ => x
  end.

(** [l.length], a Number: the length itself, for the lengths below [2^53]
    that a list of JavaScript has. *)
Definition length {A} (l : list A) : float :=
  of_uint63 (Uint63.of_Z (Z.of_nat (List.length l))).

(** The array index that a Number names when it is used as a property
    key: the Number itself when it is a non-negative integer ([-0] reads
    as [0]); no other Number names an index. *)
Definition array_index (i : float) : option Z :=
  match Prim2SF i with
  | S754_zero _ => Some 0%Z
  | S754_finite false m e =>
      if (0 <=? e)%Z then Some (Zpos m * 2 ^ e)%Z
      else if (Zpos m mod 2 ^ (- e) =? 0)%Z then Some (Zpos m / 2 ^ (- e))%Z
      else None
  | _ => None
  end.

(** [l[i]]; [None] is [undefined]. *)
Definition get {A} (l : list A) (i : float) : option A :=
  match array_index i with
  | Some n =>
      if (n <? Z.of_nat (List.length l))%Z then nth_error l (Z.to_nat n)
      else None
  | None => None
  end.

(** [v || d] for an optional Number and for an optional string: [0], [-0],
    NaN, the empty string and [undefined] give [d]. *)
Definition or_number (v : option float) (d : float) : float :=
  match v with
  | Some x => if is_zero x || is_nan x then d else x
  | None => d
  end.

Definition or_string (v : option string) (d : string) : string :=
  match v with
  | Some s => if String.eqb s "" then d else s
  | None => d
  end.

(** [ToLength], for the [length] given to [Array.from]: the integer part,
    and [0] for NaN and for what is negative. *)
Definition ToLength (x : float) : nat :=
  match Prim2SF x with
  | S754_finite false m e =>
      if (0 <=? e)%Z then Z.to_nat (Z.min (Zpos m * 2 ^ e) (2 ^ 53 - 1))
      else Z.to_nat (Zpos m / 2 ^ (- e))
  | S754_infinity false => Z.to_nat (2 ^ 53 - 1)
  | _ => 0%nat
  end.

End Builtins.

(** ** The call queue of the dashboard

    [src/components/Dashboard.tsx]; the version of the dashboard that
    calls the scorer has the same types and, where nothing else is said,
    the same functions. *)

Inductive Status : Type := Waiting | InProgress | Completed | Abandoned.

Module CallData.
Record t : Type := {
  call_id : string;
  customer_name : string;
  phone_number : string;
  wait_time : float;
  issue_type : string;
  probability : float;
  predicted_action : string;
  priority : Priority;
  status : Status;
  agent_assigned : option string;
  timestamp : string
}.
End CallData.

Module DashboardMetrics.
Record t : Type := {
  total_calls : float;
  avg_wait_time : float;
  predicted_abandonment_rate : float;
  active_agents : float;
  calls_answered : float;
  calls_abandoned : float
}.
End DashboardMetrics.

Module Toast.
Inductive Variant : Type := default | destructive.
Record t : Type := {
  title : string;
  description : string;
  variant : Variant
}.
End Toast.

Module Dashboard.

(** The text of a value of the union type ["High" | "Medium" | "Low"], in
    lower case: [call.priority.toLowerCase()]. *)
Definition toLowerCase (p : Priority) : string :=
  match p with
  | High => "high"
  | Medium => "medium"
  | Low => "low"
  end.

Section Environment.

(** The built-ins that make texts, taken as they come: the text of a
    Number in a template literal, and
    [x.toString(36).substr(2, n).toUpperCase()]. *)
Variable Number_toString : float -> string.
Variable random_text : float -> nat -> string.

(** [generateMockCall]; its arguments are the values of [Math.random()],
    in the order of the calls, and of [new Date().toISOString()].  [None]
    stands for a call with a name or an issue type that is [undefined]. *)
Definition generateMockCall (r1 r2 r3 r4 r5 r6 : float) (now : string)
  : option CallData.t :=
  let issues := ["Billing"; "Technical Support"; "Account"; "Delivery";
                 "Refund"; "General Inquiry"] in
  let names := ["John Smith"; "Sarah Johnson"; "Mike Davis"; "Emily Chen";
                "Robert Wilson"; "Jessica Brown"] in
  let probability := r1 in
  match Builtins.get names (Builtins.Math_floor (r3 * Builtins.length names)),
        Builtins.get issues (Builtins.Math_floor (r6 * Builtins.length issues))
  with
  | Some name, Some issue =>
      Some {| CallData.call_id := "CALL-" ++ random_text r2 9;
              CallData.customer_name := name;
              CallData.phone_number :=
                "+1" ++ Number_toString
                          (Builtins.Math_floor (r4 * 9000000000) + 1000000000);
              CallData.wait_time := Builtins.Math_floor (r5 * 600) + 30;
              CallData.issue_type := issue;
              CallData.probability := probability;
              CallData.predicted_action := predicted_action probability;
              CallData.priority := priority probability;
              CallData.status := Waiting;
              CallData.agent_assigned := None;
              CallData.timestamp := now |}
  | _, _ => None
  end.

(** The number of calls that [handleRefreshQueue] adds:
    [Math.floor(Math.random() * 3) + 1], as a length. *)
Definition refreshCount (r : float) : nat :=
  Builtins.ToLength (Builtins.Math_floor (r * 3) + 1).

(** [handleTakeAction]: the update it gives to [setCallQueue], the guard
    included.  [rs n] is the value of the [n]-th call of [Math.random()],
    which is called for each call updated when the action is
    ["priority"]. *)
Fixpoint takeAction (rs : nat -> float) (n : nat) (callId action : string)
    (prev : list CallData.t) : list CallData.t :=
  match prev with
  | [] => []
  | c :: prev' =>
      if String.eqb (CallData.call_id c) callId then
        {| CallData.call_id := CallData.call_id c;
           CallData.customer_name := CallData.customer_name c;
           CallData.phone_number := CallData.phone_number c;
           CallData.wait_time := CallData.wait_time c;
           CallData.issue_type := CallData.issue_type c;
           CallData.probability := CallData.probability c;
           CallData.predicted_action := CallData.predicted_action c;
           CallData.priority := CallData.priority c;
           CallData.status :=
             if String.eqb action "callback" then Completed else InProgress;
           CallData.agent_assigned :=
             if String.eqb action "priority" then
               Some ("Agent #"
                     ++ Number_toString
                          (Builtins.Math_floor (rs n * 50 + 1)))
             else None;
           CallData.timestamp := CallData.timestamp c |}
        :: takeAction rs (if String.eqb action "priority" then S n else n)
                      callId action prev'
      else c :: takeAction rs n callId action prev'
  end.

Definition handleTakeAction (rs : nat -> float) (callId action : string)
    (callQueue prev : list CallData.t) : list CallData.t :=
  match find (fun c => String.eqb (CallData.call_id c) callId) callQueue with
  | None => prev
  | Some _ => takeAction rs 0 callId action prev
  end.

(** [handleEmergencyCallback]: the update of the queue.  [callQueue] is
    the queue the handler saw, [prev] the queue when the timer fires, and
    [rs n] the value of the [n]-th call of [Math.random()], one for each
    call updated. *)
Fixpoint emergency (rs : nat -> float) (n : nat) (prev : list CallData.t)
  : list CallData.t :=
  match prev with
  | [] => []
  | call :: prev' =>
      if 0.8 <? CallData.probability call then
        {| CallData.call_id := CallData.call_id call;
           CallData.customer_name := CallData.customer_name call;
           CallData.phone_number := CallData.phone_number call;
           CallData.wait_time := CallData.wait_time call;
           CallData.issue_type := CallData.issue_type call;
           CallData.probability := CallData.probability call;
           CallData.predicted_action := CallData.predicted_action call;
           CallData.priority := CallData.priority call;
           CallData.status := InProgress;
           CallData.agent_assigned :=
             Some ("Emergency Agent #"
                   ++ Number_toString
                        (Builtins.Math_floor (rs n * 5 + 1)));
           CallData.timestamp := CallData.timestamp call |}
        :: emergency rs (S n) prev'
      else call :: emergency rs n prev'
  end.

Definition handleEmergencyCallback (rs : nat -> float)
    (callQueue prev : list CallData.t) : list CallData.t :=
  let highRiskCalls :=
    filter (fun call => 0.8 <? CallData.probability call) callQueue in
  if Builtins.length highRiskCalls =? 0 then prev
  else emergency rs 0 prev.

(** [handleRefreshQueue]: the update of the queue.  [r] is the value of
    [Math.random()] that sets the number of calls, and [calls i] the call
    that the callback makes at index [i]. *)
Definition handleRefreshQueue (r : float) (calls : nat -> CallData.t)
    (prev : list CallData.t) : list CallData.t :=
  let newCalls := map calls (seq 0 (refreshCount r)) in
  newCalls ++ prev.

End Environment.

(** The update of the queue every five seconds: what becomes of a
    probability, of a call, and of the queue before the call that is
    sometimes added. *)
Definition raised (probability : float) : float :=
  JS.Math_min (probability + 0.02) 0.95.

Definition updatedCall (call : CallData.t) : CallData.t :=
  {| CallData.call_id := CallData.call_id call;
     CallData.customer_name := CallData.customer_name call;
     CallData.phone_number := CallData.phone_number call;
     CallData.wait_time := CallData.wait_time call + 15;
     CallData.issue_type := CallData.issue_type call;
     CallData.probability := raised (CallData.probability call);
     CallData.predicted_action := CallData.predicted_action call;
     CallData.priority := CallData.priority call;
     CallData.status := CallData.status call;
     CallData.agent_assigned := CallData.agent_assigned call;
     CallData.timestamp := CallData.timestamp call |}.

Definition updated (prev : list CallData.t) : list CallData.t :=
  map updatedCall prev.

(** The whole update: [r] is the value of [Math.random()] and [fresh] the
    call that [generateMockCall()] makes. *)
Definition tick (r : float) (fresh : CallData.t) (prev : list CallData.t)
  : list CallData.t :=
  let updated := updated prev in
  if (0.7 <? r) && (Builtins.length updated <? 20) then updated ++ [fresh]
  else updated.

(** The queue after the ticks [ts], each with its value of
    [Math.random()] and the call that [generateMockCall()] would make. *)
Definition ticks (ts : list (float * CallData.t)) (prev : list CallData.t)
  : list CallData.t :=
  fold_left (fun queue t => tick (fst t) (snd t) queue) ts prev.

(** The metrics derived from the queue. *)
Definition metrics (callQueue : list CallData.t) : DashboardMetrics.t :=
  let total := Builtins.length callQueue in
  let avgWait :=
    if 0 <? total then
      fold_left (fun sum call => sum + CallData.wait_time call) callQueue 0
      / total
    else 0 in
  let highRisk :=
    Builtins.length
      (filter (fun call => 0.6 <? CallData.probability call) callQueue) in
  {| DashboardMetrics.total_calls := total;
     DashboardMetrics.avg_wait_time := Builtins.Math_round avgWait;
     DashboardMetrics.predicted_abandonment_rate :=
       if 0 <? total then highRisk / total * 100 else 0;
     DashboardMetrics.active_agents := 24;
     DashboardMetrics.calls_answered := 156;
     DashboardMetrics.calls_abandoned := 8 |}.

(** The filter of [filteredCalls]; the sort that follows it reorders the
    calls it keeps. *)
Definition filterByPriority (filterPriority : string)
    (callQueue : list CallData.t) : list CallData.t :=
  filter (fun call =>
            String.eqb filterPriority "all"
            || String.eqb (toLowerCase (CallData.priority call)) filterPriority)
         callQueue.

(** The three counts of the risk distribution card. *)
Definition highRiskCount (callQueue : list CallData.t) : nat :=
  List.length (filter (fun c => 0.7 <? CallData.probability c) callQueue).

Definition mediumRiskCount (callQueue : list CallData.t) : nat :=
  List.length
    (filter (fun c => (0.4 <? CallData.probability c)
                      && (CallData.probability c <=? 0.7)) callQueue).

Definition lowRiskCount (callQueue : list CallData.t) : nat :=
  List.length (filter (fun c => CallData.probability c <=? 0.4) callQueue).

End Dashboard.

(** ** The dashboard that calls the scorer *)

Module Patient.
Record t : Type := {
  patientId : string;
  name : string;
  dept : string;
  diagnosis : string;
  insurance : string;
  status : string;
  charge : float
}.
End Patient.

Module Form.
Record t : Type := {
  customer_name : string;
  issue_type : string;
  wait_time : string;
  phone_number : string
}.
End Form.

Module BillingDashboard.

Definition healthcareBillingData : list Patient.t :=
  [ Patient.Build_t "154669" "John Martinez" "Cardiology" "Hypertension" "MMIA" "Submitted" 247;
    Patient.Build_t "144776" "Sarah Johnson" "Cardiology" "Hypertension" "M2MJ" "Approved" 296;
    Patient.Build_t "217503" "Mike Davis" "Orthopedic" "Back Pain" "GMOC" "Denied" 1240;
    Patient.Build_t "174851" "Emily Chen" "Pediatrics" "Asthma" "Self-pay" "Paid" 43;
    Patient.Build_t "193134" "Robert Wilson" "Cardiology" "Heart Failure" "Gonzalez" "Approved" 219;
    Patient.Build_t "118420" "Jessica Brown" "Neurology" "Stroke" "03W1" "Submitted" 140;
    Patient.Build_t "166646" "David Lee" "Orthopedic" "Back Pain" "Self-pay" "Denied" 141;
    Patient.Build_t "175552" "Lisa Rodriguez" "Neurology" "Epilepsy" "IUDTJ" "Approved" 186;
    Patient.Build_t "182683" "Tom Garcia" "Cardiology" "Heart Failure" "2R01J" "Denied" 231;
    Patient.Build_t "116827" "Maria Lopez" "Oncology" "Melanoma" "Self-pay" "Paid" 1098 ].

(** [healthcareBillingData.find(p => p.name === customer_name)] *)
Definition findPatient (customer_name : string) : option Patient.t :=
  find (fun p => String.eqb (Patient.name p) customer_name)
       healthcareBillingData.

(** The features the dashboard gives to the scorer for a customer: the
    charge [find(...)?.charge || 0] and the status
    [find(...)?.status || "Submitted"] of the patient of that name. *)
Definition features (wait_time : float) (issue_type customer_name : string)
  : CallFeatures :=
  Build_CallFeatures
    wait_time issue_type
    (Builtins.or_number
       (option_map Patient.charge (findPatient customer_name)) 0)
    (Builtins.or_string
       (option_map Patient.status (findPatient customer_name)) "Submitted").

Definition billingIssues : list string :=
  [ "Insurance Claim Denial"; "Bill Payment Query"; "Coverage Verification";
    "Prior Authorization"; "Copay Questions"; "Billing Statement Error";
    "Insurance Network Query"; "Prescription Coverage"; "EOB Explanation";
    "Payment Plan Setup" ].

(** The probability that [handleLoadSample] gives to a sample call of a
    patient, from the value [probability] of [Math.random()]. *)
Definition adjustedProbability (patientData : Patient.t) (probability : float)
  : float :=
  if String.eqb (Patient.status patientData) "Denied" then
    JS.Math_min (probability + 0.4) 0.9
  else probability.

Section Environment.

Variable Number_toString : float -> string.
Variable random_text : float -> nat -> string.
Variable parseInt : string -> float.
Variable toFixed : float -> nat -> string.

(** [generateMockCall]; its arguments are the values of [Math.random()],
    in the order of the calls.  [None] stands for the exception raised on
    reading a field of [undefined], and for a call whose issue type is
    [undefined]. *)
Definition generateMockCall (r1 r2 r3 r4 r5 r6 r7 : float) (now : string)
  : option CallData.t :=
  match Builtins.get healthcareBillingData
          (Builtins.Math_floor
             (r1 * Builtins.length healthcareBillingData)),
        Builtins.get billingIssues
          (Builtins.Math_floor (r3 * Builtins.length billingIssues)),
        Builtins.get billingIssues
          (Builtins.Math_floor (r7 * Builtins.length billingIssues))
  with
  | Some patientData, Some issue, Some issue' =>
      let probability :=
        predictRiskScore
          {| wait_time := Builtins.Math_floor (r2 * 600) + 30;
             issue_type := issue;
             charge := Patient.charge patientData;
             status := Patient.status patientData |} in
      Some {| CallData.call_id :=
                "HC-" ++ Patient.patientId patientData ++ "-"
                ++ random_text r4 6;
              CallData.customer_name := Patient.name patientData;
              CallData.phone_number :=
                "+1" ++ Number_toString
                          (Builtins.Math_floor (r5 * 9000000000) + 1000000000);
              CallData.wait_time := Builtins.Math_floor (r6 * 600) + 30;
              CallData.issue_type := issue';
              CallData.probability := probability;
              CallData.predicted_action := predicted_action probability;
              CallData.priority := priority probability;
              CallData.status := Waiting;
              CallData.agent_assigned := None;
              CallData.timestamp := now |}
  | _, _, _ => None
  end.

(** [handlePredictSingle]: the toast, and the update it gives to
    [setCallQueue] when the form has a name and an issue type; [r] is the
    value of [Math.random()]. *)
Definition newCall (form : Form.t) (r : float) (now : string) : CallData.t :=
  let probability :=
    predictRiskScore
      (features (Builtins.or_number (Some (parseInt (Form.wait_time form))) 0)
                (Form.issue_type form) (Form.customer_name form)) in
  {| CallData.call_id := "CALL-" ++ random_text r 9;
     CallData.customer_name := Form.customer_name form;
     CallData.phone_number := Form.phone_number form;
     CallData.wait_time :=
       Builtins.or_number (Some (parseInt (Form.wait_time form))) 0;
     CallData.issue_type := Form.issue_type form;
     CallData.probability := probability;
     CallData.predicted_action := predicted_action probability;
     CallData.priority := priority probability;
     CallData.status := Waiting;
     CallData.agent_assigned := None;
     CallData.timestamp := now |}.

Definition handlePredictSingle (form : Form.t) (r : float) (now : string)
    (prev : list CallData.t) : list CallData.t * Toast.t :=
  if String.eqb (Form.customer_name form) ""
     || String.eqb (Form.issue_type form) "" then
    (prev,
     {| Toast.title := "Missing Information";
        Toast.description := "Please fill in customer name and issue type";
        Toast.variant := Toast.destructive |})
  else
    let newCall := newCall form r now in
    (newCall :: prev,
     {| Toast.title := "Risk Assessment Complete";
        Toast.description :=
          "Call " ++ CallData.call_id newCall ++ " added to queue with "
          ++ toFixed (CallData.probability newCall * 100) 1
          ++ "% abandonment risk";
        Toast.variant :=
          if 0.7 <? CallData.probability newCall then Toast.destructive
          else Toast.default |}).

(** The callback of [handleLoadSample] that makes the sample call of
    index [i]; [r1], [r2] and [r3] are the values of [Math.random()], in
    the order of the calls.  [None] stands for the exception raised on
    reading a field of [undefined]. *)
Definition sampleCall (i : nat) (r1 r2 r3 : float) (now : string)
  : option CallData.t :=
  match nth_error healthcareBillingData
          (i mod List.length healthcareBillingData) with
  | None => None
  | Some patientData =>
      let sampleBillingData :=
        [ ("Insurance Claim Denial - " ++ Patient.dept patientData,
           "+1-555-HC01");
          ("Bill Payment Query - $"
           ++ Number_toString (Patient.charge patientData),
           "+1-555-HC02");
          ("Coverage Verification - " ++ Patient.insurance patientData,
           "+1-555-HC03");
          ("Prior Authorization - " ++ Patient.diagnosis patientData,
           "+1-555-HC04");
          ("Copay Questions - " ++ Patient.status patientData,
           "+1-555-HC05");
          ("Billing Statement Error - Patient #"
           ++ Patient.patientId patientData,
           "+1-555-HC06") ] in
      let data :=
        match nth_error sampleBillingData i with
        | Some data => Some data
        | None => nth_error sampleBillingData 0
        end in
      match data with
      | None => None
      | Some (issue, phone) =>
          let probability := r1 in
          let adjustedProbability :=
            adjustedProbability patientData probability in
          Some {| CallData.call_id :=
                    "SAMPLE-HC-" ++ Patient.patientId patientData ++ "-"
                    ++ random_text r2 6;
                  CallData.customer_name := Patient.name patientData;
                  CallData.phone_number := phone;
                  CallData.wait_time := Builtins.Math_floor (r3 * 400) + 100;
                  CallData.issue_type := issue;
                  CallData.probability := adjustedProbability;
                  CallData.predicted_action :=
                    predicted_action adjustedProbability;
                  CallData.priority := priority adjustedProbability;
                  CallData.status := Waiting;
                  CallData.agent_assigned := None;
                  CallData.timestamp := now |}
      end
  end.

End Environment.

(** The update of the queue every five seconds, of a call and of the
    queue before the call that is sometimes added: the scorer is asked
    again, with the new wait time. *)
Definition updatedCall (call : CallData.t) : CallData.t :=
  {| CallData.call_id := CallData.call_id call;
     CallData.customer_name := CallData.customer_name call;
     CallData.phone_number := CallData.phone_number call;
     CallData.wait_time := CallData.wait_time call + 15;
     CallData.issue_type := CallData.issue_type call;
     CallData.probability :=
       predictRiskScore
         (features (CallData.wait_time call + 15)
                   (CallData.issue_type call)
                   (CallData.customer_name call));
     CallData.predicted_action := CallData.predicted_action call;
     CallData.priority := CallData.priority call;
     CallData.status := CallData.status call;
     CallData.agent_assigned := CallData.agent_assigned call;
     CallData.timestamp := CallData.timestamp call |}.

Definition updated (prev : list CallData.t) : list CallData.t :=
  map updatedCall prev.

End BillingDashboard.

(** ** Facts about binary64 rounding *)

Module Binary64Facts.

Import Binary64.

(** *** Digits and iterated shifts *)

Local Open Scope Z_scope.

Lemma digits2_pos_size p : digits2_pos p = Pos.size p.
Proof. induction p; simpl; congruence. Qed.

(** The mantissa [p] has [digits2_pos p] binary digits. *)
Lemma digits2_pos_bounds p :
  2 ^ (Zpos (digits2_pos p) - 1) <= Zpos p < 2 ^ Zpos (digits2_pos p).
Proof.
  rewrite digits2_pos_size.
  pose proof (Pos.size_gt p) as Hgt. pose proof (Pos.size_le p) as Hle.
  split.
  - assert (H : 2 * 2 ^ (Zpos (Pos.size p) - 1) <= 2 * Zpos p).
    { rewrite <- Z.pow_succ_r by lia.
      replace (Z.succ (Zpos (Pos.size p) - 1)) with (Zpos (Pos.size p)) by lia.
      change (2 * Zpos p) with (Zpos p~0).
      rewrite <- Pos2Z.inj_pow. apply Pos2Z.pos_le_pos. exact Hle. }
    lia.
  - change 2 with (Zpos 2). rewrite <- Pos2Z.inj_pow. apply Pos2Z.pos_lt_pos. exact Hgt.
Qed.

Lemma Zdigits2_nonneg m : 0 <= Zdigits2 m.
Proof. destruct m; simpl; lia. Qed.

Lemma Zdigits2_bounds m : 0 < m -> 2 ^ (Zdigits2 m - 1) <= m < 2 ^ Zdigits2 m.
Proof. destruct m; try lia. intros _. apply digits2_pos_bounds. Qed.

Lemma Zdigits2_unique m d : 0 < m -> 2 ^ (d - 1) <= m < 2 ^ d -> Zdigits2 m = d.
Proof.
  intros Hm [H1 H2]. pose proof (Zdigits2_bounds m Hm) as [H3 H4].
  pose proof (Zdigits2_nonneg m).
  assert (0 < d). { destruct (Z_lt_le_dec 0 d); auto. 
    assert (2 ^ d <= 2 ^ 0) by (destruct (Z_lt_le_dec d 0); [rewrite Z.pow_neg_r by lia; simpl; lia| apply Z.pow_le_mono_r; lia]). simpl in *. lia. }
  assert (0 < Zdigits2 m). { destruct m; simpl; lia. }
  destruct (Z_lt_le_dec (Zdigits2 m) d).
  - assert (2 ^ Zdigits2 m <= 2 ^ (d - 1)) by (apply Z.pow_le_mono_r; lia). lia.
  - destruct (Z_lt_le_dec d (Zdigits2 m)); try lia.
    assert (2 ^ d <= 2 ^ (Zdigits2 m - 1)) by (apply Z.pow_le_mono_r; lia). lia.
Qed.

Lemma Zdigits2_mono m n : 0 <= m <= n -> Zdigits2 m <= Zdigits2 n.
Proof.
  intros [H1 H2].
  destruct (Z.eq_dec m 0) as [->|]. { apply Zdigits2_nonneg. }
  pose proof (Zdigits2_bounds m ltac:(lia)) as [A B].
  pose proof (Zdigits2_bounds n ltac:(lia)) as [C D].
  destruct (Z_lt_le_dec (Zdigits2 n) (Zdigits2 m)); try lia.
  assert (2 ^ Zdigits2 n <= 2 ^ (Zdigits2 m - 1)).
  { apply Z.pow_le_mono_r; try lia. }
  lia.
Qed.

(** [SpecFloat.iter_pos] is plain iteration. *)
Lemma iter_pos_nat {A} (f : A -> A) p x :
  iter_pos f p x = Nat.iter (Pos.to_nat p) f x.
Proof.
  revert x. induction p as [p IH|p IH|]; intros x.
  - change (iter_pos f p~1 x) with (iter_pos f p (iter_pos f p (f x))).
    rewrite !IH, Pos2Nat.inj_xI.
    replace (S (2 * Pos.to_nat p)) with (S (Pos.to_nat p + Pos.to_nat p))%nat by lia.
    rewrite Nat.iter_succ_r, Nat.iter_add. reflexivity.
  - change (iter_pos f p~0 x) with (iter_pos f p (iter_pos f p x)).
    rewrite !IH, Pos2Nat.inj_xO.
    replace (2 * Pos.to_nat p)%nat with (Pos.to_nat p + Pos.to_nat p)%nat by lia.
    rewrite Nat.iter_add. reflexivity.
  - reflexivity.
Qed.

(** One shift: the round bit joins the sticky bit, the last bit of the
    mantissa becomes the round bit. *)
Lemma shr_1_rec h t : 0 <= h -> shr_1 (rec_of h t) = rec_of (Z.div2 h) (Z.odd h || t).
Proof.
  intros Hh. unfold rec_of, shr_1.
  destruct h as [|p|p]; try lia; try reflexivity.
  destruct p as [p|p|]; try reflexivity; destruct p; reflexivity.
Qed.

Lemma Zmod2_odd x : x mod 2 = Z.b2z (Z.odd x).
Proof.
  pose proof (Z.div2_odd x) as H. rewrite Z.div2_div in H.
  pose proof (Z.div_mod x 2 ltac:(lia)).
  destruct (Z.odd x); simpl Z.b2z in *; lia.
Qed.

Lemma Zodd_eqb x : Z.odd x = negb (x mod 2 =? 0).
Proof. rewrite Zmod2_odd. destruct (Z.odd x); reflexivity. Qed.

Lemma Zdiv2_b2z x : 2 * (x / 2) + Z.b2z (Z.odd x) = x.
Proof. pose proof (Z.div2_odd x) as H. rewrite Z.div2_div in H. lia. Qed.

Lemma Zdouble_div2 x : 2 * x / 2 = x.
Proof. rewrite Z.mul_comm. apply Z.div_mul. lia. Qed.

(** *** [binary_round_aux] in closed form *)

Lemma iter_shr_1_rec n h t :
  0 <= h ->
  Nat.iter n shr_1 (rec_of h t) =
  rec_of (h / 2 ^ Z.of_nat n) (negb (h mod 2 ^ Z.of_nat n =? 0) || t).
Proof.
  intros Hh. induction n as [|n IH].
  - simpl. rewrite Z.div_1_r, Z.mod_1_r. reflexivity.
  - rewrite Nat2Z.inj_succ, Nat.iter_succ, IH.
    assert (Hp : 0 < 2 ^ Z.of_nat n) by (apply Z.pow_pos_nonneg; lia).
    rewrite shr_1_rec by (apply Z.div_pos; lia).
    rewrite Z.pow_succ_r by lia.
    rewrite Z.div2_div, Z.div_div by lia.
    rewrite (Z.mul_comm 2).
    f_equal.
    rewrite (Z.rem_mul_r h (2 ^ Z.of_nat n) 2) by lia.
    rewrite orb_assoc. f_equal.
    rewrite Zodd_eqb.
    pose proof (Z.mod_pos_bound h (2 ^ Z.of_nat n) Hp).
    pose proof (Z.mod_pos_bound (h / 2 ^ Z.of_nat n) 2 ltac:(lia)).
    destruct (Z.eqb_spec (h mod 2 ^ Z.of_nat n) 0) as [E|E];
    destruct (Z.eqb_spec ((h / 2 ^ Z.of_nat n) mod 2) 0) as [E2|E2];
    destruct (Z.eqb_spec (h mod 2 ^ Z.of_nat n + 2 ^ Z.of_nat n * ((h / 2 ^ Z.of_nat n) mod 2)) 0) as [E'|E'];
    simpl; try reflexivity; nia.
Qed.

(** [n] shifts at once. *)
Lemma shr_rec h t e n :
  0 <= h ->
  shr (rec_of h t) e n =
  (rec_of (h / 2 ^ Z.max n 0) (negb (h mod 2 ^ Z.max n 0 =? 0) || t),
   e + Z.max n 0).
Proof.
  intros Hh. destruct n as [|p|p]; simpl shr.
  - simpl Z.max. rewrite Z.pow_0_r, Z.div_1_r, Z.mod_1_r, Z.add_0_r. reflexivity.
  - rewrite iter_pos_nat, iter_shr_1_rec by assumption.
    rewrite positive_nat_Z. replace (Z.max (Zpos p) 0) with (Zpos p) by lia. reflexivity.
  - replace (Z.max (Zneg p) 0) with 0 by lia.
    rewrite Z.pow_0_r, Z.div_1_r, Z.mod_1_r, Z.add_0_r. reflexivity.
Qed.

Lemma loc_of_rec h t : loc_of_shr_record (rec_of h t) = loc_of_bits (Z.odd h) t.
Proof. reflexivity. Qed.

Lemma shr_record_of_loc_bits m b t :
  shr_record_of_loc m (loc_of_bits b t) = rec_of (2 * m + Z.b2z b) t.
Proof.
  unfold rec_of. 
  assert (Z.div2 (2 * m + Z.b2z b) = m).
  { rewrite Z.div2_div. symmetry. apply Z.div_unique with (Z.b2z b); destruct b; simpl; lia. }
  assert (Z.odd (2 * m + Z.b2z b) = b).
  { rewrite Z.add_comm, Z.odd_add_mul_2. destruct b; reflexivity. }
  rewrite H, H0. destruct b, t; reflexivity.
Qed.

Lemma round_nearest_even_rec h t :
  round_nearest_even (shr_m (rec_of h t)) (loc_of_shr_record (rec_of h t)) = rne h t.
Proof.
  rewrite loc_of_rec. unfold rec_of, rne. simpl shr_m. rewrite Z.div2_div.
  destruct (Z.odd h), t; reflexivity.
Qed.

Lemma rne_nonneg h t : 0 <= h -> 0 <= rne h t.
Proof.
  intros. unfold rne. pose proof (Z.div_pos h 2 H ltac:(lia)).
  destruct (Z.odd h), t, (Z.even (h/2)); lia.
Qed.

(** [binary_round_aux] is [bra]. *)
Lemma binary_round_aux_bra sx h t e :
  0 <= h ->
  binary_round_aux prec emax sx (h / 2) e (loc_of_bits (Z.odd h) t) = bra sx h t e.
Proof.
  intros Hh. unfold binary_round_aux, shr_fexp.
  rewrite shr_record_of_loc_bits.
  rewrite Zdiv2_b2z.
  rewrite shr_rec by assumption.
  rewrite round_nearest_even_rec.
  set (k1 := Z.max (fexp64 (Zdigits2 (h / 2) + e) - e) 0).
  set (m2 := rne _ _).
  change loc_Exact with (loc_of_bits false false).
  rewrite shr_record_of_loc_bits. simpl Z.b2z. rewrite Z.add_0_r.
  assert (0 <= m2). { apply rne_nonneg. apply Z.div_pos; [lia|]. apply Z.pow_pos_nonneg; lia. }
  rewrite shr_rec by lia.
  unfold bra. fold k1. fold m2.
  set (k2 := Z.max (fexp64 (Zdigits2 m2 + (e + k1)) - (e + k1)) 0).
  unfold rec_of. cbv beta iota delta [shr_m]. rewrite Z.div2_div.
  assert (0 < 2 ^ k2) by (apply Z.pow_pos_nonneg; lia).
  replace (2 * m2 / 2 ^ k2 / 2) with (m2 / 2 ^ k2).
  2:{ rewrite Z.div_div by lia. rewrite (Z.mul_comm (2^k2)). rewrite <- Z.div_div by lia.
      rewrite (Z.mul_comm 2 m2), Z.div_mul by lia. reflexivity. }
  reflexivity.
Qed.

(** *** Alignment, and the value of the result *)

Lemma fexp64_eq x : fexp64 x = Z.max (x - 53) (-1074).
Proof. reflexivity. Qed.

Lemma pow2_pos k : 0 < 2 ^ k \/ (k < 0 /\ 2 ^ k = 0).
Proof.
  destruct (Z_lt_le_dec k 0).
  - right. split; auto. apply Z.pow_neg_r; lia.
  - left. apply Z.pow_pos_nonneg; lia.
Qed.

Lemma Zdigits2_div_pow2 m k :
  0 <= m -> 0 <= k ->
  Zdigits2 (m / 2 ^ k) = Z.max (Zdigits2 m - k) 0.
Proof.
  intros Hm Hk.
  assert (Hp : 0 < 2 ^ k) by (apply Z.pow_pos_nonneg; lia).
  destruct (Z.eq_dec m 0) as [->|Hm0].
  { rewrite Z.div_0_l by lia. simpl. lia. }
  pose proof (Zdigits2_bounds m ltac:(lia)) as [A B].
  destruct (Z_lt_le_dec k (Zdigits2 m)) as [L|L].
  - replace (Z.max (Zdigits2 m - k) 0) with (Zdigits2 m - k) by lia.
    assert (2 ^ (Zdigits2 m - 1) = 2 ^ (Zdigits2 m - k - 1) * 2 ^ k).
    { rewrite <- Z.pow_add_r by lia. f_equal. lia. }
    assert (2 ^ (Zdigits2 m) = 2 ^ (Zdigits2 m - k) * 2 ^ k).
    { rewrite <- Z.pow_add_r by lia. f_equal. lia. }
    assert (0 < 2 ^ (Zdigits2 m - k - 1)) by (apply Z.pow_pos_nonneg; lia).
    apply Zdigits2_unique.
    + apply Z.div_str_pos. split; [lia|]. nia.
    + split.
      * apply Z.div_le_lower_bound; [lia|]. nia.
      * apply Z.div_lt_upper_bound; [lia|]. nia.
  - replace (Z.max (Zdigits2 m - k) 0) with 0 by lia.
    assert (2 ^ Zdigits2 m <= 2 ^ k) by (apply Z.pow_le_mono_r; lia).
    rewrite Z.div_small by lia. reflexivity.
Qed.

Lemma mod_pow2_split h k n :
  0 <= k <= n ->
  (h mod 2 ^ n =? 0) = (h mod 2 ^ k =? 0) && ((h / 2 ^ k) mod 2 ^ (n - k) =? 0).
Proof.
  intros [Hk Hn].
  assert (Hp : 0 < 2 ^ k) by (apply Z.pow_pos_nonneg; lia).
  assert (Hq : 0 < 2 ^ (n - k)) by (apply Z.pow_pos_nonneg; lia).
  replace (2 ^ n) with (2 ^ k * 2 ^ (n - k)).
  2:{ rewrite <- Z.pow_add_r by lia. f_equal. lia. }
  rewrite Z.rem_mul_r by lia.
  pose proof (Z.mod_pos_bound h (2 ^ k) Hp).
  pose proof (Z.mod_pos_bound (h / 2 ^ k) (2 ^ (n - k)) Hq).
  destruct (Z.eqb_spec (h mod 2 ^ k) 0) as [E|E];
  destruct (Z.eqb_spec ((h / 2 ^ k) mod 2 ^ (n - k)) 0) as [E2|E2];
  destruct (Z.eqb_spec (h mod 2 ^ k + 2 ^ k * ((h / 2 ^ k) mod 2 ^ (n - k))) 0) as [E'|E'];
  simpl; try reflexivity; nia.
Qed.

(** Alignment: shifting the input of [bra] by [k] bits, within the shift
    the rounding does anyway, does not change the result. *)
Lemma bra_shift sx h t e k :
  0 <= h -> 0 <= k <= fexp64 (Zdigits2 (h / 2) + e) - e ->
  bra sx h t e = bra sx (h / 2 ^ k) (negb (h mod 2 ^ k =? 0) || t) (e + k).
Proof.
  intros Hh [Hk Hn].
  assert (Hp : 0 < 2 ^ k) by (apply Z.pow_pos_nonneg; lia).
  unfold bra.
  set (E := fexp64 (Zdigits2 (h / 2) + e)) in *.
  assert (HE : fexp64 (Zdigits2 (h / 2 ^ k / 2) + (e + k)) = E).
  { rewrite Z.div_div, (Z.mul_comm (2 ^ k)), <- Z.div_div by lia.
    rewrite Zdigits2_div_pow2 by (try apply Z.div_pos; lia).
    unfold E. rewrite !fexp64_eq. unfold E in Hn. rewrite fexp64_eq in Hn.
    pose proof (Zdigits2_nonneg (h / 2)). lia. }
  rewrite HE.
  replace (Z.max (E - (e + k)) 0) with (E - e - k) by lia.
  replace (Z.max (E - e) 0) with (E - e) by lia.
  set (n := E - e) in *.
  replace (h / 2 ^ k / 2 ^ (n - k)) with (h / 2 ^ n).
  2:{ rewrite Z.div_div by (try apply Z.pow_pos_nonneg; lia).
      rewrite <- Z.pow_add_r by lia. do 2 f_equal. lia. }
  replace (negb (h / 2 ^ k mod 2 ^ (n - k) =? 0) || (negb (h mod 2 ^ k =? 0) || t))
    with (negb (h mod 2 ^ n =? 0) || t).
  2:{ rewrite (mod_pow2_split h k n) by lia.
      destruct (h mod 2 ^ k =? 0), (h / 2 ^ k mod 2 ^ (n - k) =? 0), t; reflexivity. }
  replace (e + k + (n - k)) with (e + n) by lia.
  reflexivity.
Qed.

Lemma rne_bounds h t : 0 <= h -> h / 2 <= rne h t <= h / 2 + 1.
Proof.
  intros. unfold rne. destruct (Z.odd h), t, (Z.even (h/2)); lia.
Qed.

(** The value of a rounded positive number: [rval], cut at [BIG] where the
    result overflows to infinity. *)
Lemma ord_bra h t e :
  0 <= h -> e <= fexp64 (Zdigits2 (h / 2) + e) ->
  ord (bra false h t e) = Z.min (rval h t e) BIG.
Proof.
  intros Hh Hn. unfold rval, bra.
  set (E := fexp64 (Zdigits2 (h / 2) + e)) in *.
  replace (Z.max (E - e) 0) with (E - e) by lia.
  replace (e + (E - e)) with E by lia.
  set (k1 := E - e).
  set (t' := negb (h mod 2 ^ k1 =? 0) || t).
  assert (Hp : 0 < 2 ^ k1) by (apply Z.pow_pos_nonneg; lia).
  assert (Hh' : 0 <= h / 2 ^ k1) by (apply Z.div_pos; lia).
  pose proof (rne_bounds (h / 2 ^ k1) t' Hh') as [R1 R2].
  set (m2 := rne (h / 2 ^ k1) t') in *.
  assert (Hm' : h / 2 ^ k1 / 2 = h / 2 / 2 ^ k1).
  { rewrite !Z.div_div by lia. f_equal. lia. }
  rewrite Hm' in R1, R2.
  pose proof (Zdigits2_div_pow2 (h / 2) k1 ltac:(apply Z.div_pos; lia) ltac:(lia)) as Hd.
  set (m1 := h / 2 / 2 ^ k1) in *.
  assert (Hm1 : 0 <= m1) by (apply Z.div_pos; [apply Z.div_pos|]; lia).
  assert (HEmin : -1074 <= E) by (unfold E; rewrite fexp64_eq; lia).
  assert (Hd1 : Zdigits2 m1 <= 53).
  { rewrite Hd. unfold k1, E. rewrite fexp64_eq. pose proof (Zdigits2_nonneg (h/2)). lia. }
  assert (Hm1lt : m1 < 2 ^ 53).
  { destruct (Z.eq_dec m1 0) as [->|]; [reflexivity|].
    pose proof (Zdigits2_bounds m1 ltac:(lia)) as [_ B].
    assert (2 ^ Zdigits2 m1 <= 2 ^ 53) by (apply Z.pow_le_mono_r; lia). lia. }
  assert (Hnorm : -1074 < E -> 2 ^ 52 <= m1).
  { intros HE. assert (Zdigits2 m1 = 53).
    { rewrite Hd. unfold k1, E in *. rewrite fexp64_eq in *. lia. }
    assert (m1 <> 0) by (intros ->; simpl in *; lia).
    pose proof (Zdigits2_bounds m1 ltac:(lia)) as [B _]. rewrite H in B. exact B. }
  assert (HBIG : BIG = 2 ^ 53 * 2 ^ (971 + 1074)) by reflexivity.
  assert (HBIG' : BIG = 2 ^ 52 * 2 ^ (972 + 1074)) by reflexivity.
  assert (Hpe : 0 < 2 ^ (E + 1074)) by (apply Z.pow_pos_nonneg; lia).
  destruct (Z.eq_dec m2 (2 ^ 53)) as [Em2|Nm2].
  - (* the mantissa overflowed by rounding *)
    assert (Hd2 : Zdigits2 m2 = 54) by (rewrite Em2; reflexivity).
    rewrite Hd2, fexp64_eq.
    replace (Z.max (Z.max (54 + E - 53) (-1074) - E) 0) with 1 by lia.
    rewrite Em2. change (2 ^ 53 / 2 ^ 1) with (Zpos (2 ^ 52)).
    destruct (Z.leb_spec (E + 1) (emax - prec)) as [L|L]; cbv beta iota delta [ord cond_Zopp].
    + change (emax - prec) with 971 in L.
      replace (E + 1 + 1074) with (1 + (E + 1074)) by lia.
      rewrite Z.pow_add_r by lia.
      assert (2 ^ (E + 1074) <= 2 ^ (970 + 1074)) by (apply Z.pow_le_mono_r; lia).
      change (Zpos (2 ^ 52)) with (2 ^ 52).
      change (2 ^ 1) with 2. 
      assert (BIG = 2 ^ 53 * 2 * 2 ^ (970 + 1074)) by reflexivity.
      assert (2 ^ 52 * (2 * 2 ^ (E + 1074)) = 2 ^ 53 * 2 ^ (E + 1074)).
      { change (2 ^ 53) with (2 ^ 52 * 2). ring. }
      rewrite H1. 
      assert (0 < 2 ^ 53) by reflexivity.
      rewrite Z.min_l; [reflexivity|]. rewrite H0. 
      rewrite <- Z.mul_assoc. apply Z.mul_le_mono_nonneg_l; lia.
    + change (emax - prec) with 971 in L.
      assert (2 ^ (971 + 1074) <= 2 ^ (E + 1074)) by (apply Z.pow_le_mono_r; lia).
      rewrite Z.min_r; [reflexivity|]. rewrite HBIG.
      apply Z.mul_le_mono_nonneg_l; lia.
  - assert (Hm2lt : m2 < 2 ^ 53) by lia.
    assert (Hd2 : Zdigits2 m2 <= 53).
    { destruct (Z.eq_dec m2 0) as [->|]; [simpl; lia|].
      destruct (Z_lt_le_dec 53 (Zdigits2 m2)); [|lia].
      pose proof (Zdigits2_bounds m2 ltac:(lia)) as [B _].
      assert (2 ^ 53 <= 2 ^ (Zdigits2 m2 - 1)) by (apply Z.pow_le_mono_r; lia). lia. }
    rewrite fexp64_eq.
    replace (Z.max (Z.max (Zdigits2 m2 + E - 53) (-1074) - E) 0) with 0 by lia.
    rewrite Z.pow_0_r, Z.div_1_r, Z.add_0_r.
    destruct m2 as [|p|p]; try lia.
    + cbv beta iota delta [ord cond_Zopp]. rewrite Z.mul_0_l. reflexivity.
    + destruct (Z.leb_spec E (emax - prec)) as [L|L]; cbv beta iota delta [ord cond_Zopp].
      * change (emax - prec) with 971 in L.
        assert (2 ^ (E + 1074) <= 2 ^ (971 + 1074)) by (apply Z.pow_le_mono_r; lia).
        rewrite Z.min_l; [reflexivity|]. rewrite HBIG.
        apply Z.mul_le_mono_nonneg; lia.
      * change (emax - prec) with 971 in L.
        assert (2 ^ (972 + 1074) <= 2 ^ (E + 1074)) by (apply Z.pow_le_mono_r; lia).
        rewrite Z.min_r; [reflexivity|]. rewrite HBIG'.
        assert (2 ^ 52 <= Zpos p) by (specialize (Hnorm ltac:(lia)); lia).
        apply Z.mul_le_mono_nonneg; lia.
Qed.

(** *** Rounding is monotone *)

Lemma rne_mono h1 t1 h2 t2 :
  0 <= h1 -> lexle h1 t1 h2 t2 -> rne h1 t1 <= rne h2 t2.
Proof.
  intros Hh [L|[-> Ht]].
  - pose proof (Zdiv2_b2z h1) as E1. pose proof (Zdiv2_b2z h2) as E2.
    pose proof (rne_bounds h1 t1 Hh) as [_ U].
    pose proof (rne_bounds h2 t2 ltac:(lia)) as [Lo _].
    destruct (Z_lt_le_dec (h1 / 2) (h2 / 2)) as [D|D]; [lia|].
    assert (Z.odd h1 = false) by (destruct (Z.odd h1), (Z.odd h2); simpl Z.b2z in *; try reflexivity; exfalso; lia).
    unfold rne at 1. rewrite H. cbv iota.
    pose proof (Z.div_le_mono h1 h2 2 ltac:(lia) ltac:(lia)). lia.
  - unfold rne. destruct (Z.odd h2); [|lia].
    destruct t1.
    + rewrite Ht by reflexivity. lia.
    + destruct t2, (Z.even (h2 / 2)); lia.
Qed.

(** Shifting keeps the order. *)
Lemma lexle_shift h1 t1 h2 t2 k :
  0 <= h1 -> 0 <= k -> lexle h1 t1 h2 t2 ->
  lexle (h1 / 2 ^ k) (negb (h1 mod 2 ^ k =? 0) || t1)
        (h2 / 2 ^ k) (negb (h2 mod 2 ^ k =? 0) || t2).
Proof.
  intros Hh Hk [L|[-> Ht]].
  - assert (Hp : 0 < 2 ^ k) by (apply Z.pow_pos_nonneg; lia).
    pose proof (Z.div_le_mono h1 h2 (2 ^ k) Hp ltac:(lia)) as D.
    destruct (Z.eq_dec (h1 / 2 ^ k) (h2 / 2 ^ k)) as [E|E]; [|left; lia].
    right. split; [exact E|]. intros _.
    pose proof (Z.div_mod h1 (2 ^ k) ltac:(lia)).
    pose proof (Z.div_mod h2 (2 ^ k) ltac:(lia)).
    pose proof (Z.mod_pos_bound h1 (2 ^ k) Hp).
    destruct (Z.eqb_spec (h2 mod 2 ^ k) 0) as [E0|E0]; [|reflexivity].
    exfalso. rewrite E in H. lia.
  - right. split; [reflexivity|].
    destruct (h2 mod 2 ^ k =? 0); simpl; auto.
Qed.

(** At a fixed exponent below the smallest one of the format, the rounded
    value is monotone in the mantissa: within a binade by [rne_mono], and
    across binades because a power of two lies in between. *)
Lemma rval_mono e h1 t1 h2 t2 :
  e <= -1074 -> 0 <= h1 -> lexle h1 t1 h2 t2 ->
  rval h1 t1 e <= rval h2 t2 e.
Proof.
  intros He Hh1 L. unfold rval. rewrite !fexp64_eq.
  assert (Hh2 : 0 <= h2) by (destruct L as [L|[-> _]]; lia).
  assert (Hm : h1 / 2 <= h2 / 2).
  { apply Z.div_le_mono; [lia|]. destruct L as [L|[-> _]]; lia. }
  pose proof (Zdigits2_mono (h1 / 2) (h2 / 2) ltac:(split; [apply Z.div_pos; lia|lia])) as Hd.
  pose proof (Zdigits2_nonneg (h1 / 2)) as Hd0.
  set (d1 := Zdigits2 (h1 / 2)) in *. set (d2 := Zdigits2 (h2 / 2)) in *.
  set (k1 := Z.max (Z.max (d1 + e - 53) (-1074) - e) 0).
  set (k2 := Z.max (Z.max (d2 + e - 53) (-1074) - e) 0).
  assert (Hk1 : 0 <= k1) by lia. assert (Hk2 : 0 <= k2) by lia.
  assert (Hk : k1 <= k2) by lia.
  assert (Hp1 : 0 < 2 ^ k1) by (apply Z.pow_pos_nonneg; lia).
  assert (Hp2 : 0 < 2 ^ k2) by (apply Z.pow_pos_nonneg; lia).
  destruct (Z.eq_dec k1 k2) as [E|NE].
  - rewrite <- E.
    apply Z.mul_le_mono_nonneg_r; [apply Z.pow_nonneg; lia|].
    apply rne_mono; [apply Z.div_pos; lia|].
    apply lexle_shift; assumption.
  - (* the second input has more digits: it lies in a higher binade *)
    set (s1 := negb (h1 mod 2 ^ k1 =? 0) || t1).
    set (s2 := negb (h2 mod 2 ^ k2 =? 0) || t2).
    pose proof (rne_bounds (h1 / 2 ^ k1) s1 ltac:(apply Z.div_pos; lia)) as [_ U].
    pose proof (rne_bounds (h2 / 2 ^ k2) s2 ltac:(apply Z.div_pos; lia)) as [Lo _].
    assert (E1 : h1 / 2 ^ k1 / 2 = h1 / 2 / 2 ^ k1) by (rewrite !Z.div_div by lia; f_equal; lia).
    assert (E2 : h2 / 2 ^ k2 / 2 = h2 / 2 / 2 ^ k2) by (rewrite !Z.div_div by lia; f_equal; lia).
    rewrite E1 in U. rewrite E2 in Lo.
    pose proof (Zdigits2_div_pow2 (h1 / 2) k1 ltac:(apply Z.div_pos; lia) Hk1) as D1.
    pose proof (Zdigits2_div_pow2 (h2 / 2) k2 ltac:(apply Z.div_pos; lia) Hk2) as D2.
    fold d1 in D1. fold d2 in D2.
    set (m1 := h1 / 2 / 2 ^ k1) in *. set (m2 := h2 / 2 / 2 ^ k2) in *.
    assert (Hm1 : 0 <= m1) by (apply Z.div_pos; [apply Z.div_pos|]; lia).
    assert (Hm2 : 0 <= m2) by (apply Z.div_pos; [apply Z.div_pos|]; lia).
    assert (Hm1lt : m1 < 2 ^ 53).
    { destruct (Z.eq_dec m1 0) as [->|]; [reflexivity|].
      pose proof (Zdigits2_bounds m1 ltac:(lia)) as [_ B].
      assert (2 ^ Zdigits2 m1 <= 2 ^ 53) by (apply Z.pow_le_mono_r; lia). lia. }
    assert (Hm2ge : 2 ^ 52 <= m2).
    { assert (Zdigits2 m2 = 53) by lia.
      assert (m2 <> 0) by (intros Z0; rewrite Z0 in H; simpl in H; lia).
      pose proof (Zdigits2_bounds m2 ltac:(lia)) as [B _]. rewrite H in B. exact B. }
    replace (e + k2 + 1074) with ((k2 - k1 - 1) + 1 + (e + k1 + 1074)) by lia.
    rewrite (Z.pow_add_r 2 (k2 - k1 - 1 + 1) (e + k1 + 1074)) by lia.
    rewrite (Z.pow_add_r 2 (k2 - k1 - 1) 1) by lia.
    assert (0 < 2 ^ (e + k1 + 1074)) by (apply Z.pow_pos_nonneg; lia).
    assert (0 < 2 ^ (k2 - k1 - 1)) by (apply Z.pow_pos_nonneg; lia).
    change (2 ^ 1) with 2.
    apply Z.le_trans with (2 ^ 53 * 2 ^ (e + k1 + 1074)).
    + apply Z.mul_le_mono_nonneg_r; lia.
    + rewrite Z.mul_assoc. apply Z.mul_le_mono_nonneg_r; [lia|].
      change (2 ^ 53) with (2 ^ 52 * 2).
      rewrite Z.mul_assoc. apply Z.mul_le_mono_nonneg_r; [lia|].
      apply Z.le_trans with (2 ^ 52 * 1); [lia|].
      apply Z.mul_le_mono_nonneg; lia.
Qed.

Lemma rval_nonneg h t e : 0 <= h -> 0 <= rval h t e.
Proof.
  intros. unfold rval.
  apply Z.mul_nonneg_nonneg; [|apply Z.pow_nonneg; lia].
  apply rne_nonneg. apply Z.div_pos; [lia|]. apply Z.pow_pos_nonneg; lia.
Qed.

(** *** The order of floats *)

Lemma bounded_inv m e :
  bounded prec emax m e = true ->
  -1074 <= e <= 971 /\ Zpos (digits2_pos m) <= 53 /\
  (-1074 < e -> Zpos (digits2_pos m) = 53).
Proof.
  unfold bounded, canonical_mantissa. rewrite fexp64_eq.
  intros H. apply andb_true_iff in H. destruct H as [H1 H2].
  apply Z.eqb_eq in H1. apply Z.leb_le in H2. change (emax - prec) with 971 in H2.
  lia.
Qed.

Lemma finite_ord_bounds m e :
  bounded prec emax m e = true ->
  0 < Zpos m * 2 ^ (e + 1074) < BIG /\
  (-1074 < e -> 2 ^ 52 * 2 ^ (e + 1074) <= Zpos m * 2 ^ (e + 1074)) /\
  Zpos m * 2 ^ (e + 1074) < 2 ^ 53 * 2 ^ (e + 1074).
Proof.
  intros H. apply bounded_inv in H. destruct H as (He & Hd & Hn).
  pose proof (digits2_pos_bounds m) as [B1 B2].
  assert (Hp : 0 < 2 ^ (e + 1074)) by (apply Z.pow_pos_nonneg; lia).
  assert (Hm : Zpos m < 2 ^ 53).
  { assert (2 ^ Zpos (digits2_pos m) <= 2 ^ 53) by (apply Z.pow_le_mono_r; lia). lia. }
  assert (2 ^ (e + 1074) <= 2 ^ (971 + 1074)) by (apply Z.pow_le_mono_r; lia).
  assert (HBIG : BIG = 2 ^ 53 * 2 ^ (971 + 1074)) by reflexivity.
  repeat split.
  - apply Z.mul_pos_pos; lia.
  - rewrite HBIG. apply Z.lt_le_trans with (2 ^ 53 * 2 ^ (e + 1074)).
    + apply Z.mul_lt_mono_pos_r; lia.
    + apply Z.mul_le_mono_nonneg_l; lia.
  - intros L. rewrite (Hn L) in B1. change (53 - 1) with 52 in B1.
    apply Z.mul_le_mono_nonneg_r; lia.
  - apply Z.mul_lt_mono_pos_r; lia.
Qed.

(** Among valid finite floats a smaller exponent means a smaller value. *)
Lemma finite_ord_lt m1 e1 m2 e2 :
  bounded prec emax m1 e1 = true -> bounded prec emax m2 e2 = true ->
  e1 < e2 -> Zpos m1 * 2 ^ (e1 + 1074) < Zpos m2 * 2 ^ (e2 + 1074).
Proof.
  intros H1 H2 L.
  pose proof (bounded_inv _ _ H1) as (He1 & _ & _).
  pose proof (bounded_inv _ _ H2) as (He2 & _ & _).
  pose proof (finite_ord_bounds _ _ H1) as (_ & _ & U).
  pose proof (finite_ord_bounds _ _ H2) as (_ & Lo & _).
  specialize (Lo ltac:(lia)).
  assert (2 ^ 53 * 2 ^ (e1 + 1074) <= 2 ^ 52 * 2 ^ (e2 + 1074)).
  { change (2 ^ 53) with (2 ^ 52 * 2 ^ 1). rewrite <- Z.mul_assoc, <- Z.pow_add_r by lia.
    apply Z.mul_le_mono_nonneg_l; [lia|]. apply Z.pow_le_mono_r; lia. }
  lia.
Qed.

Lemma Pos_compare_cont_Eq p q : Pos.compare_cont Eq p q = (Zpos p ?= Zpos q).
Proof. reflexivity. Qed.

Lemma compare_mul_pow p q k : 0 <= k -> (Zpos p ?= Zpos q) = (Zpos p * 2 ^ k ?= Zpos q * 2 ^ k).
Proof.
  intros. assert (0 < 2 ^ k) by (apply Z.pow_pos_nonneg; lia).
  apply Zmult_compare_compat_r. lia.
Qed.

Ltac cmp_ord :=
  apply f_equal; symmetry;
  first [ apply Z.compare_eq_iff; lia
        | apply Z.compare_lt_iff; lia
        | apply Z.compare_gt_iff; lia ].

(** On valid floats other than NaN, [SFcompare] is the order of the values. *)
Lemma SFcompare_ord x y :
  valid64 x = true -> valid64 y = true -> x <> S754_nan -> y <> S754_nan ->
  SFcompare x y = Some (ord x ?= ord y).
Proof.
  intros Vx Vy Nx Ny.
  assert (HB : 0 < BIG) by reflexivity.
  destruct x as [sx|sx| |sx mx ex], y as [sy|sy| |sy my ey]; try congruence;
    cbn [valid_binary] in Vx, Vy;
    try (pose proof (finite_ord_bounds _ _ Vx) as (Bx & _ & _));
    try (pose proof (finite_ord_bounds _ _ Vy) as (By & _ & _));
    cbv beta iota delta [SFcompare ord cond_Zopp].
  1-8: destruct sx, sy; cmp_ord.
  pose proof (bounded_inv _ _ Vx) as (Hex & _ & _).
  destruct sx, sy; try cmp_ord.
  - destruct (Z.compare_spec ex ey) as [E|L|L].
    + subst ey. rewrite Pos_compare_cont_Eq.
      rewrite (compare_mul_pow mx my (ex + 1074)) by lia.
      rewrite Z.compare_opp. rewrite <- Z.compare_antisym. reflexivity.
    + pose proof (finite_ord_lt _ _ _ _ Vx Vy L). cmp_ord.
    + pose proof (finite_ord_lt _ _ _ _ Vy Vx L). cmp_ord.
  - destruct (Z.compare_spec ex ey) as [E|L|L].
    + subst ey. rewrite Pos_compare_cont_Eq.
      apply f_equal, compare_mul_pow. lia.
    + pose proof (finite_ord_lt _ _ _ _ Vx Vy L). cmp_ord.
    + pose proof (finite_ord_lt _ _ _ _ Vy Vx L). cmp_ord.
Qed.

Local Open Scope float_scope.

Lemma SFcompare_refl x : x <> S754_nan -> SFcompare x x = Some Eq.
Proof.
  destruct x as [s|s| |s m e]; try congruence; intros _; simpl.
  - reflexivity.
  - destruct s; reflexivity.
  - rewrite Z.compare_refl, Pos.compare_cont_refl. destruct s; reflexivity.
Qed.

(** NaN is the only float that differs from itself. *)
Lemma is_nan_spec x : is_nan x = true <-> Prim2SF x = S754_nan.
Proof.
  unfold is_nan. rewrite eqb_spec. unfold SFeqb.
  destruct (Prim2SF x) as [s|s| |s m e] eqn:E.
  all: try (rewrite SFcompare_refl by congruence; simpl; split; congruence).
  simpl. split; auto.
Qed.

Lemma is_nan_false x : is_nan x = false <-> Prim2SF x <> S754_nan.
Proof.
  rewrite <- is_nan_spec. destruct (is_nan x); split; congruence.
Qed.

(** The comparisons of the primitive floats are those of their values. *)
Lemma leb_B2Z x y :
  is_nan x = false -> is_nan y = false -> (x <=? y) = (B2Z x <=? B2Z y)%Z.
Proof.
  intros Hx Hy. apply is_nan_false in Hx, Hy.
  rewrite leb_spec. unfold SFleb, B2Z.
  rewrite SFcompare_ord by (auto using Prim2SF_valid).
  unfold Z.leb. destruct (ord (Prim2SF x) ?= ord (Prim2SF y))%Z; reflexivity.
Qed.

Lemma ltb_B2Z x y :
  is_nan x = false -> is_nan y = false -> (x <? y) = (B2Z x <? B2Z y)%Z.
Proof.
  intros Hx Hy. apply is_nan_false in Hx, Hy.
  rewrite ltb_spec. unfold SFltb, B2Z.
  rewrite SFcompare_ord by (auto using Prim2SF_valid).
  unfold Z.ltb. destruct (ord (Prim2SF x) ?= ord (Prim2SF y))%Z; reflexivity.
Qed.

Lemma leb_nan x y : (x <=? y) = true -> is_nan x = false /\ is_nan y = false.
Proof.
  rewrite leb_spec. unfold SFleb. intros H.
  split; apply is_nan_false; intros E; rewrite E in H;
    [|destruct (Prim2SF x)]; simpl in H; discriminate.
Qed.

Lemma ltb_nan x y : (x <? y) = true -> is_nan x = false /\ is_nan y = false.
Proof.
  rewrite ltb_spec. unfold SFltb. intros H.
  split; apply is_nan_false; intros E; rewrite E in H;
    [|destruct (Prim2SF x)]; simpl in H; discriminate.
Qed.

(** *** Exact inputs: [binary_round] and [binary_normalize] *)

Local Open Scope Z_scope.

Lemma binary_round_aux_exact s m e :
  0 <= m ->
  binary_round_aux prec emax s m e loc_Exact = bra s (2 * m) false e.
Proof.
  intros Hm. rewrite <- binary_round_aux_bra by lia.
  rewrite Zdouble_div2.
  replace (Z.odd (2 * m)) with false by (rewrite Z.odd_mul; reflexivity).
  reflexivity.
Qed.

Lemma Zdigits2_mul_pow2 m k :
  0 < m -> 0 <= k -> Zdigits2 (m * 2 ^ k) = Zdigits2 m + k.
Proof.
  intros Hm Hk. pose proof (Zdigits2_bounds m Hm) as [A B].
  assert (Hp : 0 < 2 ^ k) by (apply Z.pow_pos_nonneg; lia).
  assert (0 < Zdigits2 m) by (destruct m; simpl; lia).
  apply Zdigits2_unique; [nia|].
  replace (Zdigits2 m + k - 1) with (Zdigits2 m - 1 + k) by lia.
  rewrite !Z.pow_add_r by lia. split; nia.
Qed.

Lemma bra_exact_shift s M e k :
  0 < M -> 0 <= k -> e <= fexp64 (Zdigits2 M + e) ->
  bra s (2 * (M * 2 ^ k)) false (e - k) = bra s (2 * M) false e.
Proof.
  intros HM Hk He.
  assert (Hp : 0 < 2 ^ k) by (apply Z.pow_pos_nonneg; lia).
  rewrite (bra_shift s (2 * (M * 2 ^ k)) false (e - k) k).
  - replace (2 * (M * 2 ^ k)) with (2 * M * 2 ^ k) by ring.
    rewrite Z.div_mul, Z.mod_mul by lia.
    replace (e - k + k) with e by lia. reflexivity.
  - nia.
  - split; [lia|].
    rewrite Zdouble_div2.
    rewrite Zdigits2_mul_pow2 by lia.
    replace (Zdigits2 M + k + (e - k)) with (Zdigits2 M + e) by lia. lia.
Qed.

Lemma pos_iter_xO m d : Zpos (Pos.iter xO m d) = Zpos m * 2 ^ Zpos d.
Proof.
  induction d as [|d IH] using Pos.peano_ind.
  - simpl. lia.
  - rewrite Pos.iter_succ, Pos2Z.inj_xO, IH, Pos2Z.inj_succ, Z.pow_succ_r by lia. ring.
Qed.

Lemma shl_align_spec m e e' :
  let '(m', e'') := shl_align m e e' in
  e'' = Z.min e e' /\ Zpos m' = Zpos m * 2 ^ (e - e'').
Proof.
  unfold shl_align. destruct (e' - e) as [|p|p] eqn:E.
  - split; [lia|]. rewrite Z.sub_diag. simpl. lia.
  - split; [lia|]. rewrite Z.sub_diag. simpl. lia.
  - split; [lia|]. rewrite pos_iter_xO. f_equal. f_equal. lia.
Qed.

(** [binary_round] at the exponent [e] is [bra] on the mantissa written at
    the exponent [-1074]. *)
Lemma binary_round_bra s m e :
  -1074 <= e ->
  binary_round prec emax s m e = bra s (2 * (Zpos m * 2 ^ (e + 1074))) false (-1074).
Proof.
  intros He. unfold binary_round.
  change (Zpos (digits2_pos m)) with (Zdigits2 (Zpos m)).
  set (E := fexp64 (Zdigits2 (Zpos m) + e)).
  pose proof (shl_align_spec m e E) as H.
  destruct (shl_align m e E) as [mz ez]. destruct H as [Hez Hmz].
  rewrite binary_round_aux_exact by lia.
  assert (HE : -1074 <= E) by (unfold E; rewrite fexp64_eq; lia).
  assert (Hp : 0 < 2 ^ (e - ez)) by (apply Z.pow_pos_nonneg; lia).
  replace (Zpos m * 2 ^ (e + 1074)) with (Zpos mz * 2 ^ (ez + 1074)).
  2:{ rewrite Hmz, <- Z.mul_assoc, <- Z.pow_add_r by lia. do 2 f_equal. lia. }
  rewrite <- (bra_exact_shift s (Zpos mz) ez (ez + 1074)); try lia.
  - replace (ez - (ez + 1074)) with (-1074) by lia. reflexivity.
  - rewrite Hmz, Zdigits2_mul_pow2 by lia.
    replace (Zdigits2 (Zpos m) + (e - ez) + ez) with (Zdigits2 (Zpos m) + e) by lia.
    fold E. lia.
Qed.

Lemma bra_not_nan s h t e : 0 <= h -> bra s h t e <> S754_nan.
Proof.
  intros Hh. unfold bra.
  set (k1 := Z.max _ 0). set (m2 := rne _ _). set (k2 := Z.max _ 0).
  assert (0 <= m2).
  { apply rne_nonneg. apply Z.div_pos; [lia|]. apply Z.pow_pos_nonneg; lia. }
  assert (0 <= m2 / 2 ^ k2).
  { apply Z.div_pos; [lia|]. apply Z.pow_pos_nonneg; lia. }
  destruct (m2 / 2 ^ k2); try lia; try discriminate.
  destruct (_ <=? _); discriminate.
Qed.

Lemma bra_opp h t e : bra true h t e = SFopp (bra false h t e).
Proof.
  unfold bra. destruct (_ / _); try reflexivity.
  destruct (_ <=? _); reflexivity.
Qed.

Lemma ord_opp x : ord (SFopp x) = - ord x.
Proof.
  destruct x as [s|s| |s m e]; try destruct s;
    cbv beta iota delta [ord SFopp cond_Zopp negb]; lia.
Qed.

(** *** Roundings extended by symmetry *)

Section OddExt.
Variable f : Z -> Z.
Hypothesis f_0 : f 0 = 0.
Hypothesis f_mono : forall a b, 0 <= a <= b -> f a <= f b.

Lemma oddext_opp N : oddext f (- N) = - oddext f N.
Proof.
  unfold oddext. destruct (Z.leb_spec 0 N), (Z.leb_spec 0 (- N)); try lia.
  - assert (N = 0) by lia. subst. simpl. lia.
  - rewrite Z.opp_involutive. lia.
Qed.

Lemma oddext_nonneg N : 0 <= N -> 0 <= oddext f N.
Proof.
  intros. unfold oddext. destruct (Z.leb_spec 0 N); try lia.
  rewrite <- f_0. apply f_mono. lia.
Qed.

Lemma oddext_mono N1 N2 : N1 <= N2 -> oddext f N1 <= oddext f N2.
Proof.
  intros L.
  assert (P : forall a b, 0 <= a <= b -> oddext f a <= oddext f b).
  { intros a b [Ha Hb]. unfold oddext.
    destruct (Z.leb_spec 0 a), (Z.leb_spec 0 b); try lia.
    apply f_mono. lia. }
  destruct (Z_lt_le_dec N1 0) as [A|A], (Z_lt_le_dec N2 0) as [B|B].
  - specialize (P (- N2) (- N1) ltac:(lia)). rewrite !oddext_opp in P. lia.
  - pose proof (oddext_nonneg (- N1) ltac:(lia)) as Q. rewrite oddext_opp in Q.
    pose proof (oddext_nonneg N2 B). lia.
  - lia.
  - apply P. lia.
Qed.
End OddExt.

Lemma add_rnd_0 : add_rnd 0 = 0.
Proof. reflexivity. Qed.

Lemma add_rnd_mono a b : 0 <= a <= b -> add_rnd a <= add_rnd b.
Proof.
  intros [Ha Hb]. unfold add_rnd. apply Z.min_le_compat_r.
  apply rval_mono; [lia|lia|].
  destruct (Z.eq_dec a b) as [->|]; [right; auto|left; lia].
Qed.

Lemma RN_mono N1 N2 : N1 <= N2 -> RN N1 <= RN N2.
Proof. apply oddext_mono; [exact add_rnd_0|exact add_rnd_mono]. Qed.

(** [binary_normalize], which ends an addition, rounds the value. *)
Lemma binary_normalize_ord M e :
  -1074 <= e ->
  binary_normalize prec emax M e false <> S754_nan /\
  ord (binary_normalize prec emax M e false) = RN (M * 2 ^ (e + 1074)).
Proof.
  intros He.
  assert (Hp : 0 < 2 ^ (e + 1074)) by (apply Z.pow_pos_nonneg; lia).
  destruct M as [|m|m]; unfold binary_normalize.
  - split; [discriminate|]. reflexivity.
  - rewrite binary_round_bra by assumption. split; [apply bra_not_nan; nia|].
    rewrite ord_bra by (rewrite ?fexp64_eq; nia).
    unfold RN, oddext, add_rnd. destruct (Z.leb_spec 0 (Zpos m * 2 ^ (e + 1074))); [reflexivity|nia].
  - rewrite binary_round_bra by assumption. split; [apply bra_not_nan; nia|].
    rewrite bra_opp, ord_opp, ord_bra by (rewrite ?fexp64_eq; nia).
    unfold RN, oddext, add_rnd. destruct (Z.leb_spec 0 (Zneg m * 2 ^ (e + 1074))); [nia|].
    do 3 f_equal. change (Zneg m) with (- Zpos m). ring.
Qed.

(** *** Addition *)

Lemma rne_even m : rne (2 * m) false = m.
Proof.
  unfold rne. rewrite Z.odd_mul. simpl. apply Zdouble_div2.
Qed.

(** A valid float is left as it is. *)
Lemma bra_valid s m e :
  bounded prec emax m e = true ->
  bra s (2 * Zpos m) false e = S754_finite s m e.
Proof.
  intros V. pose proof (bounded_inv _ _ V) as (He & Hd & Hn).
  change (Zpos (digits2_pos m)) with (Zdigits2 (Zpos m)) in Hd, Hn.
  unfold bra. rewrite Zdouble_div2, fexp64_eq.
  replace (Z.max (Z.max (Zdigits2 (Zpos m) + e - 53) (-1074) - e) 0) with 0 by lia.
  rewrite Z.pow_0_r, Z.div_1_r, Z.mod_1_r. cbn [Z.eqb negb orb].
  rewrite rne_even, Z.add_0_r, fexp64_eq.
  replace (Z.max (Z.max (Zdigits2 (Zpos m) + e - 53) (-1074) - e) 0) with 0 by lia.
  rewrite Z.pow_0_r, Z.div_1_r, Z.add_0_r.
  change (emax - prec) with 971.
  destruct (Z.leb_spec e 971); [reflexivity|lia].
Qed.

Lemma binary_round_valid s m e :
  bounded prec emax m e = true ->
  binary_round prec emax s m e = S754_finite s m e.
Proof.
  intros V. pose proof (bounded_inv _ _ V) as (He & Hd & Hn).
  change (Zpos (digits2_pos m)) with (Zdigits2 (Zpos m)) in Hd, Hn.
  rewrite binary_round_bra by lia.
  rewrite <- (bra_valid s m e V).
  rewrite <- (bra_exact_shift s (Zpos m) e (e + 1074)); try lia.
  - replace (e - (e + 1074)) with (-1074) by lia. reflexivity.
  - rewrite fexp64_eq. lia.
Qed.

(** Rounding a value that is a float gives it back. *)
Lemma RN_ord x :
  valid64 x = true -> x <> S754_nan ->
  (forall s, x <> S754_infinity s) ->
  RN (ord x) = ord x.
Proof.
  intros V Nn Ni. destruct x as [s|s| |s m e];
    [|exfalso; apply (Ni s); reflexivity|congruence|].
  - reflexivity.
  - cbn [valid_binary] in V.
    pose proof (bounded_inv _ _ V) as (He & _).
    pose proof (binary_normalize_ord (cond_Zopp s (Zpos m)) e ltac:(lia)) as [_ H].
    replace (binary_normalize prec emax (cond_Zopp s (Zpos m)) e false)
      with (S754_finite s m e) in H.
    + cbv beta iota delta [ord]. cbv beta iota delta [ord] in H.
      transitivity (RN (cond_Zopp s (Zpos m) * 2 ^ (e + 1074))); [|symmetry; exact H].
      f_equal. destruct s; cbv beta iota delta [cond_Zopp]; lia.
    + destruct s; simpl cond_Zopp; unfold binary_normalize;
        symmetry; apply binary_round_valid; assumption.
Qed.

Lemma shl_align_fst mx ex ez :
  ez <= ex ->
  Zpos (fst (shl_align mx ex ez)) = Zpos mx * 2 ^ (ex - ez).
Proof.
  intros L. pose proof (shl_align_spec mx ex ez) as H.
  destruct (shl_align mx ex ez) as [m' e']. destruct H as [H1 H2].
  simpl fst. rewrite H2. do 2 f_equal. lia.
Qed.

(** The value of a sum of finite floats is the rounded sum of the values. *)
Lemma SFadd_ord x y :
  valid64 x = true -> valid64 y = true ->
  is_fin x = true -> is_fin y = true ->
  SFadd prec emax x y <> S754_nan /\
  ord (SFadd prec emax x y) = RN (ord x + ord y).
Proof.
  intros Vx Vy Fx Fy.
  destruct x as [sx|sx| |sx mx ex]; try discriminate;
  destruct y as [sy|sy| |sy my ey]; try discriminate.
  - split; [destruct sx, sy; discriminate|]. destruct sx, sy; reflexivity.
  - split; [discriminate|]. cbn [SFadd]. 
    replace (ord (S754_zero sx) + ord (S754_finite sy my ey)) with (ord (S754_finite sy my ey)) by (cbn [ord]; lia).
    symmetry. apply RN_ord; auto; discriminate.
  - split; [discriminate|]. cbn [SFadd].
    replace (ord (S754_finite sx mx ex) + ord (S754_zero sy)) with (ord (S754_finite sx mx ex)) by (cbn [ord]; lia).
    symmetry. apply RN_ord; auto; discriminate.
  - cbn [valid_binary] in Vx, Vy.
    pose proof (bounded_inv _ _ Vx) as (Hex & _).
    pose proof (bounded_inv _ _ Vy) as (Hey & _).
    cbn [SFadd]. cbv zeta.
    set (ez := Z.min ex ey).
    pose proof (binary_normalize_ord
      (cond_Zopp sx (Zpos (fst (shl_align mx ex ez))) + cond_Zopp sy (Zpos (fst (shl_align my ey ez))))
      ez ltac:(lia)) as [H1 H2].
    split; [exact H1|]. rewrite H2. f_equal.
    rewrite !shl_align_fst by lia.
    assert (Hx : Zpos mx * 2 ^ (ex - ez) * 2 ^ (ez + 1074) = Zpos mx * 2 ^ (ex + 1074)).
    { rewrite <- Z.mul_assoc, <- Z.pow_add_r by lia. do 2 f_equal. lia. }
    assert (Hy : Zpos my * 2 ^ (ey - ez) * 2 ^ (ez + 1074) = Zpos my * 2 ^ (ey + 1074)).
    { rewrite <- Z.mul_assoc, <- Z.pow_add_r by lia. do 2 f_equal. lia. }
    cbv beta iota delta [ord].
    destruct sx, sy; cbv beta iota delta [cond_Zopp]; lia.
Qed.

(** *** Multiplication by a positive normal constant *)

Lemma rval_0 e : e <= -1074 -> rval 0 false e = 0.
Proof.
  intros. unfold rval. change (0 / 2) with 0.
  set (k := Z.max _ 0).
  change (0 / 2 ^ k) with 0. change (0 mod 2 ^ k) with 0. reflexivity.
Qed.

Lemma mul_rnd_0 mc ec : ec <= 0 -> mul_rnd mc ec 0 = 0.
Proof. intros. unfold mul_rnd. rewrite Z.mul_0_l, Z.mul_0_r, rval_0 by lia. reflexivity. Qed.

Lemma mul_rnd_mono mc ec a b : ec <= 0 -> 0 <= a <= b -> mul_rnd mc ec a <= mul_rnd mc ec b.
Proof.
  intros He [Ha Hb]. unfold mul_rnd. apply Z.min_le_compat_r.
  apply rval_mono; [lia|nia|].
  destruct (Z.eq_dec a b) as [->|]; [right; auto|left; nia].
Qed.

Lemma Zdigits2_mul_ge a b :
  0 < a -> 0 < b -> Zdigits2 a + Zdigits2 b - 1 <= Zdigits2 (a * b).
Proof.
  intros Ha Hb.
  pose proof (Zdigits2_bounds a Ha) as [A1 A2].
  pose proof (Zdigits2_bounds b Hb) as [B1 B2].
  pose proof (Zdigits2_bounds (a * b) ltac:(nia)) as [C1 C2].
  assert (0 < Zdigits2 a) by (destruct a; simpl; lia).
  assert (0 < Zdigits2 b) by (destruct b; simpl; lia).
  destruct (Z_lt_le_dec (Zdigits2 (a * b)) (Zdigits2 a + Zdigits2 b - 1)) as [L|L]; [|lia].
  exfalso.
  assert (2 ^ Zdigits2 (a * b) <= 2 ^ (Zdigits2 a - 1 + (Zdigits2 b - 1))).
  { apply Z.pow_le_mono_r; lia. }
  rewrite Z.pow_add_r in H1 by lia.
  assert (0 < 2 ^ (Zdigits2 a - 1)) by (apply Z.pow_pos_nonneg; lia).
  assert (0 < 2 ^ (Zdigits2 b - 1)) by (apply Z.pow_pos_nonneg; lia).
  nia.
Qed.

(** The value of a product with the constant is the rounded product. *)
Lemma SFmul_ord x mc ec :
  valid64 x = true -> is_fin x = true ->
  bounded prec emax mc ec = true -> Zpos (digits2_pos mc) = 53 -> ec <= 0 ->
  SFmul prec emax x (S754_finite false mc ec) <> S754_nan /\
  ord (SFmul prec emax x (S754_finite false mc ec)) = oddext (mul_rnd mc ec) (ord x).
Proof.
  intros Vx Fx Vc Dc Hec.
  destruct x as [sx|sx| |sx mx ex]; try discriminate.
  - split; [discriminate|]. cbn [SFmul ord]. unfold oddext. simpl (0 <=? 0).
    cbv iota. rewrite mul_rnd_0 by lia. reflexivity.
  - cbn [valid_binary] in Vx.
    pose proof (bounded_inv _ _ Vx) as (Hex & Hdx & _).
    pose proof (finite_ord_bounds _ _ Vx) as (Bx & _).
    cbn [SFmul]. rewrite xorb_false_r.
    rewrite binary_round_aux_exact by lia.
    rewrite Pos2Z.inj_mul.
    assert (Hsh : forall s, bra s (2 * (Zpos mx * Zpos mc)) false (ex + ec) =
                  bra s (2 * (Zpos mx * 2 ^ (ex + 1074) * Zpos mc)) false (-1074 + ec)).
    { intros s.
      rewrite <- (bra_exact_shift s (Zpos mx * Zpos mc) (ex + ec) (ex + 1074)); try lia.
      - f_equal; [ring|lia].
      - pose proof (Zdigits2_mul_ge (Zpos mx) (Zpos mc) ltac:(lia) ltac:(lia)) as D.
        change (Zdigits2 (Zpos mc)) with (Zpos (digits2_pos mc)) in D.
        assert (0 < Zdigits2 (Zpos mx)) by (simpl; lia).
        rewrite fexp64_eq. lia. }
    assert (Hpos : 0 <= 2 * (Zpos mx * 2 ^ (ex + 1074) * Zpos mc)) by nia.
    split.
    + rewrite Hsh. apply bra_not_nan. exact Hpos.
    + rewrite Hsh. destruct sx.
      * rewrite bra_opp, ord_opp, ord_bra by (rewrite ?fexp64_eq; lia).
        cbv beta iota delta [ord cond_Zopp]. unfold oddext, mul_rnd.
        destruct (Z.leb_spec 0 (- (Zpos mx * 2 ^ (ex + 1074)))); [lia|].
        rewrite Z.opp_involutive. reflexivity.
      * rewrite ord_bra by (rewrite ?fexp64_eq; lia).
        cbv beta iota delta [ord cond_Zopp]. unfold oddext, mul_rnd.
        destruct (Z.leb_spec 0 (Zpos mx * 2 ^ (ex + 1074))); [|lia].
        reflexivity.
Qed.

(** *** Division by a positive constant *)

(** The location of the remainder [r] of a division by [d]. *)
Lemma new_location_bits d r :
  0 < d -> 0 <= r < d ->
  new_location d r = loc_of_bits (Z.odd (2 * r / d)) (negb ((2 * r) mod d =? 0)).
Proof.
  intros Hd [Hr0 Hr].
  assert (Hq : 2 * r / d = if d <=? 2 * r then 1 else 0).
  { destruct (Z.leb_spec d (2 * r)).
    - symmetry. apply Z.div_unique with (2 * r - d); lia.
    - apply Z.div_small. lia. }
  assert (Hm : (2 * r) mod d = if d <=? 2 * r then 2 * r - d else 2 * r).
  { destruct (Z.leb_spec d (2 * r)).
    - symmetry. apply Z.mod_unique with 1; lia.
    - apply Z.mod_small. lia. }
  rewrite Hq, Hm.
  unfold new_location, new_location_even, new_location_odd.
  destruct (Z.eqb_spec r 0) as [->|Nr].
  { simpl (2 * 0). destruct (Z.leb_spec d 0); [lia|]. destruct (Z.even d); reflexivity. }
  assert (Nr' : (r =? 0) = false) by (apply Z.eqb_neq; exact Nr).
  destruct (Z.even d) eqn:Ev; rewrite Nr'.
  - destruct (Z.compare_spec (2 * r) d) as [E|L|L].
    + destruct (Z.leb_spec d (2 * r)); [|lia].
      replace (2 * r - d) with 0 by lia. reflexivity.
    + destruct (Z.leb_spec d (2 * r)); [lia|].
      destruct (Z.eqb_spec (2 * r) 0); [lia|]. reflexivity.
    + destruct (Z.leb_spec d (2 * r)); [|lia].
      destruct (Z.eqb_spec (2 * r - d) 0); [lia|]. reflexivity.
  - assert (d <> 2 * r).
    { intros ->. rewrite Z.even_mul in Ev. discriminate. }
    destruct (Z.compare_spec (2 * r + 1) d) as [E|L|L].
    + destruct (Z.leb_spec d (2 * r)); [lia|].
      destruct (Z.eqb_spec (2 * r) 0); [lia|]. reflexivity.
    + destruct (Z.leb_spec d (2 * r)); [lia|].
      destruct (Z.eqb_spec (2 * r) 0); [lia|]. reflexivity.
    + destruct (Z.leb_spec d (2 * r)); [|lia].
      destruct (Z.eqb_spec (2 * r - d) 0); [lia|]. reflexivity.
Qed.

(** Quotient with two extra bits of a division, from quotient and remainder. *)
Lemma div_double A d :
  0 <= A -> 0 < d ->
  2 * A / d = 2 * (A / d) + 2 * (A mod d) / d /\
  (2 * A) mod d = (2 * (A mod d)) mod d.
Proof.
  intros HA Hd.
  pose proof (Z.div_mod A d ltac:(lia)) as E.
  pose proof (Z.mod_pos_bound A d Hd) as B.
  replace (2 * A) with (2 * (A mod d) + (2 * (A / d)) * d) by lia.
  rewrite Z.div_add, Z.mod_add by lia. split; lia.
Qed.

(** The quotient that [SFdiv_core_binary] hands to the rounding. *)
Lemma SFdiv_core_bra s mx ex mc ec :
  let '(q, e', l) := SFdiv_core_binary prec emax (Zpos mx) ex (Zpos mc) ec in
  let e1 := Z.min (fexp64 (Zdigits2 (Zpos mx) + ex - (Zdigits2 (Zpos mc) + ec))) (ex - ec) in
  let A := Zpos mx * 2 ^ (ex - ec - e1) in
  e' = e1 /\
  binary_round_aux prec emax s q e' l =
  bra s (2 * A / Zpos mc) (negb ((2 * A) mod Zpos mc =? 0)) e1.
Proof.
  unfold SFdiv_core_binary.
  set (e1 := Z.min _ _).
  set (A := Zpos mx * 2 ^ (ex - ec - e1)).
  assert (Hs : 0 <= ex - ec - e1) by (unfold e1; lia).
  assert (Hp : 0 < 2 ^ (ex - ec - e1)) by (apply Z.pow_pos_nonneg; lia).
  replace (match ex - ec - e1 with
           | 0 => Zpos mx
           | Zpos _ => Z.shiftl (Zpos mx) (ex - ec - e1)
           | Zneg _ => 0
           end) with A.
  2:{ unfold A. generalize Hs. generalize (ex - ec - e1). intros z Hz.
      destruct z; try lia.
      rewrite Z.shiftl_mul_pow2 by lia. reflexivity. }
  assert (HA : 0 < A) by (unfold A; nia).
  pose proof (Z.div_mod A (Zpos mc) ltac:(lia)) as Edm.
  pose proof (Z.mod_pos_bound A (Zpos mc) ltac:(lia)) as Bm.
  unfold Z.div, Z.modulo in Edm, Bm.
  destruct (Z.div_eucl A (Zpos mc)) as [q r] eqn:Eqr.
  cbv zeta. split; [reflexivity|].
  assert (Eq : q = A / Zpos mc) by (unfold Z.div; rewrite Eqr; reflexivity).
  assert (Er : r = A mod Zpos mc) by (unfold Z.modulo; rewrite Eqr; reflexivity).
  pose proof (div_double A (Zpos mc) ltac:(lia) ltac:(lia)) as [D1 D2].
  rewrite <- Er in D1, D2. rewrite <- Eq in D1.
  rewrite new_location_bits by lia.
  assert (Hq0 : 0 <= q) by (rewrite Eq; apply Z.div_pos; lia).
  assert (Hr2 : 0 <= 2 * r / Zpos mc < 2).
  { split; [apply Z.div_pos; lia|]. apply Z.div_lt_upper_bound; lia. }
  rewrite <- binary_round_aux_bra by (rewrite D1; lia).
  rewrite D1, D2.
  replace ((2 * q + 2 * r / Zpos mc) / 2) with q.
  2:{ apply Z.div_unique with (2 * r / Zpos mc); lia. }
  replace (Z.odd (2 * q + 2 * r / Zpos mc)) with (Z.odd (2 * r / Zpos mc)).
  2:{ rewrite Z.add_comm, Z.odd_add_mul_2. reflexivity. }
  reflexivity.
Qed.

(** A quotient computed with [k] more bits and shifted back is the quotient. *)
Lemma div_shift A d k :
  0 <= A -> 0 < d -> 0 <= k ->
  (A * 2 ^ k / d) / 2 ^ k = A / d /\
  negb ((A * 2 ^ k / d) mod 2 ^ k =? 0) || negb ((A * 2 ^ k) mod d =? 0)
  = negb (A mod d =? 0).
Proof.
  intros HA Hd Hk.
  assert (Hp : 0 < 2 ^ k) by (apply Z.pow_pos_nonneg; lia).
  pose proof (Z.div_mod A d ltac:(lia)) as E.
  pose proof (Z.mod_pos_bound A d Hd) as B.
  set (a := A / d) in *. set (b := A mod d) in *.
  assert (E1 : A * 2 ^ k = b * 2 ^ k + (a * 2 ^ k) * d) by (rewrite E; ring).
  rewrite E1, Z.div_add, Z.mod_add by lia.
  pose proof (Z.div_mod (b * 2 ^ k) d ltac:(lia)) as E2.
  pose proof (Z.mod_pos_bound (b * 2 ^ k) d Hd) as B2.
  set (c := b * 2 ^ k / d) in *. set (f := (b * 2 ^ k) mod d) in *.
  assert (Hc : 0 <= c < 2 ^ k).
  { split; [apply Z.div_pos; nia|]. apply Z.div_lt_upper_bound; nia. }
  rewrite Z.div_add, Z.mod_add by lia.
  rewrite Z.div_small, Z.mod_small by lia.
  split; [lia|].
  destruct (Z.eqb_spec c 0), (Z.eqb_spec f 0), (Z.eqb_spec b 0); simpl; try reflexivity; nia.
Qed.

Lemma half_div A d : 0 <= A -> 0 < d -> 2 * A / d / 2 = A / d.
Proof.
  intros. rewrite Z.div_div by lia. rewrite (Z.mul_comm d 2).
  rewrite Z.div_mul_cancel_l by lia. reflexivity.
Qed.

Lemma Zdigits2_div_ge N d :
  0 < d -> 1 <= N / d -> Zdigits2 N - Zdigits2 d <= Zdigits2 (N / d).
Proof.
  intros Hd Hq.
  assert (HN : 0 < N).
  { destruct (Z_lt_le_dec 0 N); [assumption|].
    assert (N / d <= 0) by (apply Z.div_le_upper_bound; nia). lia. }
  pose proof (Zdigits2_bounds N HN) as [N1 N2].
  pose proof (Zdigits2_bounds d Hd) as [D1 D2].
  pose proof (Zdigits2_bounds (N / d) ltac:(lia)) as [Q1 Q2].
  pose proof (Z.div_mod N d ltac:(lia)) as E.
  pose proof (Z.mod_pos_bound N d Hd) as B.
  assert (0 < Zdigits2 N) by (destruct N; simpl; lia).
  assert (0 < Zdigits2 d) by (destruct d; simpl; lia).
  pose proof (Zdigits2_nonneg (N / d)).
  destruct (Z_lt_le_dec (Zdigits2 (N / d)) (Zdigits2 N - Zdigits2 d)) as [L|L]; [|lia].
  exfalso.
  assert (2 ^ (Zdigits2 (N / d) + Zdigits2 d) <= 2 ^ (Zdigits2 N - 1)).
  { apply Z.pow_le_mono_r; lia. }
  rewrite Z.pow_add_r in H2 by lia.
  assert (0 < 2 ^ Zdigits2 (N / d)) by (apply Z.pow_pos_nonneg; lia).
  assert (0 < 2 ^ Zdigits2 d) by (apply Z.pow_pos_nonneg; lia).
  nia.
Qed.

Lemma div_rnd_0 mc ec : div_rnd mc ec 0 = 0.
Proof. reflexivity. Qed.

Lemma div_rnd_mono mc ec a b :
  ec <= 0 -> 0 <= a <= b -> div_rnd mc ec a <= div_rnd mc ec b.
Proof.
  intros He [Ha Hb]. unfold div_rnd. cbv zeta. apply Z.min_le_compat_r.
  assert (Hp : 0 < 2 ^ (- ec)) by (apply Z.pow_pos_nonneg; lia).
  set (A := 2 * (a * 2 ^ (- ec))). set (B := 2 * (b * 2 ^ (- ec))).
  assert (HA : 0 <= A) by (unfold A; nia).
  assert (HAB : A <= B) by (unfold A, B; nia).
  apply rval_mono; [lia|apply Z.div_pos; lia|].
  pose proof (Z.div_le_mono A B (Zpos mc) ltac:(lia) HAB) as D.
  destruct (Z.eq_dec (A / Zpos mc) (B / Zpos mc)) as [E|E]; [|left; lia].
  right. split; [exact E|].
  pose proof (Z.div_mod A (Zpos mc) ltac:(lia)).
  pose proof (Z.div_mod B (Zpos mc) ltac:(lia)).
  pose proof (Z.mod_pos_bound A (Zpos mc) ltac:(lia)).
  destruct (Z.eqb_spec (A mod Zpos mc) 0) as [E0|E0]; [discriminate|]. intros _.
  destruct (Z.eqb_spec (B mod Zpos mc) 0) as [E1|E1]; [|reflexivity].
  exfalso. rewrite E in H. lia.
Qed.

(** The value of a quotient by the constant is the rounded quotient. *)
Lemma SFdiv_ord x mc ec :
  valid64 x = true -> is_fin x = true ->
  bounded prec emax mc ec = true -> ec <= 0 ->
  SFdiv prec emax x (S754_finite false mc ec) <> S754_nan /\
  ord (SFdiv prec emax x (S754_finite false mc ec)) = oddext (div_rnd mc ec) (ord x).
Proof.
  intros Vx Fx Vc Hec.
  destruct x as [sx|sx| |sx mx ex]; try discriminate.
  - split; [discriminate|]. reflexivity.
  - cbn [valid_binary] in Vx.
    pose proof (bounded_inv _ _ Vx) as (Hex & Hdx & _).
    pose proof (bounded_inv _ _ Vc) as (Hec' & Hdc & _).
    pose proof (finite_ord_bounds _ _ Vx) as (Bx & _).
    cbn [SFdiv]. rewrite xorb_false_r.
    pose proof (SFdiv_core_bra sx mx ex mc ec) as H.
    destruct (SFdiv_core_binary prec emax (Zpos mx) ex (Zpos mc) ec) as [[q e'] l].
    cbv zeta in H. destruct H as [He' H]. rewrite H. clear H q l e' He'.
    set (dx := Zdigits2 (Zpos mx)) in *. set (dc := Zdigits2 (Zpos mc)) in *.
    change (Zpos (digits2_pos mx)) with dx in Hdx.
    change (Zpos (digits2_pos mc)) with dc in Hdc.
    assert (Hdx0 : 0 < dx) by (unfold dx; simpl; lia).
    assert (Hdc0 : 0 < dc) by (unfold dc; simpl; lia).
    set (e1 := Z.min (fexp64 (dx + ex - (dc + ec))) (ex - ec)).
    assert (He1 : -1074 <= e1 <= ex - ec) by (unfold e1; rewrite fexp64_eq; lia).
    set (A := Zpos mx * 2 ^ (ex - ec - e1)).
    set (k := e1 + 1074).
    set (N := Zpos mx * 2 ^ (ex + 1074)) in *.
    assert (Hp1 : 0 < 2 ^ (ex - ec - e1)) by (apply Z.pow_pos_nonneg; lia).
    assert (Hpk : 0 < 2 ^ k) by (apply Z.pow_pos_nonneg; lia).
    assert (Hpe : 0 < 2 ^ (- ec)) by (apply Z.pow_pos_nonneg; lia).
    assert (HN : N * 2 ^ (- ec) = A * 2 ^ k).
    { unfold N, A, k. rewrite <- !Z.mul_assoc, <- !Z.pow_add_r by lia. do 2 f_equal. lia. }
    assert (HA : 0 < A) by (unfold A; nia).
    (* the quotient at the base exponent *)
    set (H0 := 2 * (N * 2 ^ (- ec)) / Zpos mc).
    set (T0 := negb ((2 * (N * 2 ^ (- ec))) mod Zpos mc =? 0)).
    assert (Hsh : forall s, bra s (2 * A / Zpos mc) (negb ((2 * A) mod Zpos mc =? 0)) e1
                  = bra s H0 T0 (-1074)).
    { intros s.
      rewrite (bra_shift s H0 T0 (-1074) k).
      - pose proof (div_shift (2 * A) (Zpos mc) k ltac:(lia) ltac:(lia) ltac:(lia)) as [S1 S2].
        unfold H0, T0. rewrite HN.
        replace (2 * (A * 2 ^ k)) with (2 * A * 2 ^ k) by ring.
        rewrite S1, S2. f_equal. unfold k. lia.
      - unfold H0. apply Z.div_pos; nia.
      - split; [lia|].
        unfold H0. rewrite half_div by nia.
        set (q0 := N * 2 ^ (- ec) / Zpos mc).
        assert (Hq0 : 0 <= q0) by (apply Z.div_pos; nia).
        assert (HdN : Zdigits2 (N * 2 ^ (- ec)) = dx + (ex + 1074 - ec)).
        { unfold N. rewrite <- Z.mul_assoc, <- Z.pow_add_r by lia.
          rewrite Zdigits2_mul_pow2 by lia. fold dx. lia. }
        destruct (Z.eq_dec q0 0) as [Eq0|Nq0].
        + rewrite Eq0. simpl Zdigits2. rewrite fexp64_eq.
          assert (N * 2 ^ (- ec) < Zpos mc).
          { destruct (Z_lt_le_dec (N * 2 ^ (- ec)) (Zpos mc)); [assumption|].
            assert (1 <= q0) by (apply Z.div_le_lower_bound; lia). lia. }
          pose proof (Zdigits2_mono (N * 2 ^ (- ec)) (Zpos mc) ltac:(nia)) as Dm.
          fold dc in Dm. rewrite HdN in Dm.
          unfold k, e1. rewrite fexp64_eq. lia.
        + pose proof (Zdigits2_div_ge (N * 2 ^ (- ec)) (Zpos mc) ltac:(lia) ltac:(fold q0; lia)) as Dq.
          fold q0 in Dq. fold dc in Dq. rewrite HdN in Dq.
          unfold k, e1. rewrite !fexp64_eq. lia. }
    assert (HH0 : 0 <= H0) by (unfold H0; apply Z.div_pos; nia).
    split.
    + rewrite Hsh. apply bra_not_nan. exact HH0.
    + rewrite Hsh. destruct sx.
      * rewrite bra_opp, ord_opp, ord_bra by (rewrite ?fexp64_eq; lia).
        cbv beta iota delta [ord cond_Zopp]. fold N. unfold oddext, div_rnd.
        destruct (Z.leb_spec 0 (- N)); [lia|].
        rewrite Z.opp_involutive. reflexivity.
      * rewrite ord_bra by (rewrite ?fexp64_eq; lia).
        cbv beta iota delta [ord cond_Zopp]. fold N. unfold oddext, div_rnd.
        destruct (Z.leb_spec 0 N); [|lia].
        reflexivity.
Qed.

(** *** Primitive floats: order and monotone operations *)

Lemma BIG_pos : 0 < BIG.
Proof. reflexivity. Qed.

(** The three kinds of valid floats other than NaN. *)
Lemma ord_class x :
  valid64 x = true -> x <> S754_nan ->
  (x = S754_infinity true /\ ord x = - BIG)
  \/ (is_fin x = true /\ - BIG < ord x < BIG)
  \/ (x = S754_infinity false /\ ord x = BIG).
Proof.
  intros V N. pose proof BIG_pos.
  destruct x as [s|s| |s m e]; try congruence.
  - right; left. split; [reflexivity|]. simpl. lia.
  - destruct s; [left|right; right]; split; reflexivity.
  - right; left. split; [reflexivity|].
    cbn [valid_binary] in V. pose proof (finite_ord_bounds _ _ V) as (B & _).
    cbv beta iota delta [ord cond_Zopp]. destruct s; lia.
Qed.

Local Open Scope float_scope.

Lemma fle_B2Z x y :
  fle x y <-> is_nan x = false /\ is_nan y = false /\ (B2Z x <= B2Z y)%Z.
Proof.
  unfold fle. split.
  - intros H. pose proof (leb_nan _ _ H) as [Hx Hy].
    rewrite leb_B2Z in H by assumption. apply Z.leb_le in H. auto.
  - intros (Hx & Hy & H). rewrite leb_B2Z by assumption. apply Z.leb_le. exact H.
Qed.

Lemma flt_B2Z x y :
  flt x y <-> is_nan x = false /\ is_nan y = false /\ (B2Z x < B2Z y)%Z.
Proof.
  unfold flt. split.
  - intros H. pose proof (ltb_nan _ _ H) as [Hx Hy].
    rewrite ltb_B2Z in H by assumption. apply Z.ltb_lt in H. auto.
  - intros (Hx & Hy & H). rewrite ltb_B2Z by assumption. apply Z.ltb_lt. exact H.
Qed.

Lemma B2Z_infinity : B2Z infinity = BIG.
Proof. unfold B2Z. replace (Prim2SF infinity) with (S754_infinity false) by (vm_compute; reflexivity). reflexivity. Qed.

Lemma B2Z_class x :
  is_nan x = false ->
  (Prim2SF x = S754_infinity true /\ B2Z x = (- BIG)%Z)
  \/ (is_fin (Prim2SF x) = true /\ (- BIG < B2Z x < BIG)%Z)
  \/ (Prim2SF x = S754_infinity false /\ B2Z x = BIG).
Proof.
  intros H. apply is_nan_false in H.
  apply ord_class; [apply Prim2SF_valid|exact H].
Qed.

Lemma B2Z_range x : (- BIG <= B2Z x <= BIG)%Z.
Proof.
  pose proof BIG_pos.
  destruct (is_nan x) eqn:E.
  - apply is_nan_spec in E. unfold B2Z. rewrite E. simpl. lia.
  - destruct (B2Z_class x E) as [[_ H1]|[[_ H1]|[_ H1]]]; lia.
Qed.

Lemma add_fin x y :
  is_fin (Prim2SF x) = true -> is_fin (Prim2SF y) = true ->
  is_nan (x + y) = false /\ B2Z (x + y) = RN (B2Z x + B2Z y).
Proof.
  intros Fx Fy.
  pose proof (SFadd_ord (Prim2SF x) (Prim2SF y) (Prim2SF_valid x) (Prim2SF_valid y) Fx Fy) as [N E].
  split.
  - apply is_nan_false. rewrite add_spec. exact N.
  - unfold B2Z. rewrite add_spec. exact E.
Qed.

Lemma add_neg_inf_l x y :
  Prim2SF x = S754_infinity true -> is_nan y = false -> (B2Z y < BIG)%Z ->
  Prim2SF (x + y) = S754_infinity true.
Proof.
  intros Hx Hy By. rewrite add_spec, Hx.
  destruct (B2Z_class y Hy) as [[E _]|[[F _]|[_ E]]]; [rewrite E; reflexivity| |lia].
  destruct (Prim2SF y); try discriminate; reflexivity.
Qed.

Lemma add_neg_inf_r x y :
  is_nan x = false -> (B2Z x < BIG)%Z -> Prim2SF y = S754_infinity true ->
  Prim2SF (x + y) = S754_infinity true.
Proof.
  intros Hx Bx Hy. rewrite add_spec, Hy.
  destruct (B2Z_class x Hx) as [[E _]|[[F _]|[_ E]]]; [rewrite E; reflexivity| |lia].
  destruct (Prim2SF x); try discriminate; reflexivity.
Qed.

Lemma neg_inf_B2Z x :
  Prim2SF x = S754_infinity true -> is_nan x = false /\ B2Z x = (- BIG)%Z.
Proof.
  intros H. split.
  - apply is_nan_false. rewrite H. discriminate.
  - unfold B2Z. rewrite H. reflexivity.
Qed.

(** Addition is monotone in both arguments, short of [+infinity]. *)
Lemma add_mono u v z z' :
  fle u v -> fle z z' -> flt v infinity -> flt z' infinity ->
  fle (u + z) (v + z').
Proof.
  intros Huv Hzz Hv Hz.
  apply fle_B2Z in Huv, Hzz. destruct Huv as (Nu & Nv & Luv). destruct Hzz as (Nz & Nz' & Lzz).
  apply flt_B2Z in Hv, Hz. rewrite B2Z_infinity in Hv, Hz.
  destruct Hv as (_ & _ & Bv). destruct Hz as (_ & _ & Bz').
  pose proof BIG_pos.
  assert (R : is_nan (v + z') = false).
  { destruct (B2Z_class v Nv) as [[E _]|[[Fv _]|[_ E]]]; [| |lia].
    - apply (neg_inf_B2Z _ (add_neg_inf_l v z' E Nz' Bz')).
    - destruct (B2Z_class z' Nz') as [[E _]|[[Fz' _]|[_ E]]]; [| |lia].
      + apply (neg_inf_B2Z _ (add_neg_inf_r v z' Nv Bv E)).
      + apply (add_fin v z' Fv Fz'). }
  apply fle_B2Z.
  destruct (B2Z_class u Nu) as [[Eu _]|[[Fu Bu]|[_ Eu]]]; [| |lia].
  { pose proof (neg_inf_B2Z _ (add_neg_inf_l u z Eu Nz ltac:(lia))) as [A B].
    pose proof (B2Z_range (v + z')). repeat split; auto; lia. }
  destruct (B2Z_class z Nz) as [[Ez _]|[[Fz Bz]|[_ Ez]]]; [| |lia].
  { pose proof (neg_inf_B2Z _ (add_neg_inf_r u z Nu ltac:(lia) Ez)) as [A B].
    pose proof (B2Z_range (v + z')). repeat split; auto; lia. }
  destruct (B2Z_class v Nv) as [[_ Ev]|[[Fv _]|[_ Ev]]]; [lia| |lia].
  destruct (B2Z_class z' Nz') as [[_ Ez']|[[Fz' _]|[_ Ez']]]; [lia| |lia].
  pose proof (add_fin u z Fu Fz) as [A1 A2].
  pose proof (add_fin v z' Fv Fz') as [B1 B2].
  repeat split; auto. rewrite A2, B2. apply RN_mono. lia.
Qed.

(** *** Multiplication and division by a positive constant *)

Section Constant.
Variable c : float.
Variable mc : positive.
Variable ec : Z.
Hypothesis c_spec : Prim2SF c = S754_finite false mc ec.
Hypothesis ec_le : (ec <= 0)%Z.

Lemma c_bounded : bounded prec emax mc ec = true.
Proof. pose proof (Prim2SF_valid c) as V. rewrite c_spec in V. exact V. Qed.

Lemma div_fin x :
  is_fin (Prim2SF x) = true ->
  is_nan (x / c) = false /\ B2Z (x / c) = oddext (div_rnd mc ec) (B2Z x).
Proof.
  intros Fx.
  pose proof (SFdiv_ord (Prim2SF x) mc ec (Prim2SF_valid x) Fx c_bounded ec_le) as [N E].
  split.
  - apply is_nan_false. rewrite div_spec, c_spec. exact N.
  - unfold B2Z. rewrite div_spec, c_spec. exact E.
Qed.

Lemma div_inf x s :
  Prim2SF x = S754_infinity s -> Prim2SF (x / c) = S754_infinity s.
Proof.
  intros E. rewrite div_spec, c_spec, E. simpl. rewrite xorb_false_r. reflexivity.
Qed.

Lemma pos_inf_B2Z x :
  Prim2SF x = S754_infinity false -> is_nan x = false /\ B2Z x = BIG.
Proof.
  intros H. split.
  - apply is_nan_false. rewrite H. discriminate.
  - unfold B2Z. rewrite H. reflexivity.
Qed.

(** Division by the constant is monotone. *)
Lemma div_mono x y : fle x y -> fle (x / c) (y / c).
Proof.
  intros H. apply fle_B2Z in H. destruct H as (Nx & Ny & L).
  pose proof BIG_pos. apply fle_B2Z.
  destruct (B2Z_class x Nx) as [[Ex _]|[[Fx Bx]|[Ex Bx]]].
  - pose proof (neg_inf_B2Z _ (div_inf x _ Ex)) as [A B].
    pose proof (B2Z_range (y / c)).
    assert (is_nan (y / c) = false).
    { destruct (B2Z_class y Ny) as [[Ey _]|[[Fy _]|[Ey _]]].
      - apply (neg_inf_B2Z _ (div_inf y _ Ey)).
      - apply (div_fin y Fy).
      - apply (pos_inf_B2Z _ (div_inf y _ Ey)). }
    repeat split; auto; lia.
  - destruct (B2Z_class y Ny) as [[_ Ey]|[[Fy _]|[Ey _]]]; [lia| |].
    + pose proof (div_fin x Fx) as [A1 A2]. pose proof (div_fin y Fy) as [B1 B2].
      repeat split; auto. rewrite A2, B2.
      apply oddext_mono; [apply div_rnd_0| |exact L].
      intros a b Hab. apply div_rnd_mono; [exact ec_le|exact Hab].
    + pose proof (div_fin x Fx) as [A1 A2].
      pose proof (pos_inf_B2Z _ (div_inf y _ Ey)) as [B1 B2].
      pose proof (B2Z_range (x / c)). repeat split; auto; lia.
  - destruct (B2Z_class y Ny) as [[_ Ey]|[[_ By]|[Ey _]]]; [lia|lia|].
    pose proof (pos_inf_B2Z _ (div_inf x _ Ex)) as [A1 A2].
    pose proof (pos_inf_B2Z _ (div_inf y _ Ey)) as [B1 B2].
    repeat split; auto; lia.
Qed.

Hypothesis mc_normal : Zpos (digits2_pos mc) = 53%Z.

Lemma mul_fin x :
  is_fin (Prim2SF x) = true ->
  is_nan (x * c) = false /\ B2Z (x * c) = oddext (mul_rnd mc ec) (B2Z x).
Proof.
  intros Fx.
  pose proof (SFmul_ord (Prim2SF x) mc ec (Prim2SF_valid x) Fx c_bounded mc_normal ec_le) as [N E].
  split.
  - apply is_nan_false. rewrite mul_spec, c_spec. exact N.
  - unfold B2Z. rewrite mul_spec, c_spec. exact E.
Qed.

Lemma mul_inf x s :
  Prim2SF x = S754_infinity s -> Prim2SF (x * c) = S754_infinity s.
Proof.
  intros E. rewrite mul_spec, c_spec, E. simpl. rewrite xorb_false_r. reflexivity.
Qed.

(** Multiplication by the constant is monotone. *)
Lemma mul_mono x y : fle x y -> fle (x * c) (y * c).
Proof.
  intros H. apply fle_B2Z in H. destruct H as (Nx & Ny & L).
  pose proof BIG_pos. apply fle_B2Z.
  destruct (B2Z_class x Nx) as [[Ex _]|[[Fx Bx]|[Ex Bx]]].
  - pose proof (neg_inf_B2Z _ (mul_inf x _ Ex)) as [A B].
    pose proof (B2Z_range (y * c)).
    assert (is_nan (y * c) = false).
    { destruct (B2Z_class y Ny) as [[Ey _]|[[Fy _]|[Ey _]]].
      - apply (neg_inf_B2Z _ (mul_inf y _ Ey)).
      - apply (mul_fin y Fy).
      - apply (pos_inf_B2Z _ (mul_inf y _ Ey)). }
    repeat split; auto; lia.
  - destruct (B2Z_class y Ny) as [[_ Ey]|[[Fy _]|[Ey _]]]; [lia| |].
    + pose proof (mul_fin x Fx) as [A1 A2]. pose proof (mul_fin y Fy) as [B1 B2].
      repeat split; auto. rewrite A2, B2.
      apply oddext_mono; [apply mul_rnd_0; exact ec_le| |exact L].
      intros a b Hab. apply mul_rnd_mono; [exact ec_le|exact Hab].
    + pose proof (mul_fin x Fx) as [A1 A2].
      pose proof (pos_inf_B2Z _ (mul_inf y _ Ey)) as [B1 B2].
      pose proof (B2Z_range (x * c)). repeat split; auto; lia.
  - destruct (B2Z_class y Ny) as [[_ Ey]|[[_ By]|[Ey _]]]; [lia|lia|].
    pose proof (pos_inf_B2Z _ (mul_inf x _ Ex)) as [A1 A2].
    pose proof (pos_inf_B2Z _ (mul_inf y _ Ey)) as [B1 B2].
    repeat split; auto; lia.
Qed.
End Constant.

(** *** Signed zeros, and [Math.min] *)

Local Open Scope Z_scope.

(** Zero results of an addition *)
Lemma rval_pos N : 1 <= N -> 1 <= rval (2 * N) false (-1074).
Proof.
  intros H. change 1 with (rval (2 * 1) false (-1074)) at 1.
  apply rval_mono; [lia|lia|].
  destruct (Z.eq_dec N 1) as [->|]; [right; auto|left; lia].
Qed.

(** An addition of finite floats never gives [-0]. *)
Lemma binary_normalize_neg_zero M e :
  -1074 <= e -> binary_normalize prec emax M e false <> S754_zero true.
Proof.
  intros He.
  assert (Hp : 0 < 2 ^ (e + 1074)) by (apply Z.pow_pos_nonneg; lia).
  destruct M as [|m|m]; unfold binary_normalize.
  - discriminate.
  - rewrite binary_round_bra by assumption. unfold bra.
    destruct (_ / _); try discriminate. destruct (_ <=? _); discriminate.
  - rewrite binary_round_bra by assumption. rewrite bra_opp.
    intros E.
    assert (E' : ord (bra false (2 * (Zpos m * 2 ^ (e + 1074))) false (-1074)) = 0).
    { destruct (bra false _ false _) as [s|s| |s m' e']; try discriminate; reflexivity. }
    rewrite ord_bra in E' by (rewrite ?fexp64_eq; nia).
    pose proof (rval_pos (Zpos m * 2 ^ (e + 1074)) ltac:(nia)).
    pose proof BIG_pos. lia.
Qed.

(** Only [-0 + -0] is [-0]. *)
Lemma SFadd_neg_zero x y :
  valid64 x = true -> valid64 y = true ->
  SFadd prec emax x y = S754_zero true ->
  x = S754_zero true /\ y = S754_zero true.
Proof.
  intros Vx Vy.
  destruct x as [sx|sx| |sx mx ex], y as [sy|sy| |sy my ey]; cbn [SFadd]; try discriminate.
  - destruct sx, sy; try discriminate. auto.
  - destruct sx, sy; discriminate.
  - cbn [valid_binary] in Vx, Vy.
    pose proof (bounded_inv _ _ Vx) as (Hex & _).
    pose proof (bounded_inv _ _ Vy) as (Hey & _).
    intros E. exfalso. revert E. apply binary_normalize_neg_zero. lia.
Qed.

Local Open Scope float_scope.

(** [x + 0] is [x], unless [x] is [-0]. *)
Lemma add_zero_r x :
  Prim2SF x <> S754_zero true -> x + 0 = x.
Proof.
  intros H. apply Prim2SF_inj. rewrite add_spec.
  replace (Prim2SF 0) with (S754_zero false) by (vm_compute; reflexivity).
  destruct (Prim2SF x) as [s|s| |s m e]; try reflexivity.
  destruct s; [congruence|reflexivity].
Qed.

(** The [0] that [score] starts from leaves no trace once a non-zero
    weight is added. *)
Lemma add_zero_l_absorbed a w :
  is_fin (Prim2SF w) = true -> Prim2SF w <> S754_zero true ->
  (0 + a) + w = a + w.
Proof.
  intros Fw Nw. apply Prim2SF_inj. rewrite !add_spec.
  replace (Prim2SF 0) with (S754_zero false) by (vm_compute; reflexivity).
  destruct (Prim2SF a) as [s|s| |s m e]; try reflexivity.
  destruct (Prim2SF w) as [sw|sw| |sw mw ew]; try discriminate.
  - destruct s, sw; try reflexivity; congruence.
  - destruct s; reflexivity.
Qed.

Lemma add_not_neg_zero x y :
  Prim2SF y <> S754_zero true -> Prim2SF (x + y) <> S754_zero true.
Proof.
  intros H E. rewrite add_spec in E.
  apply SFadd_neg_zero in E; try apply Prim2SF_valid. tauto.
Qed.

Lemma add_not_neg_zero_l x y :
  Prim2SF x <> S754_zero true -> Prim2SF (x + y) <> S754_zero true.
Proof.
  intros H E. rewrite add_spec in E.
  apply SFadd_neg_zero in E; try apply Prim2SF_valid. tauto.
Qed.

(** Order facts *)
Lemma fle_refl x : is_nan x = false -> fle x x.
Proof. intros. apply fle_B2Z. repeat split; auto; lia. Qed.

Lemma fle_trans x y z : fle x y -> fle y z -> fle x z.
Proof.
  intros H1 H2. apply fle_B2Z in H1, H2. apply fle_B2Z.
  destruct H1 as (? & ? & ?), H2 as (? & ? & ?). repeat split; auto; lia.
Qed.

Lemma fle_flt_trans x y z : fle x y -> flt y z -> flt x z.
Proof.
  intros H1 H2. apply fle_B2Z in H1. apply flt_B2Z in H2. apply flt_B2Z.
  destruct H1 as (? & ? & ?), H2 as (? & ? & ?). repeat split; auto; lia.
Qed.

Lemma fle_nan_l x y : fle x y -> is_nan x = false.
Proof. intros H. apply fle_B2Z in H. tauto. Qed.

Lemma fle_nan_r x y : fle x y -> is_nan y = false.
Proof. intros H. apply fle_B2Z in H. tauto. Qed.

(** Math.min against 1 *)
Lemma classify_NZero x : classify x = NZero -> B2Z x = 0%Z.
Proof.
  rewrite classify_spec. unfold B2Z, SF64classify, SFclassify.
  destruct (Prim2SF x) as [s|s| |s m e]; try destruct s; try discriminate; try reflexivity.
  all: destruct (_ =? _)%Z; discriminate.
Qed.

(** On numbers [Math.min] is the minimum of the values. *)
Lemma Math_min_B2Z x y :
  is_nan x = false -> is_nan y = false ->
  is_nan (JS.Math_min x y) = false /\ B2Z (JS.Math_min x y) = Z.min (B2Z x) (B2Z y).
Proof.
  intros Nx Ny. unfold JS.Math_min. rewrite Nx, Ny. simpl orb. cbv iota.
  rewrite !ltb_B2Z by assumption.
  destruct (Z.ltb_spec (B2Z x) (B2Z y)); [split; [assumption|lia]|].
  destruct (Z.ltb_spec (B2Z y) (B2Z x)); [split; [assumption|lia]|].
  destruct (classify x); split; try assumption; lia.
Qed.

Lemma Math_min_nan x y : is_nan x = true -> JS.Math_min x y = nan.
Proof. intros H. unfold JS.Math_min. rewrite H. reflexivity. Qed.

Lemma Math_min_mono x y c : fle x y -> is_nan c = false -> fle (JS.Math_min x c) (JS.Math_min y c).
Proof.
  intros H Nc. apply fle_B2Z in H. destruct H as (Nx & Ny & L).
  pose proof (Math_min_B2Z x c Nx Nc) as [A1 A2].
  pose proof (Math_min_B2Z y c Ny Nc) as [B1 B2].
  apply fle_B2Z. repeat split; auto. lia.
Qed.

Lemma Math_min_le_r x c : is_nan x = false -> is_nan c = false -> fle (JS.Math_min x c) c.
Proof.
  intros Nx Nc. pose proof (Math_min_B2Z x c Nx Nc) as [A1 A2].
  apply fle_B2Z. repeat split; auto. lia.
Qed.

Lemma Math_min_ge x c l : fle l x -> fle l c -> fle l (JS.Math_min x c).
Proof.
  intros H1 H2. apply fle_B2Z in H1, H2.
  destruct H1 as (Nl & Nx & L1), H2 as (_ & Nc & L2).
  pose proof (Math_min_B2Z x c Nx Nc) as [A1 A2].
  apply fle_B2Z. repeat split; auto. lia.
Qed.

(** At or above the ceiling the minimum is the ceiling itself. *)
Lemma Math_min_sat x c : fle c x -> B2Z c <> 0%Z -> JS.Math_min x c = c.
Proof.
  intros H Hc. apply fle_B2Z in H. destruct H as (Nc & Nx & L).
  unfold JS.Math_min. rewrite Nx, Nc. simpl orb. cbv iota.
  rewrite !ltb_B2Z by assumption.
  destruct (Z.ltb_spec (B2Z x) (B2Z c)); [lia|].
  destruct (Z.ltb_spec (B2Z c) (B2Z x)); [reflexivity|].
  destruct (classify x) eqn:E; try reflexivity.
  apply classify_NZero in E. lia.
Qed.

End Binary64Facts.

Import Binary64 Binary64Facts.

Local Open Scope string_scope.
Local Open Scope float_scope.

(** ** The scorer on its numeric path *)

(** *** Constants *)

Lemma Prim2SF_600 : Prim2SF 600 = S754_finite false 5277655813324800 (-43).
Proof. vm_compute. reflexivity. Qed.

Lemma Prim2SF_1000 : Prim2SF 1000 = S754_finite false 8796093022208000 (-43).
Proof. vm_compute. reflexivity. Qed.

Lemma Prim2SF_03 : Prim2SF 0.3 = S754_finite false 5404319552844595 (-54).
Proof. vm_compute. reflexivity. Qed.

(** Multiplication by [0.3] and division by a ceiling are monotone. *)
Lemma mul03_mono x y : x <= y -> x * 0.3 <= y * 0.3.
Proof.
  apply (mul_mono 0.3 _ _ Prim2SF_03); [lia|reflexivity].
Qed.

Lemma ceiling_cases ceiling :
  ceiling = 600 \/ ceiling = 1000 ->
  (forall x y, x <= y -> x / ceiling <= y / ceiling)
  /\ 0 / ceiling = 0 /\ ceiling / ceiling = 1.
Proof.
  intros [-> | ->]; (split; [|split; vm_compute; reflexivity]).
  - apply (div_mono 600 _ _ Prim2SF_600). lia.
  - apply (div_mono 1000 _ _ Prim2SF_1000). lia.
Qed.

Ltac float_cmp := vm_compute; reflexivity.

Lemma nan_1 : is_nan 1 = false. Proof. float_cmp. Qed.

Section Component.
Variable ceiling : float.
Hypothesis Hceiling : ceiling = 600 \/ ceiling = 1000.

(** A component is monotone, at most [0.3], non-negative on non-negative
    inputs, and [0.3] from the ceiling on. *)
Lemma component_mono x y : x <= y -> component x ceiling <= component y ceiling.
Proof.
  intros H. destruct (ceiling_cases ceiling Hceiling) as (M & _ & _).
  unfold component. apply mul03_mono. apply Math_min_mono; [|exact nan_1].
  apply M. exact H.
Qed.

Lemma component_le x : is_nan x = false -> component x ceiling <= 0.3.
Proof.
  intros H. destruct (ceiling_cases ceiling Hceiling) as (M & _ & _).
  unfold component. change 0.3 with (1 * 0.3) at 2.
  apply mul03_mono. apply Math_min_le_r; [|exact nan_1].
  apply (fle_nan_l _ _ (M x x (fle_refl x H))).
Qed.

Lemma component_ge x : 0 <= x -> 0 <= component x ceiling.
Proof.
  intros H. destruct (ceiling_cases ceiling Hceiling) as (M & Z & _).
  unfold component. change 0 with (0 * 0.3) at 1.
  apply mul03_mono. apply Math_min_ge; [|float_cmp].
  rewrite <- Z. apply M. exact H.
Qed.

Lemma component_sat x : ceiling <= x -> component x ceiling = 0.3.
Proof.
  intros H. destruct (ceiling_cases ceiling Hceiling) as (M & _ & O).
  unfold component. rewrite Math_min_sat; [float_cmp| |].
  - rewrite <- O. apply M. exact H.
  - vm_compute. discriminate.
Qed.
End Component.

(** Every weight lies between [0.1] and [0.4]. *)
Lemma weight_facts W :
  In W weights ->
  0.1 <= W /\ W <= 0.4 /\ is_fin (Prim2SF W) = true /\ Prim2SF W <> S754_zero true.
Proof.
  unfold weights. simpl In. intros H.
  repeat (destruct H as [<- | H]; [repeat split; try float_cmp; vm_compute; discriminate|]).
  contradiction.
Qed.

Section Sum.
Variables a1 a2 W c1 c2 : float.
Hypothesis Ha : a1 <= a2.
Hypothesis Ha2 : a2 <= 0.3.
Hypothesis HW : In W weights.
Hypothesis Hc : c1 <= c2.
Hypothesis Hc2 : c2 <= 0.3.

(** The sum of the three terms is monotone in the two components, and
    bounded. *)
Lemma sum_mono :
  0 + a1 + W + c1 <= 0 + a2 + W + c2
  /\ 0 + a2 + W + c2 <= 0 + 0.3 + 0.4 + 0.3.
Proof.
  destruct (weight_facts W HW) as (W1 & W2 & _ & _).
  assert (W0 : W <= W) by (apply fle_refl; apply (fle_nan_l _ _ W2)).
  assert (I0 : 0 < infinity) by float_cmp.
  assert (I3 : 0.3 < infinity) by float_cmp.
  assert (I4 : 0.4 < infinity) by float_cmp.
  assert (Z0 : 0 <= 0) by float_cmp.
  pose proof (add_mono _ _ _ _ Z0 Ha I0 (fle_flt_trans _ _ _ Ha2 I3)) as S1.
  pose proof (add_mono _ _ _ _ Z0 Ha2 I0 I3) as U1.
  assert (J1 : 0 + 0.3 < infinity) by float_cmp.
  pose proof (add_mono _ _ _ _ S1 W0 (fle_flt_trans _ _ _ U1 J1)
                (fle_flt_trans _ _ _ W2 I4)) as S2.
  pose proof (add_mono _ _ _ _ U1 W2 J1 I4) as U2.
  assert (J2 : 0 + 0.3 + 0.4 < infinity) by float_cmp.
  split.
  - exact (add_mono _ _ _ _ S2 Hc (fle_flt_trans _ _ _ U2 J2)
             (fle_flt_trans _ _ _ Hc2 I3)).
  - exact (add_mono _ _ _ _ U2 Hc2 J2 I3).
Qed.

(** For C4 and C5, on the numeric path: the score is monotone in both
    components. *)
Lemma numeric_score_mono st :
  numeric_score a1 W c1 st <= numeric_score a2 W c2 st.
Proof.
  destruct sum_mono as [M U].
  assert (J3 : 0 + 0.3 + 0.4 + 0.3 < infinity) by float_cmp.
  pose proof (fle_flt_trans _ _ _ U J3) as B.
  unfold numeric_score. cbv zeta.
  apply Math_min_mono; [|exact nan_1].
  assert (R3 : 0.3 <= 0.3) by float_cmp.
  assert (R1 : 0.1 <= 0.1) by float_cmp.
  assert (I3 : 0.3 < infinity) by float_cmp.
  assert (I1 : 0.1 < infinity) by float_cmp.
  destruct (String.eqb st "Denied"); [|destruct (String.eqb st "Pending")].
  - exact (add_mono _ _ _ _ M R3 B I3).
  - exact (add_mono _ _ _ _ M R1 B I1).
  - exact M.
Qed.
End Sum.

Section Status.
Variables a W c : float.
Hypothesis Ha : a <= 0.3.
Hypothesis HW : In W weights.
Hypothesis Hc : c <= 0.3.

(** The status bonuses in increasing order. *)
Lemma sum_status :
  let t := 0 + a + W + c in
  t <= t + 0.1 /\ t + 0.1 <= t + 0.3 /\ t + 0.3 <= 0 + 0.3 + 0.4 + 0.3 + 0.3.
Proof.
  pose proof (fle_refl a (fle_nan_l _ _ Ha)) as Ra.
  pose proof (fle_refl c (fle_nan_l _ _ Hc)) as Rc.
  destruct (sum_mono a a W c c Ra Ha HW Rc Hc) as [M U].
  destruct (weight_facts W HW) as (_ & _ & _ & NW).
  cbv zeta. set (t := 0 + a + W + c) in *.
  assert (J3 : 0 + 0.3 + 0.4 + 0.3 < infinity) by float_cmp.
  pose proof (fle_flt_trans _ _ _ U J3) as B.
  assert (Nt : Prim2SF t <> S754_zero true).
  { unfold t. apply add_not_neg_zero_l. apply add_not_neg_zero. exact NW. }
  assert (Rt : t <= t) by (apply fle_refl; apply (fle_nan_l _ _ U)).
  assert (Z1 : 0 <= 0.1) by float_cmp.
  assert (Z3 : 0.1 <= 0.3) by float_cmp.
  assert (R3 : 0.3 <= 0.3) by float_cmp.
  assert (I3 : 0.3 < infinity) by float_cmp.
  assert (I1 : 0.1 < infinity) by float_cmp.
  repeat split.
  - rewrite <- (add_zero_r t Nt) at 1. exact (add_mono _ _ _ _ Rt Z1 B I1).
  - exact (add_mono _ _ _ _ Rt Z3 B I3).
  - exact (add_mono _ _ _ _ U R3 J3 I3).
Qed.

(** For C6, on the numeric path. *)
Lemma numeric_score_status st :
  String.eqb st "Denied" = false -> String.eqb st "Pending" = false ->
  numeric_score a W c st <= numeric_score a W c "Pending"
  /\ numeric_score a W c "Pending" <= numeric_score a W c "Denied".
Proof.
  intros E1 E2. destruct sum_status as (S1 & S2 & _).
  unfold numeric_score. cbv zeta. rewrite E1, E2. simpl String.eqb. cbv iota.
  split; (apply Math_min_mono; [assumption|exact nan_1]).
Qed.

(** For C2, the upper bound: the clamp. *)
Lemma numeric_score_le st : numeric_score a W c st <= 1.
Proof.
  destruct sum_status as (S1 & S2 & S3).
  unfold numeric_score. cbv zeta.
  apply Math_min_le_r; [|exact nan_1].
  destruct (String.eqb st "Denied"); [|destruct (String.eqb st "Pending")].
  - apply (fle_nan_r _ _ S2).
  - apply (fle_nan_r _ _ S1).
  - apply (fle_nan_l _ _ S1).
Qed.

(** For C2 and C10, the lower bound: every weight is at least 0.1. *)
Lemma numeric_score_ge st : 0 <= a -> 0 <= c -> 0.1 <= numeric_score a W c st.
Proof.
  intros A0 C0.
  destruct (weight_facts W HW) as (W1 & W2 & _ & _).
  assert (I3 : 0.3 < infinity) by float_cmp.
  assert (I4 : 0.4 < infinity) by float_cmp.
  assert (Z0 : 0 <= 0) by float_cmp.
  assert (I0 : 0 < infinity) by float_cmp.
  assert (L1 : 0 + 0 <= 0 + a).
  { exact (add_mono _ _ _ _ Z0 A0 I0 (fle_flt_trans _ _ _ Ha I3)). }
  pose proof (add_mono _ _ _ _ Z0 Ha I0 I3) as U1.
  assert (J1 : 0 + 0.3 < infinity) by float_cmp.
  assert (L2 : 0 + 0 + 0.1 <= 0 + a + W).
  { exact (add_mono _ _ _ _ L1 W1 (fle_flt_trans _ _ _ U1 J1)
             (fle_flt_trans _ _ _ W2 I4)). }
  pose proof (add_mono _ _ _ _ U1 W2 J1 I4) as U2.
  assert (J2 : 0 + 0.3 + 0.4 < infinity) by float_cmp.
  assert (L3 : 0 + 0 + 0.1 + 0 <= 0 + a + W + c).
  { exact (add_mono _ _ _ _ L2 C0 (fle_flt_trans _ _ _ U2 J2)
             (fle_flt_trans _ _ _ Hc I3)). }
  change (0 + 0 + 0.1 + 0) with 0.1 in L3.
  destruct sum_status as (S1 & S2 & _). cbv zeta in S1, S2.
  unfold numeric_score. cbv zeta.
  apply Math_min_ge; [|float_cmp].
  destruct (String.eqb st "Denied"); [|destruct (String.eqb st "Pending")].
  - apply (fle_trans _ _ _ L3 (fle_trans _ _ _ S1 S2)).
  - apply (fle_trans _ _ _ L3 S1).
  - exact L3.
Qed.
End Status.

(** The lookup on a string that names no inherited member: the weight of
    the table, or the default. *)
Lemma issue_weight k :
  JS.inherited k = false ->
  JS.or_else (JS.get issueTypeWeights k) 0.1 = JS.VNumber (Spec.w k)
  /\ In (Spec.w k) weights.
Proof.
  intros H. unfold JS.get, Spec.w, issueTypeWeights, JS.own_property, weights.
  repeat match goal with
  | |- context [String.eqb k ?s] => destruct (String.eqb k s)
  end; rewrite ?H; (split; [reflexivity|simpl; tauto]).
Qed.

(** None of the ten keys is the name of an inherited member. *)
Lemma own_not_inherited k x :
  JS.own_property issueTypeWeights k = Some x -> JS.inherited k = false.
Proof.
  unfold issueTypeWeights, JS.own_property.
  repeat match goal with
  | |- context [String.eqb k ?s] =>
      destruct (String.eqb_spec k s) as [->|_]; [intros _; reflexivity|]
  end.
  discriminate.
Qed.

(** Away from the inherited keys the scorer is its numeric path. *)
Lemma predictRiskScore_numeric f :
  JS.inherited (issue_type f) = false ->
  predictRiskScore f =
  numeric_score (component (wait_time f) 600) (Spec.w (issue_type f))
                (component (charge f) 1000) (status f).
Proof.
  intros H. destruct (issue_weight _ H) as [E _].
  unfold predictRiskScore, numeric_score, component. rewrite E.
  cbn [JS.add_assign].
  destruct (String.eqb (status f) "Denied"); [reflexivity|].
  destruct (String.eqb (status f) "Pending"); reflexivity.
Qed.

(** On an inherited key [score] becomes a string and the result is NaN. *)
Lemma predictRiskScore_inherited f :
  JS.inherited (issue_type f) = true -> predictRiskScore f = nan.
Proof.
  intros H.
  assert (E : JS.or_else (JS.get issueTypeWeights (issue_type f)) 0.1
              = JS.VObject (issue_type f)).
  { unfold JS.get. destruct (JS.own_property issueTypeWeights (issue_type f)) eqn:O.
    - apply own_not_inherited in O. congruence.
    - rewrite H. reflexivity. }
  unfold predictRiskScore. rewrite E. cbn [JS.add_assign].
  destruct (String.eqb (status f) "Denied"); [reflexivity|].
  destruct (String.eqb (status f) "Pending"); reflexivity.
Qed.

(** For C1, away from the inherited keys: the scorer is the reference
    formula. *)
Lemma predictRiskScore_formula f :
  JS.inherited (issue_type f) = false -> predictRiskScore f = Spec.score f.
Proof.
  intros H. rewrite (predictRiskScore_numeric f H).
  destruct (issue_weight _ H) as [_ HW].
  destruct (weight_facts _ HW) as (_ & _ & FW & NW).
  unfold numeric_score, Spec.score, Spec.s, component. cbv zeta.
  rewrite (add_zero_l_absorbed _ _ FW NW).
  destruct (String.eqb (status f) "Denied"); [reflexivity|].
  destruct (String.eqb (status f) "Pending"); [reflexivity|].
  rewrite add_zero_r; [reflexivity|].
  apply add_not_neg_zero_l, add_not_neg_zero, NW.
Qed.

(** For C2 and C10, away from the inherited keys: a score of non-negative
    inputs lies between [0.1] and [1]. *)
Lemma predictRiskScore_bounds f :
  JS.inherited (issue_type f) = false ->
  0 <= wait_time f -> 0 <= charge f ->
  0.1 <= predictRiskScore f /\ predictRiskScore f <= 1.
Proof.
  intros H Hw Hc. rewrite (predictRiskScore_numeric f H).
  destruct (issue_weight _ H) as [_ HW].
  pose proof (component_le 600 (or_introl eq_refl) _ (fle_nan_r _ _ Hw)) as A1.
  pose proof (component_le 1000 (or_intror eq_refl) _ (fle_nan_r _ _ Hc)) as C1.
  pose proof (component_ge 600 (or_introl eq_refl) _ Hw) as A0.
  pose proof (component_ge 1000 (or_intror eq_refl) _ Hc) as C0.
  split.
  - apply numeric_score_ge; assumption.
  - apply numeric_score_le; assumption.
Qed.

(** The clamp: away from the inherited keys, the score of inputs that are
    numbers is a number, and at most [1]. *)
Lemma predictRiskScore_le_1 f :
  JS.inherited (issue_type f) = false ->
  is_nan (wait_time f) = false -> is_nan (charge f) = false ->
  predictRiskScore f <= 1.
Proof.
  intros H Hw Hc. rewrite (predictRiskScore_numeric f H).
  destruct (issue_weight _ H) as [_ HW].
  apply numeric_score_le; auto; apply component_le; auto.
Qed.



(** For C5, away from the inherited keys: the score is monotone in the
    charge, for every wait time that is a number. *)
Lemma predictRiskScore_charge_mono issue w st c1 c2 :
  JS.inherited issue = false -> is_nan w = false -> c1 <= c2 ->
  predictRiskScore {| wait_time := w; issue_type := issue; charge := c1; status := st |}
  <= predictRiskScore {| wait_time := w; issue_type := issue; charge := c2; status := st |}.
Proof.
  intros H Hw Hc. rewrite !predictRiskScore_numeric by exact H. cbn [wait_time issue_type charge status].
  destruct (issue_weight _ H) as [_ HW].
  pose proof (component_le 600 (or_introl eq_refl) _ Hw) as A1.
  apply numeric_score_mono; auto.
  - apply fle_refl. apply (fle_nan_l _ _ A1).
  - apply component_mono; auto.
  - apply component_le; auto. apply (fle_nan_r _ _ Hc).
Qed.

(** For C5: from a charge of 1000 on the charge does not matter. *)
Lemma predictRiskScore_charge_saturates issue w st c1 c2 :
  1000 <= c1 -> 1000 <= c2 ->
  predictRiskScore {| wait_time := w; issue_type := issue; charge := c1; status := st |}
  = predictRiskScore {| wait_time := w; issue_type := issue; charge := c2; status := st |}.
Proof.
  intros H1 H2. unfold predictRiskScore. cbn [wait_time issue_type charge status].
  fold (component c1 1000). fold (component c2 1000).
  rewrite !component_sat by auto. reflexivity.
Qed.

(** For C6, away from the inherited keys: Denied scores at least as high
    as Pending, and Pending as any other status. *)
Lemma predictRiskScore_status_order issue w ch st :
  JS.inherited issue = false -> is_nan w = false -> is_nan ch = false ->
  String.eqb st "Denied" = false -> String.eqb st "Pending" = false ->
  predictRiskScore {| wait_time := w; issue_type := issue; charge := ch; status := st |}
  <= predictRiskScore {| wait_time := w; issue_type := issue; charge := ch; status := "Pending" |}
  /\ predictRiskScore {| wait_time := w; issue_type := issue; charge := ch; status := "Pending" |}
  <= predictRiskScore {| wait_time := w; issue_type := issue; charge := ch; status := "Denied" |}.
Proof.
  intros H Hw Hc E1 E2. rewrite !predictRiskScore_numeric by exact H. cbn [wait_time issue_type charge status].
  destruct (issue_weight _ H) as [_ HW].
  apply numeric_score_status; auto; apply component_le; auto.
Qed.

(** For C6: two statuses other than Denied and Pending give the same
    score. *)
Lemma predictRiskScore_status_other issue w ch st st' :
  String.eqb st "Denied" = false -> String.eqb st "Pending" = false ->
  String.eqb st' "Denied" = false -> String.eqb st' "Pending" = false ->
  predictRiskScore {| wait_time := w; issue_type := issue; charge := ch; status := st |}
  = predictRiskScore {| wait_time := w; issue_type := issue; charge := ch; status := st' |}.
Proof.
  intros E1 E2 E3 E4. unfold predictRiskScore. cbn [wait_time issue_type charge status].
  rewrite E1, E2, E3, E4. reflexivity.
Qed.

(** For C6, away from the inherited keys: the three scores are the
    clamped sum [t] of the other terms plus [0.3], [0.1] and [0]. *)
Lemma predictRiskScore_status_terms issue w ch st :
  JS.inherited issue = false ->
  String.eqb st "Denied" = false -> String.eqb st "Pending" = false ->
  let score s :=
    predictRiskScore
      {| wait_time := w; issue_type := issue; charge := ch; status := s |} in
  let t := 0 + component w 600 + Spec.w issue + component ch 1000 in
  score "Denied" = JS.Math_min (t + 0.3) 1
  /\ score "Pending" = JS.Math_min (t + 0.1) 1
  /\ score st = JS.Math_min (t + 0) 1.
Proof.
  intros H E1 E2. cbv zeta.
  destruct (issue_weight _ H) as [_ HW].
  destruct (weight_facts _ HW) as (_ & _ & _ & NW).
  split; [|split].
  - rewrite predictRiskScore_numeric by exact H. reflexivity.
  - rewrite predictRiskScore_numeric by exact H. reflexivity.
  - rewrite predictRiskScore_numeric by exact H.
    cbn [wait_time issue_type charge status]. unfold numeric_score. cbv zeta.
    rewrite E1, E2, add_zero_r; [reflexivity|].
    apply add_not_neg_zero_l, add_not_neg_zero, NW.
Qed.

(** For C7: a string that is neither a key nor the name of an inherited
    member gets the weight [0.1]. *)
Lemma predictRiskScore_default_weight f :
  JS.own_property issueTypeWeights (issue_type f) = None ->
  JS.inherited (issue_type f) = false ->
  predictRiskScore f =
  numeric_score (component (wait_time f) 600) 0.1 (component (charge f) 1000) (status f).
Proof.
  intros O H. rewrite (predictRiskScore_numeric f H). unfold Spec.w. rewrite O. reflexivity.
Qed.

(** ** Two runs of the specification *)

Example scenario_bill_payment_query :
  predictRiskScore
    {| wait_time := 0; issue_type := "Bill Payment Query";
       charge := 0; status := "Paid" |} = 0.1.
Proof. reflexivity. Qed.

Example scenario_clamped :
  predictRiskScore
    {| wait_time := 600; issue_type := "Insurance Claim Denial";
       charge := 1000; status := "Denied" |} = 1.
Proof. reflexivity. Qed.

(** ** The claims *)

(** The input on which the lookup of the issue weight goes wrong:
    ["constructor"] is no key of the table, but every object literal
    inherits a member of that name.  The dashboard passes the issue type
    as it was typed into a text field, a wait time of [0] when none was
    given, and the charge [0] and the status ["Submitted"] for a customer
    it does not know. *)

(** C1 (fails on the code): on the issue type ["constructor"], which is not
    one of the ten keys, the reference formula gives [0.1] while the
    scorer returns NaN.  Away from the inherited keys the two agree,
    [predictRiskScore_formula]. *)
Theorem formula_fails_on_constructor :
  let features :=
    {| wait_time := 0; issue_type := "constructor";
       charge := 0; status := "Submitted" |} in
  JS.own_property issueTypeWeights (issue_type features) = None
  /\ Spec.score features = 0.1
  /\ predictRiskScore features = nan
  /\ predictRiskScore features <> Spec.score features.
Proof.
  cbv zeta. repeat split; try (vm_compute; reflexivity).
  intros E. apply (f_equal is_nan) in E. vm_compute in E. discriminate.
Qed.

(** C2 (fails on the code): with wait time and charge both [0], hence
    non-negative, the score on the issue type ["constructor"] is NaN and
    lies neither above [0] nor below [1].  Away from the inherited keys
    the bounds hold, [predictRiskScore_bounds]. *)
Theorem bounds_fail_on_constructor :
  let features :=
    {| wait_time := 0; issue_type := "constructor";
       charge := 0; status := "Submitted" |} in
  0 <= wait_time features /\ 0 <= charge features
  /\ (0 <=? predictRiskScore features) = false
  /\ (predictRiskScore features <=? 1) = false.
Proof. vm_compute. repeat split. Qed.

(** C3: the thresholds are strict, and priority and action go together.
    For every score that is a number: High and Priority Routing exactly
    when the score is above [0.7]; Medium and Offer Callback exactly when
    it is above [0.4] and at most [0.7]; Low and Continue Queue exactly
    when it is at most [0.4].  The scores [0.7] and [0.4] themselves are
    Medium and Low. *)
Theorem classification_thresholds (score : float) :
  is_nan score = false ->
  ((priority score = High /\ predicted_action score = "Priority Routing"%string)
     <-> 0.7 < score)
  /\ ((priority score = Medium /\ predicted_action score = "Offer Callback"%string)
     <-> (0.4 < score /\ score <= 0.7))
  /\ ((priority score = Low /\ predicted_action score = "Continue Queue"%string)
     <-> score <= 0.4)
  /\ (priority score = High <-> predicted_action score = "Priority Routing"%string)
  /\ (priority score = Medium <-> predicted_action score = "Offer Callback"%string)
  /\ (priority score = Low <-> predicted_action score = "Continue Queue"%string)
  /\ priority 0.7 = Medium /\ predicted_action 0.7 = "Offer Callback"%string
  /\ priority 0.4 = Low /\ predicted_action 0.4 = "Continue Queue"%string.
Proof.
  intros N.
  assert (N7 : is_nan 0.7 = false) by reflexivity.
  assert (N4 : is_nan 0.4 = false) by reflexivity.
  assert (L47 : 0.4 < 0.7) by float_cmp.
  apply flt_B2Z in L47. destruct L47 as (_ & _ & L47).
  unfold priority, predicted_action, flt, fle.
  rewrite !ltb_B2Z, !leb_B2Z by assumption.
  destruct (Z.ltb_spec (B2Z 0.7) (B2Z score)), (Z.ltb_spec (B2Z 0.4) (B2Z score)),
           (Z.leb_spec (B2Z score) (B2Z 0.7)), (Z.leb_spec (B2Z score) (B2Z 0.4));
    try lia; vm_compute; intuition congruence.
Qed.

Lemma classification_thresholds_witness :
  is_nan 0.7 = false
  /\ ((priority 0.7 = Medium /\ predicted_action 0.7 = "Offer Callback"%string)
      <-> (0.4 < 0.7 /\ 0.7 <= 0.7)).
Proof.
  split; [reflexivity|].
  exact (proj1 (proj2 (classification_thresholds 0.7 eq_refl))).
Defined.

(** C4 (fails on the code): on the issue type ["constructor"], with the
    charge [0] and the status ["Submitted"], the wait times [0] and [300]
    lie between 0 and 600, in this order, and the score at [0] is not at
    most the score at [300]: both scores are NaN.  Away from the
    inherited keys the score is non-decreasing in the wait time and the
    same from 600 on, [predictRiskScore_wait_mono] and
    [predictRiskScore_wait_saturates]. *)
Theorem wait_monotonicity_fails_on_constructor :
  let score w :=
    predictRiskScore
      {| wait_time := w; issue_type := "constructor";
         charge := 0; status := "Submitted" |} in
  0 <= 0 /\ 0 <= 300 /\ 300 <= 600
  /\ is_nan (score 0) = true /\ is_nan (score 300) = true
  /\ ~ score 0 <= score 300.
Proof.
  cbv zeta.
  refine (conj _ (conj _ (conj _ (conj _ (conj _ _)))));
    try (vm_compute; reflexivity).
  intros H. vm_compute in H. discriminate.
Qed.

(** C5 (fails on the code): on the issue type ["constructor"], with the
    wait time [0] and the status ["Submitted"], the charges [0] and [247]
    lie between 0 and 1000, in this order, and the score at [0] is not at
    most the score at [247]: both scores are NaN.  Away from the
    inherited keys the score is non-decreasing in the charge and the same
    from 1000 on, [predictRiskScore_charge_mono] and
    [predictRiskScore_charge_saturates]. *)
Theorem charge_monotonicity_fails_on_constructor :
  let score c :=
    predictRiskScore
      {| wait_time := 0; issue_type := "constructor";
         charge := c; status := "Submitted" |} in
  0 <= 0 /\ 0 <= 247 /\ 247 <= 1000
  /\ is_nan (score 0) = true /\ is_nan (score 247) = true
  /\ ~ score 0 <= score 247.
Proof.
  cbv zeta.
  refine (conj _ (conj _ (conj _ (conj _ (conj _ _)))));
    try (vm_compute; reflexivity).
  intros H. vm_compute in H. discriminate.
Qed.

(** C6 (fails on the code): on the issue type ["constructor"], with the
    wait time [0] and the charge [0], the score with Denied is not at
    least the score with Pending, and the score with Pending is not at
    least the score with the status ["Submitted"]: the three scores are
    NaN.  Away from the inherited keys the order holds and the status
    adds [0.3], [0.1] or [0], [predictRiskScore_status_order],
    [predictRiskScore_status_terms] and [predictRiskScore_status_other]. *)
Theorem status_order_fails_on_constructor :
  let score st :=
    predictRiskScore
      {| wait_time := 0; issue_type := "constructor";
         charge := 0; status := st |} in
  String.eqb "Submitted" "Denied" = false
  /\ String.eqb "Submitted" "Pending" = false
  /\ is_nan (score "Denied") = true /\ is_nan (score "Pending") = true
  /\ is_nan (score "Submitted") = true
  /\ ~ score "Pending" <= score "Denied"
  /\ ~ score "Submitted" <= score "Pending".
Proof.
  cbv zeta.
  refine (conj _ (conj _ (conj _ (conj _ (conj _ (conj _ _))))));
    try (vm_compute; reflexivity);
    intros H; vm_compute in H; discriminate.
Qed.

(** C7 (fails on the code): ["constructor"] is none of the ten keys, yet
    the score is NaN and not the score with the explicit weight [0.1].
    For the strings that are neither a key nor inherited the default
    applies, [predictRiskScore_default_weight]. *)
Theorem default_weight_fails_on_constructor :
  let features :=
    {| wait_time := 0; issue_type := "constructor";
       charge := 0; status := "Submitted" |} in
  JS.own_property issueTypeWeights (issue_type features) = None
  /\ numeric_score (component (wait_time features) 600) 0.1
       (component (charge features) 1000) (status features) = 0.1
  /\ is_nan (predictRiskScore features) = true.
Proof. vm_compute. repeat split. Qed.

(** C8: on the wait time [300], the issue type ["Unknown Category"], the
    charge [500] and the status ["Pending"] the scorer returns exactly
    [0.5], which is [0.5 * 0.3 + 0.1 + 0.5 * 0.3 + 0.1] in binary64, and
    [0.5] is classified Medium, ["Offer Callback"]. *)
Theorem scenario_unknown_category :
  let features :=
    {| wait_time := 300; issue_type := "Unknown Category";
       charge := 500; status := "Pending" |} in
  predictRiskScore features = 0.5
  /\ 0.5 = 0.5 * 0.3 + 0.1 + 0.5 * 0.3 + 0.1
  /\ priority (predictRiskScore features) = Medium
  /\ predicted_action (predictRiskScore features) = "Offer Callback"%string.
Proof. vm_compute. repeat split. Qed.

(** C9: there is no lower clamp; a negative wait time gives a negative
    score, and so does a negative charge. *)
Theorem negative_input_negative_score :
  (exists features,
      wait_time features < 0 /\ predictRiskScore features < 0)
  /\ (exists features,
      charge features < 0 /\ predictRiskScore features < 0).
Proof.
  split.
  - exists {| wait_time := -6000; issue_type := "Copay Questions";
              charge := 0; status := "Paid" |}.
    vm_compute. split; reflexivity.
  - exists {| wait_time := 0; issue_type := "Copay Questions";
              charge := -6000; status := "Paid" |}.
    vm_compute. split; reflexivity.
Qed.

(** C10 (fails on the code): with wait time and charge [0] the score on
    the issue type ["constructor"] is NaN, which is not at least [0.1].
    Away from the inherited keys the bound holds,
    [predictRiskScore_bounds]. *)
Theorem lower_bound_fails_on_constructor :
  let features :=
    {| wait_time := 0; issue_type := "constructor";
       charge := 0; status := "Submitted" |} in
  0 <= wait_time features /\ 0 <= charge features
  /\ (0.1 <=? predictRiskScore features) = false.
Proof. vm_compute. repeat split. Qed.
(** ** More facts about binary64 numbers *)

Module NumberFacts.

Local Open Scope float_scope.

(** *** NaN *)

Lemma is_nan_eq x : is_nan x = true -> x = nan.
Proof.
  intros H. apply is_nan_spec in H. apply Prim2SF_inj. rewrite H.
  vm_compute. reflexivity.
Qed.

Lemma Prim2SF_nan : Prim2SF nan = S754_nan.
Proof. vm_compute. reflexivity. Qed.

Lemma add_nan_l y : nan + y = nan.
Proof. apply Prim2SF_inj. rewrite add_spec, Prim2SF_nan. reflexivity. Qed.

Lemma add_nan_r x : x + nan = nan.
Proof.
  apply Prim2SF_inj. rewrite add_spec, Prim2SF_nan.
  destruct (Prim2SF x); reflexivity.
Qed.

Lemma mul_nan_l y : nan * y = nan.
Proof. apply Prim2SF_inj. rewrite mul_spec, Prim2SF_nan. reflexivity. Qed.

Lemma div_nan_l y : nan / y = nan.
Proof. apply Prim2SF_inj. rewrite div_spec, Prim2SF_nan. reflexivity. Qed.

Lemma Math_min_nan_l y : JS.Math_min nan y = nan.
Proof. apply Math_min_nan. reflexivity. Qed.

Lemma not_lt_nan x y : is_nan y = true -> (x <? y) = false.
Proof.
  intros H. destruct (x <? y) eqn:E; [|reflexivity].
  apply ltb_nan in E. destruct E; congruence.
Qed.

(** *** Large powers of two

    The powers [2^1074] and the like are kept as they are written when
    an arithmetic tactic is called: it needs their sign and the relations
    stated between them, not their digits. *)

Ltac hide_pow k :=
  lazymatch k with
  | Zpos ?p =>
      lazymatch eval vm_compute in (Z.ltb 63 (Zpos p)) with
      | true =>
          let U := fresh "U" in
          set (U := Z.pow 2 k) in *; clearbody U
      end
  end.

Ltac hide_pows :=
  repeat match goal with
  | |- context [Z.pow 2 ?k] => hide_pow k
  | H : context [Z.pow 2 ?k] |- _ => hide_pow k
  end.

Ltac bnia := hide_pows; nia.

Ltac blia := hide_pows; lia.

(** *** Values *)

Local Open Scope Z_scope.

(** A float that is a number and not a zero is known by its value. *)
Lemma ord_inj x y :
  valid64 x = true -> valid64 y = true ->
  x <> S754_nan -> y <> S754_nan ->
  ord x = ord y -> ord x <> 0 -> x = y.
Proof.
  intros Vx Vy Nx Ny E NZ.
  pose proof (SFcompare_ord x y Vx Vy Nx Ny) as C.
  rewrite E, Z.compare_refl in C.
  destruct x as [sx|sx| |sx mx ex], y as [sy|sy| |sy my ey];
    try congruence; try (simpl in NZ; congruence);
    try (simpl in C; destruct sx; discriminate);
    try (simpl in C; destruct sy; discriminate);
    try (simpl in C; destruct sx, sy; discriminate).
  - simpl in C. destruct sx, sy; try discriminate; reflexivity.
  - simpl in C.
    assert (Ee : ex = ey).
    { destruct (ex ?= ey) eqn:Ee; [apply Z.compare_eq; exact Ee| |];
        destruct sx, sy; discriminate. }
    subst ey. rewrite Z.compare_refl in C.
    assert (Em : Pos.compare_cont Eq mx my = Eq).
    { change PosDef.Pos.compare_cont with Pos.compare_cont in C.
      destruct (Pos.compare_cont Eq mx my); destruct sx, sy; try discriminate; reflexivity. }
    apply Pos.compare_eq in Em. subst my.
    destruct sx, sy; try discriminate; reflexivity.
Qed.

Lemma B2Z_inj x y :
  is_nan x = false -> is_nan y = false -> B2Z x = B2Z y -> B2Z x <> 0 -> x = y.
Proof.
  intros Nx Ny E NZ. apply Prim2SF_inj.
  apply ord_inj; auto using Prim2SF_valid; apply is_nan_false; assumption.
Qed.

(** *** Integers

    An integer below [2^53] is a float, and the conversion of a length
    gives it. *)

Lemma int_float k :
  0 < k < 2 ^ 53 ->
  exists m e, bounded prec emax m e = true /\ e <= 0
              /\ Zpos m * 2 ^ (e + 1074) = k * 2 ^ 1074.
Proof.
  intros Hk.
  pose proof (Zdigits2_bounds k ltac:(blia)) as Hd.
  pose proof (Zdigits2_nonneg k) as Hd0.
  set (d := Zdigits2 k) in *.
  assert (Hd1 : 1 <= d <= 53).
  { split.
    - destruct (Z_lt_le_dec d 1) as [L|L]; [|exact L].
      exfalso. assert (d = 0) by blia.
      replace d with 0 in Hd. simpl in Hd. blia.
    - destruct (Z_lt_le_dec 53 d) as [L|L]; [|exact L].
      exfalso. assert (2 ^ 53 <= 2 ^ (d - 1)) by (apply Z.pow_le_mono_r; blia). blia. }
  assert (P : 0 < k * 2 ^ (53 - d)).
  { apply Z.mul_pos_pos; [blia|]. apply Z.pow_pos_nonneg; blia. }
  exists (Z.to_pos (k * 2 ^ (53 - d))), (d - 53).
  assert (D : Zdigits2 (k * 2 ^ (53 - d)) = 53).
  { rewrite Zdigits2_mul_pow2 by blia. fold d. blia. }
  destruct (k * 2 ^ (53 - d)) as [|p|p] eqn:Ep; try blia.
  simpl Z.to_pos. simpl in D.
  repeat split.
  - unfold bounded, canonical_mantissa. rewrite D.
    change (fexp prec emax (53 + (d - 53))) with (fexp64 (53 + (d - 53))).
    rewrite fexp64_eq. apply andb_true_intro. split.
    + apply Z.eqb_eq. blia.
    + apply Z.leb_le. change (emax - prec) with 971. blia.
  - blia.
  - rewrite <- Ep. rewrite <- Z.mul_assoc, <- Z.pow_add_r by blia.
    f_equal. f_equal. blia.
Qed.

Lemma RN_int k : 0 <= k < 2 ^ 53 -> RN (k * 2 ^ 1074) = k * 2 ^ 1074.
Proof.
  intros Hk. destruct (Z.eq_dec k 0) as [->|Hk0]; [reflexivity|].
  destruct (int_float k ltac:(blia)) as (m & e & B & _ & E).
  rewrite <- E.
  apply (RN_ord (S754_finite false m e)); [exact B|discriminate|discriminate].
Qed.

Lemma to_Z_of_Z k : 0 <= k < 2 ^ 53 -> Uint63Axioms.to_Z (Uint63.of_Z k) = k.
Proof.
  intros Hk. change Uint63Axioms.to_Z with Uint63.to_Z.
  rewrite Uint63.of_Z_spec. apply Z.mod_small.
  change Uint63.wB with (2 ^ 63). split; [blia|].
  apply Z.lt_trans with (2 ^ 53); [blia|reflexivity].
Qed.

(** The Number of an integer below [2^53]. *)
Lemma of_Z_spec k :
  0 <= k < 2 ^ 53 ->
  is_fin (Prim2SF (of_uint63 (Uint63.of_Z k))) = true
  /\ Prim2SF (of_uint63 (Uint63.of_Z k)) <> S754_zero true
  /\ B2Z (of_uint63 (Uint63.of_Z k)) = k * 2 ^ 1074.
Proof.
  intros Hk. unfold B2Z. rewrite of_uint63_spec, to_Z_of_Z by exact Hk.
  pose proof (binary_normalize_ord k 0 ltac:(blia)) as [N E].
  pose proof (binary_normalize_neg_zero k 0 ltac:(blia)) as NZ.
  change (0 + 1074) with 1074 in E. rewrite RN_int in E by exact Hk.
  repeat split; [|exact NZ|exact E].
  destruct (binary_normalize prec emax k 0 false) as [s|s| |s m e] eqn:B;
    try reflexivity; [|congruence].
  exfalso. cbv beta iota delta [ord] in E.
  assert (k * 2 ^ 1074 < BIG).
  { unfold BIG. change 2098 with (1024 + 1074). rewrite Z.pow_add_r by blia.
    apply Z.mul_lt_mono_pos_r; [apply Z.pow_pos_nonneg; blia|].
    apply Z.lt_trans with (2 ^ 53); [blia|reflexivity]. }
  assert (0 <= k * 2 ^ 1074) by (apply Z.mul_nonneg_nonneg; [blia|apply Z.pow_nonneg; blia]).
  pose proof BIG_pos. destruct s; cbv beta iota delta [cond_Zopp] in E; blia.
Qed.

Lemma of_Z_nan k :
  0 <= k < 2 ^ 53 -> is_nan (of_uint63 (Uint63.of_Z k)) = false.
Proof.
  intros Hk. destruct (of_Z_spec k Hk) as (F & _ & _).
  apply is_nan_false. intros E. rewrite E in F. discriminate.
Qed.

Lemma length_spec {A} (l : list A) :
  Z.of_nat (List.length l) < 2 ^ 53 ->
  is_nan (Builtins.length l) = false
  /\ is_fin (Prim2SF (Builtins.length l)) = true
  /\ B2Z (Builtins.length l) = Z.of_nat (List.length l) * 2 ^ 1074.
Proof.
  intros H. unfold Builtins.length.
  assert (Hk : 0 <= Z.of_nat (List.length l) < 2 ^ 53) by blia.
  destruct (of_Z_spec _ Hk) as (F & _ & E).
  auto using of_Z_nan.
Qed.

(** *** [Math.floor] *)

Lemma pow2_split e : -1074 <= e < 0 -> 2 ^ 1074 = 2 ^ (- e) * 2 ^ (e + 1074).
Proof. intros H. rewrite <- Z.pow_add_r by blia. f_equal. blia. Qed.

Lemma div_units a e :
  -1074 <= e < 0 -> a * 2 ^ (e + 1074) / 2 ^ 1074 = a / 2 ^ (- e).
Proof.
  intros H. rewrite (pow2_split e H).
  apply Z.div_mul_cancel_r; apply Z.pow_nonzero; blia.
Qed.

Lemma mantissa_bound m e : bounded prec emax m e = true -> Zpos m < 2 ^ 53.
Proof.
  intros B. pose proof (bounded_inv _ _ B) as (_ & D & _).
  pose proof (digits2_pos_bounds m) as [_ U].
  apply Z.lt_le_trans with (1 := U). apply Z.pow_le_mono_r; blia.
Qed.

(** The floor of a finite float: its value, cut to a multiple of the
    unit. *)
Lemma Math_floor_B2Z x :
  is_fin (Prim2SF x) = true ->
  is_nan (Builtins.Math_floor x) = false
  /\ is_fin (Prim2SF (Builtins.Math_floor x)) = true
  /\ B2Z (Builtins.Math_floor x) = B2Z x / 2 ^ 1074 * 2 ^ 1074.
Proof.
  intros F. unfold Builtins.Math_floor, B2Z.
  pose proof (Prim2SF_valid x) as V.
  assert (P1074 : 0 < 2 ^ 1074) by (apply Z.pow_pos_nonneg; blia).
  destruct (Prim2SF x) as [s|s| |s m e] eqn:E; try discriminate.
  - rewrite E. split; [apply is_nan_false; rewrite E; discriminate|split; reflexivity].
  - cbn [valid_binary] in V.
    pose proof (bounded_inv _ _ V) as (He & _).
    pose proof (mantissa_bound _ _ V) as Hm.
    destruct (Z.leb_spec 0 e) as [L|L].
    + rewrite E. split; [apply is_nan_false; rewrite E; discriminate|split; [reflexivity|]].
      cbv beta iota delta [ord].
      replace (cond_Zopp s (Zpos m * 2 ^ (e + 1074)))
        with (cond_Zopp s (Zpos m * 2 ^ e) * 2 ^ 1074).
      * rewrite Z.div_mul by blia. reflexivity.
      * rewrite Z.pow_add_r by blia. destruct s; cbv beta iota delta [cond_Zopp]; blia.
    + cbv zeta.
      assert (Pd : 0 < 2 ^ (- e)) by (apply Z.pow_pos_nonneg; blia).
      destruct s; cbv beta iota delta [cond_Zopp].
      * change (ord (S754_finite true m e)) with (- (Zpos m * 2 ^ (e + 1074))).
        rewrite <- Z.mul_opp_l, div_units by blia.
        set (q := - Z.pos m / 2 ^ (- e)).
        assert (Hq : 0 <= - q < 2 ^ 53).
        { pose proof (Z.div_mod (- Z.pos m) (2 ^ (- e)) ltac:(blia)) as DM.
          pose proof (Z.mod_pos_bound (- Z.pos m) (2 ^ (- e)) Pd) as MB.
          fold q in DM. bnia. }
        destruct (of_Z_spec (- q) Hq) as (Fq & _ & Eq).
        unfold B2Z in Eq.
        assert (N : Prim2SF (- of_uint63 (Uint63.of_Z (- q))) <> S754_nan).
        { rewrite opp_spec.
          destruct (Prim2SF (of_uint63 (Uint63.of_Z (- q)))); discriminate. }
        split; [apply is_nan_false; exact N|].
        rewrite opp_spec, ord_opp, Eq.
        split; [|blia].
        destruct (Prim2SF (of_uint63 (Uint63.of_Z (- q)))); try discriminate; reflexivity.
      * change (ord (S754_finite false m e)) with (Zpos m * 2 ^ (e + 1074)).
        rewrite div_units by blia.
        set (q := Z.pos m / 2 ^ (- e)).
        assert (Hq : 0 <= q < 2 ^ 53).
        { pose proof (Z.div_mod (Z.pos m) (2 ^ (- e)) ltac:(blia)) as DM.
          pose proof (Z.mod_pos_bound (Z.pos m) (2 ^ (- e)) Pd) as MB.
          fold q in DM. bnia. }
        destruct (of_Z_spec q Hq) as (Fq & _ & Eq).
        split; [apply of_Z_nan; exact Hq|split; [exact Fq|]].
        exact Eq.
Qed.

(** A float that is a non-negative integer names that integer as an
    array index. *)
Lemma array_index_B2Z x j :
  is_fin (Prim2SF x) = true -> B2Z x = j * 2 ^ 1074 -> 0 <= j ->
  Builtins.array_index x = Some j.
Proof.
  intros F E Hj. unfold Builtins.array_index. unfold B2Z in E.
  pose proof (Prim2SF_valid x) as V.
  assert (P1074 : 0 < 2 ^ 1074) by (apply Z.pow_pos_nonneg; blia).
  destruct (Prim2SF x) as [s|s| |s m e]; try discriminate.
  - cbn [ord] in E. f_equal. bnia.
  - cbn [valid_binary] in V.
    pose proof (bounded_inv _ _ V) as (He & _).
    assert (Pe : 0 < 2 ^ (e + 1074)) by (apply Z.pow_pos_nonneg; blia).
    cbv beta iota delta [ord] in E.
    destruct s; cbv beta iota delta [cond_Zopp] in E; [exfalso; bnia|].
    destruct (Z.leb_spec 0 e) as [L|L].
    + f_equal. rewrite Z.pow_add_r in E by blia. bnia.
    + rewrite (pow2_split e ltac:(blia)) in E.
      assert (Em : Z.pos m = j * 2 ^ (- e)) by bnia.
      assert (Pd : 0 < 2 ^ (- e)) by (apply Z.pow_pos_nonneg; blia).
      rewrite Em, Z.mod_mul, Z.div_mul by blia. reflexivity.
Qed.

(** *** Below one *)

Local Open Scope float_scope.

(** [0x1.fffffffffffffp-1] is the largest float below [1]. *)
Lemma lt_1_le_below_1 x : x < 1 -> x <= 0x1.fffffffffffffp-1.
Proof.
  intros H. apply flt_B2Z in H. destruct H as (Nx & _ & L).
  apply fle_B2Z. split; [exact Nx|split; [reflexivity|]].
  replace (B2Z 1) with (2 ^ 1074)%Z in L by (vm_compute; reflexivity).
  replace (B2Z 0x1.fffffffffffffp-1) with ((2 ^ 53 - 1) * 2 ^ 1021)%Z by (vm_compute; reflexivity).
  unfold B2Z in *. pose proof (Prim2SF_valid x) as V.
  assert (P : (0 <= (2 ^ 53 - 1) * 2 ^ 1021)%Z) by (vm_compute; discriminate).
  pose proof BIG_pos.
  destruct (Prim2SF x) as [s|s| |s m e].
  - exact P.
  - destruct s; cbv beta iota delta [ord cond_Zopp] in *; [blia|].
    exfalso. assert (2 ^ 1074 < BIG)%Z by (vm_compute; reflexivity). blia.
  - exact P.
  - cbn [valid_binary] in V.
    pose proof (finite_ord_bounds _ _ V) as (B0 & B1 & B2).
    pose proof (bounded_inv _ _ V) as (He & _).
    cbv beta iota delta [ord] in *.
    destruct s; cbv beta iota delta [cond_Zopp] in *; [blia|].
    assert (Pe : (0 < 2 ^ (e + 1074))%Z) by (apply Z.pow_pos_nonneg; blia).
    assert (Hm : (Zpos m <= 2 ^ 53 - 1)%Z) by bnia.
    destruct (Z_lt_le_dec (-53) e) as [G|G].
    + exfalso. specialize (B1 ltac:(blia)).
      assert ((2 ^ 1022 <= 2 ^ (e + 1074))%Z) by (apply Z.pow_le_mono_r; blia).
      replace (2 ^ 1074)%Z with (2 ^ 52 * 2 ^ 1022)%Z in L by reflexivity.
      bnia.
    + assert ((2 ^ (e + 1074) <= 2 ^ 1021)%Z) by (apply Z.pow_le_mono_r; blia).
      bnia.
Qed.

(** *** Sums with a finite term *)

Lemma add_pos_inf_l x y :
  Prim2SF x = S754_infinity false -> is_fin (Prim2SF y) = true ->
  Prim2SF (x + y) = S754_infinity false.
Proof.
  intros Hx Hy. rewrite add_spec, Hx.
  destruct (Prim2SF y); try discriminate; reflexivity.
Qed.

Lemma fin_B2Z x : is_fin (Prim2SF x) = true -> is_nan x = false /\ (- BIG < B2Z x < BIG)%Z.
Proof.
  intros F.
  assert (N : is_nan x = false).
  { apply is_nan_false. intros E. rewrite E in F. discriminate. }
  split; [exact N|].
  destruct (B2Z_class x N) as [[E _]|[[_ H]|[E _]]]; [|exact H|];
    rewrite E in F; discriminate.
Qed.

Lemma B2Z_fin x : is_nan x = false -> (- BIG < B2Z x < BIG)%Z -> is_fin (Prim2SF x) = true.
Proof.
  intros N H. destruct (B2Z_class x N) as [[_ E]|[[F _]|[_ E]]]; [blia|exact F|blia].
Qed.

Lemma add_fin_nan x c :
  is_nan x = false -> is_fin (Prim2SF c) = true -> is_nan (x + c) = false.
Proof.
  intros Nx Fc. destruct (fin_B2Z c Fc) as [Nc Bc].
  destruct (B2Z_class x Nx) as [[E _]|[[F _]|[E _]]].
  - apply (neg_inf_B2Z _ (add_neg_inf_l x c E Nc ltac:(blia))).
  - apply (add_fin x c F Fc).
  - apply (pos_inf_B2Z (x + c)).
    exact (add_pos_inf_l x c E Fc).
Qed.

(** Addition is monotone when the second terms are finite. *)
Lemma add_mono_fin u v z z' :
  u <= v -> z <= z' ->
  is_fin (Prim2SF z) = true -> is_fin (Prim2SF z') = true ->
  u + z <= v + z'.
Proof.
  intros Huv Hzz Fz Fz'.
  destruct (fin_B2Z z Fz) as [Nz Bz]. destruct (fin_B2Z z' Fz') as [Nz' Bz'].
  pose proof Huv as Huv'. apply fle_B2Z in Huv'. destruct Huv' as (Nu & Nv & L).
  pose proof BIG_pos.
  destruct (B2Z_class v Nv) as [[Ev Bv]|[[Fv Bv]|[Ev Bv]]].
  - destruct (B2Z_class u Nu) as [[Eu _]|[[_ Bu]|[_ Bu]]]; [|blia|blia].
    pose proof (neg_inf_B2Z _ (add_neg_inf_l u z Eu Nz ltac:(blia))) as [A1 A2].
    pose proof (neg_inf_B2Z _ (add_neg_inf_l v z' Ev Nz' ltac:(blia))) as [B1 B2].
    apply fle_B2Z. repeat split; auto; blia.
  - apply add_mono; auto; apply flt_B2Z; rewrite B2Z_infinity;
      repeat split; auto; blia.
  - pose proof (pos_inf_B2Z _ (add_pos_inf_l v z' Ev Fz')) as [B1 B2].
    pose proof (add_fin_nan u z Nu Fz) as A1.
    pose proof (B2Z_range (u + z)).
    apply fle_B2Z. repeat split; auto; blia.
Qed.

(** Adding a finite non-negative term does not lower a number. *)
Lemma add_const_ge x c :
  is_nan x = false -> is_fin (Prim2SF c) = true -> (0 <= B2Z c)%Z ->
  x <= x + c.
Proof.
  intros Nx Fc Pc. destruct (fin_B2Z c Fc) as [Nc Bc].
  pose proof (add_fin_nan x c Nx Fc) as N.
  apply fle_B2Z. split; [exact Nx|split; [exact N|]].
  destruct (B2Z_class x Nx) as [[E B]|[[F B]|[E B]]].
  - pose proof (B2Z_range (x + c)). blia.
  - destruct (add_fin x c F Fc) as [_ A]. rewrite A.
    rewrite <- (RN_ord (Prim2SF x)) at 1.
    + apply RN_mono. unfold B2Z in *. blia.
    + apply Prim2SF_valid.
    + apply is_nan_false. exact Nx.
    + intros s' E'. rewrite E' in F. discriminate.
  - pose proof (pos_inf_B2Z _ (add_pos_inf_l x c E Fc)) as [_ B2].
    blia.
Qed.

(** *** The floor of a random number scaled by a constant *)

Section Scaled.
Variable c : float.
Variable mc : positive.
Variable ec : Z.
Variable k : Z.
Hypothesis c_spec : Prim2SF c = S754_finite false mc ec.
Hypothesis ec_le : (ec <= 0)%Z.
Hypothesis mc_normal : Zpos (digits2_pos mc) = 53%Z.
Hypothesis top : (B2Z (0x1.fffffffffffffp-1 * c) / 2 ^ 1074 = k)%Z.
Hypothesis top_fin : (B2Z (0x1.fffffffffffffp-1 * c) < BIG)%Z.

Lemma floor_scaled r :
  0 <= r -> r < 1 ->
  is_nan (Builtins.Math_floor (r * c)) = false
  /\ is_fin (Prim2SF (Builtins.Math_floor (r * c))) = true
  /\ exists j, (0 <= j <= k)%Z
               /\ B2Z (Builtins.Math_floor (r * c)) = (j * 2 ^ 1074)%Z
               /\ Builtins.array_index (Builtins.Math_floor (r * c)) = Some j
               /\ j = (B2Z (r * c) / 2 ^ 1074)%Z.
Proof.
  intros H0 H1.
  pose proof (lt_1_le_below_1 r H1) as H2.
  pose proof (mul_mono c mc ec c_spec ec_le mc_normal _ _ H0) as L.
  pose proof (mul_mono c mc ec c_spec ec_le mc_normal _ _ H2) as U.
  apply fle_B2Z in L, U. destruct L as (_ & N & L). destruct U as (_ & _ & U).
  assert (Z0 : B2Z (0 * c) = 0%Z).
  { destruct (mul_fin c mc ec c_spec ec_le mc_normal 0 eq_refl) as [_ E].
    rewrite E. replace (B2Z 0) with 0%Z by reflexivity.
    unfold oddext. simpl Z.leb. cbv iota. apply mul_rnd_0. exact ec_le. }
  rewrite Z0 in L. pose proof BIG_pos.
  assert (F : is_fin (Prim2SF (r * c)) = true) by (apply B2Z_fin; [exact N|blia]).
  destruct (Math_floor_B2Z _ F) as (A1 & A2 & A3).
  split; [exact A1|split; [exact A2|]].
  assert (P1074 : (0 < 2 ^ 1074)%Z) by (apply Z.pow_pos_nonneg; blia).
  exists (B2Z (r * c) / 2 ^ 1074)%Z.
  assert (J : (0 <= B2Z (r * c) / 2 ^ 1074 <= k)%Z).
  { split; [apply Z.div_pos; blia|]. rewrite <- top. apply Z.div_le_mono; blia. }
  split; [exact J|split; [exact A3|split; [|reflexivity]]].
  apply array_index_B2Z; [exact A2|exact A3|blia].
Qed.
End Scaled.

(** Reading a list at an index it has. *)
Lemma get_index {A} (l : list A) y j :
  Builtins.array_index y = Some j -> (0 <= j < Z.of_nat (List.length l))%Z ->
  exists a, Builtins.get l y = Some a /\ In a l.
Proof.
  intros E H. unfold Builtins.get. rewrite E.
  destruct (Z.ltb_spec j (Z.of_nat (List.length l))) as [_|G]; [|blia].
  destruct (nth_error l (Z.to_nat j)) as [a|] eqn:N.
  - exists a. split; [reflexivity|]. apply (nth_error_In _ _ N).
  - exfalso. apply nth_error_None in N. blia.
Qed.

(** *** A count over a length *)

Local Open Scope Z_scope.

Lemma length_c_spec n :
  0 < n < 2 ^ 53 ->
  exists mc ec, Prim2SF (of_uint63 (Uint63.of_Z n)) = S754_finite false mc ec
                /\ ec <= 0 /\ Zpos mc * 2 ^ (ec + 1074) = n * 2 ^ 1074.
Proof.
  intros Hn. destruct (of_Z_spec n ltac:(blia)) as (F & _ & E).
  unfold B2Z in E. pose proof (Prim2SF_valid (of_uint63 (Uint63.of_Z n))) as V.
  assert (P1074 : 0 < 2 ^ 1074) by (apply Z.pow_pos_nonneg; blia).
  destruct (Prim2SF (of_uint63 (Uint63.of_Z n))) as [s|s| |s m e]; try discriminate.
  - exfalso. cbn [ord] in E. bnia.
  - cbn [valid_binary] in V.
    pose proof (finite_ord_bounds _ _ V) as (B0 & B1 & B2).
    pose proof (bounded_inv _ _ V) as (He & _).
    cbv beta iota delta [ord] in E.
    destruct s; cbv beta iota delta [cond_Zopp] in E; [exfalso; bnia|].
    exists m, e. split; [reflexivity|split; [|exact E]].
    destruct (Z_lt_le_dec 0 e) as [G|G]; [|exact G].
    exfalso. specialize (B1 ltac:(blia)).
    assert (2 ^ 1075 <= 2 ^ (e + 1074)) by (apply Z.pow_le_mono_r; blia).
    replace (2 ^ 1075) with (2 * 2 ^ 1074) in * by reflexivity.
    bnia.
Qed.

Lemma div_rnd_self mc ec :
  -1074 <= ec <= 0 ->
  div_rnd mc ec (Zpos mc * 2 ^ (ec + 1074)) = 2 ^ 1074.
Proof.
  intros He. unfold div_rnd. cbv zeta.
  replace (2 * (Z.pos mc * 2 ^ (ec + 1074) * 2 ^ (- ec)))
    with (2 ^ 1075 * Z.pos mc).
  - rewrite Z.div_mul, Z.mod_mul by blia. vm_compute. reflexivity.
  - replace (2 ^ 1075) with (2 * (2 ^ (ec + 1074) * 2 ^ (- ec))); [blia|].
    rewrite <- Z.pow_add_r by blia. replace (ec + 1074 + - ec) with 1074 by blia.
    reflexivity.
Qed.

Local Open Scope float_scope.

(** A count of some elements of a list, over the length of the list, is
    between [0] and [1]. *)
Lemma ratio_bounds (h n : Z) :
  (0 <= h <= n)%Z -> (0 < n < 2 ^ 53)%Z ->
  0 <= of_uint63 (Uint63.of_Z h) / of_uint63 (Uint63.of_Z n)
  /\ of_uint63 (Uint63.of_Z h) / of_uint63 (Uint63.of_Z n) <= 1.
Proof.
  intros Hh Hn.
  destruct (length_c_spec n Hn) as (mc & ec & C & He & E).
  pose proof (Prim2SF_valid (of_uint63 (Uint63.of_Z n))) as V.
  rewrite C in V. cbn [valid_binary] in V.
  pose proof (bounded_inv _ _ V) as (He' & _).
  set (N := of_uint63 (Uint63.of_Z n)) in *.
  set (H := of_uint63 (Uint63.of_Z h)) in *.
  destruct (of_Z_spec h ltac:(blia)) as (FH & _ & EH). fold H in FH, EH.
  destruct (of_Z_spec n ltac:(blia)) as (FN & _ & EN). fold N in FN, EN.
  destruct (fin_B2Z H FH) as [NH _]. destruct (fin_B2Z N FN) as [NN _].
  assert (P1074 : (0 < 2 ^ 1074)%Z) by (apply Z.pow_pos_nonneg; blia).
  assert (L1 : 0 <= H).
  { apply fle_B2Z. split; [reflexivity|split; [exact NH|]].
    rewrite EH. replace (B2Z 0) with 0%Z by reflexivity. bnia. }
  assert (L2 : H <= N).
  { apply fle_B2Z. split; [exact NH|split; [exact NN|]]. rewrite EH, EN. bnia. }
  pose proof (div_mono N mc ec C He _ _ L1) as D1.
  pose proof (div_mono N mc ec C He _ _ L2) as D2.
  destruct (div_fin N mc ec C He 0 eq_refl) as [Z1 Z2].
  destruct (div_fin N mc ec C He N FN) as [O1 O2].
  replace (B2Z 0) with 0%Z in Z2 by reflexivity.
  replace (oddext (div_rnd mc ec) 0) with 0%Z in Z2
    by (unfold oddext; change (0 <=? 0)%Z with true; cbv iota;
        symmetry; apply div_rnd_0).
  rewrite EN in O2. unfold oddext in O2.
  destruct (Z.leb_spec 0 (n * 2 ^ 1074)) as [_|G];
    [|pose proof (Z.mul_pos_pos n (2 ^ 1074) ltac:(blia) P1074); blia].
  rewrite <- E, div_rnd_self in O2 by blia.
  apply fle_B2Z in D1, D2.
  destruct D1 as (_ & R & D1). destruct D2 as (_ & _ & D2).
  split; apply fle_B2Z.
  - split; [reflexivity|split; [exact R|]].
    replace (B2Z 0) with 0%Z by reflexivity. blia.
  - split; [exact R|split; [reflexivity|]].
    replace (B2Z 1) with (2 ^ 1074)%Z by (vm_compute; reflexivity). blia.
Qed.

End NumberFacts.

Import NumberFacts.

(** ** The scorer beyond the numeric inputs *)

Lemma component_nan ceiling : component nan ceiling = nan.
Proof.
  unfold component. rewrite div_nan_l, Math_min_nan_l, mul_nan_l. reflexivity.
Qed.

Lemma numeric_score_nan_l W c st : numeric_score nan W c st = nan.
Proof.
  unfold numeric_score. cbv zeta. rewrite add_nan_r, !add_nan_l.
  destruct (String.eqb st "Denied"); [|destruct (String.eqb st "Pending")];
    rewrite ?add_nan_l; apply Math_min_nan_l.
Qed.

Lemma numeric_score_nan_r a W st : numeric_score a W nan st = nan.
Proof.
  unfold numeric_score. cbv zeta. rewrite add_nan_r.
  destruct (String.eqb st "Denied"); [|destruct (String.eqb st "Pending")];
    rewrite ?add_nan_l; apply Math_min_nan_l.
Qed.

(** NaN goes through: a wait time or a charge that is NaN, as the name of
    an inherited member, gives NaN. *)
Lemma predictRiskScore_nan f :
  JS.inherited (issue_type f) = true \/ is_nan (wait_time f) = true
  \/ is_nan (charge f) = true ->
  predictRiskScore f = nan.
Proof.
  intros H. destruct (JS.inherited (issue_type f)) eqn:I.
  - apply predictRiskScore_inherited. exact I.
  - rewrite (predictRiskScore_numeric f I).
    destruct H as [H|[H|H]]; [discriminate| |].
    + rewrite (is_nan_eq _ H), component_nan. apply numeric_score_nan_l.
    + rewrite (is_nan_eq _ H), component_nan. apply numeric_score_nan_r.
Qed.

(** The score is NaN in these cases only. *)
Lemma predictRiskScore_nan_cases f :
  is_nan (predictRiskScore f) = true
  <-> (JS.inherited (issue_type f) = true \/ is_nan (wait_time f) = true
       \/ is_nan (charge f) = true).
Proof.
  split.
  - intros H.
    destruct (JS.inherited (issue_type f)) eqn:I; [left; reflexivity|].
    destruct (is_nan (wait_time f)) eqn:W; [right; left; reflexivity|].
    destruct (is_nan (charge f)) eqn:C; [right; right; reflexivity|].
    pose proof (predictRiskScore_le_1 f I W C) as L.
    apply fle_nan_l in L. congruence.
  - intros H. rewrite (predictRiskScore_nan f H). reflexivity.
Qed.

(** X1: the score is NaN exactly when the issue type names a member
    inherited from [Object.prototype], or the wait time is NaN, or the
    charge is NaN. *)
Theorem predictRiskScore_nan_iff f :
  is_nan (predictRiskScore f) = true
  <-> (JS.inherited (issue_type f) = true \/ is_nan (wait_time f) = true
       \/ is_nan (charge f) = true).
Proof. exact (predictRiskScore_nan_cases f). Qed.

(** X2: whatever the features, the test [predictRiskScore(features) > 1]
    fails: the score is at most [1], or it is NaN. *)
Theorem predictRiskScore_never_above_1 f : (1 <? predictRiskScore f) = false.
Proof.
  destruct (JS.inherited (issue_type f)) eqn:I;
    [rewrite predictRiskScore_nan by auto; reflexivity|].
  destruct (is_nan (wait_time f)) eqn:W;
    [rewrite predictRiskScore_nan by auto; reflexivity|].
  destruct (is_nan (charge f)) eqn:C;
    [rewrite predictRiskScore_nan by auto; reflexivity|].
  pose proof (predictRiskScore_le_1 f I W C) as L.
  apply fle_B2Z in L. destruct L as (N & N1 & L).
  rewrite ltb_B2Z by assumption. apply Z.ltb_ge. exact L.
Qed.

(** X3: the weight that the scorer adds for an issue type,
    [issueTypeWeights[issue_type] || 0.1].  It is the weight of the table
    when the issue type is, letter for letter, one of its ten keys; it is
    the built-in member itself, no number, when the issue type names a
    member inherited from [Object.prototype]; and it is [0.1] for every
    other text. *)
Theorem issue_weight_lookup k :
  match JS.or_else (JS.get issueTypeWeights k) 0.1 with
  | JS.VNumber x =>
      In (k, x) issueTypeWeights
      \/ (x = 0.1 /\ JS.inherited k = false
          /\ forall y, ~ In (k, y) issueTypeWeights)
  | JS.VObject k' =>
      k' = k /\ JS.inherited k = true
      /\ forall y, ~ In (k, y) issueTypeWeights
  | JS.VUndefined => False
  end.
Proof.
  destruct (JS.own_property issueTypeWeights k) as [x|] eqn:O.
  - unfold JS.get. rewrite O.
    assert (I : In (k, x) issueTypeWeights).
    { revert O. unfold issueTypeWeights, JS.own_property.
      repeat match goal with
      | |- context [String.eqb k ?s] =>
          destruct (String.eqb_spec k s) as [->|_];
          [intros [= <-]; simpl; tauto|]
      end.
      discriminate. }
    assert (T : JS.ToBoolean (JS.VNumber x) = true).
    { revert I. unfold issueTypeWeights. simpl In. intros I.
      repeat (destruct I as [[= _ <-]|I]; [reflexivity|]). contradiction. }
    unfold JS.or_else. rewrite T. left. exact I.
  - assert (N : forall y, ~ In (k, y) issueTypeWeights).
    { intros y I. revert O. unfold issueTypeWeights in I. simpl In in I.
      repeat (destruct I as [[= <- _]|I]; [discriminate|]). contradiction. }
    unfold JS.get. rewrite O. destruct (JS.inherited k) eqn:H.
    + cbn [JS.or_else JS.ToBoolean]. auto.
    + cbn [JS.or_else JS.ToBoolean]. right. auto.
Qed.

(** ** The dashboard that calls the scorer *)

(** The table of patients: every charge is a number above [0] and at most
    [1240], and every status is one of four texts. *)
Lemma patient_facts p :
  In p BillingDashboard.healthcareBillingData ->
  0 <= Patient.charge p /\ Patient.charge p <= 1240
  /\ is_zero (Patient.charge p) || is_nan (Patient.charge p) = false
  /\ String.eqb (Patient.status p) "" = false
  /\ In (Patient.status p) ["Submitted"; "Approved"; "Denied"; "Paid"].
Proof.
  unfold BillingDashboard.healthcareBillingData. simpl In. intros H.
  repeat (destruct H as [<- | H];
          [repeat split; try (vm_compute; reflexivity); simpl; tauto|]).
  contradiction.
Qed.

Lemma findPatient_Some n p :
  BillingDashboard.findPatient n = Some p ->
  In p BillingDashboard.healthcareBillingData /\ Patient.name p = n.
Proof.
  intros H. apply find_some in H. destruct H as [I E].
  split; [exact I|]. apply String.eqb_eq. exact E.
Qed.

Lemma findPatient_None n p :
  BillingDashboard.findPatient n = None ->
  In p BillingDashboard.healthcareBillingData -> Patient.name p <> n.
Proof.
  intros H I E. pose proof (find_none _ _ H p I) as F. cbv beta in F.
  rewrite E, String.eqb_refl in F. discriminate.
Qed.

(** The features of a customer: the charge is a number between [0] and
    [1240]. *)
Lemma features_charge w issue n :
  0 <= charge (BillingDashboard.features w issue n)
  /\ charge (BillingDashboard.features w issue n) <= 1240.
Proof.
  unfold BillingDashboard.features. cbn [charge].
  destruct (BillingDashboard.findPatient n) as [p|] eqn:F.
  - apply findPatient_Some in F. destruct F as [I _].
    destruct (patient_facts p I) as (A & B & C & _).
    cbn [option_map Builtins.or_number]. rewrite C. split; assumption.
  - cbn [option_map Builtins.or_number]. split; vm_compute; reflexivity.
Qed.

(** X4: the features that the dashboard gives to the scorer for a
    customer.  A customer of the table gets the charge and the status of
    the first patient of that name, since no charge of the table is [0]
    and no status is empty; any other customer gets the charge [0] and the
    status ["Submitted"].  So the charge is always a number between [0]
    and [1240] and the status one of four texts. *)
Theorem features_lookup w issue customer_name :
  let f := BillingDashboard.features w issue customer_name in
  wait_time f = w /\ issue_type f = issue
  /\ match BillingDashboard.findPatient customer_name with
     | Some p =>
         In p BillingDashboard.healthcareBillingData
         /\ Patient.name p = customer_name
         /\ charge f = Patient.charge p /\ status f = Patient.status p
     | None =>
         (forall p, In p BillingDashboard.healthcareBillingData ->
                    Patient.name p <> customer_name)
         /\ charge f = 0 /\ status f = "Submitted"
     end
  /\ 0 <= charge f /\ charge f <= 1240
  /\ In (status f) ["Submitted"; "Approved"; "Denied"; "Paid"].
Proof.
  cbv zeta. split; [reflexivity|split; [reflexivity|]].
  pose proof (features_charge w issue customer_name) as [C0 C1].
  unfold BillingDashboard.features in *. cbn [charge status] in *.
  destruct (BillingDashboard.findPatient customer_name) as [p|] eqn:F.
  - pose proof (findPatient_Some _ _ F) as [I N].
    destruct (patient_facts p I) as (_ & _ & C & S & S').
    cbn [option_map Builtins.or_number Builtins.or_string] in *.
    rewrite C in *. rewrite S.
    repeat split; assumption.
  - cbn [option_map Builtins.or_number Builtins.or_string] in *.
    repeat split; try assumption.
    + intros p I. apply (findPatient_None _ _ F I).
    + simpl. tauto.
Qed.

(** *** Random places and random wait times *)

(** [floor_random c k r H0 H1 as H]: for the constant [c], the floor of
    [r * c] is an integer between [0] and [k]. *)
Ltac floor_random c k r H0 H1 H :=
  let s := eval vm_compute in (Prim2SF c) in
  lazymatch s with
  | S754_finite false ?mc ?ec =>
      pose proof (floor_scaled c mc ec k
                    ltac:(vm_compute; reflexivity)
                    ltac:(vm_compute; discriminate)
                    ltac:(vm_compute; reflexivity)
                    ltac:(vm_compute; reflexivity)
                    ltac:(vm_compute; reflexivity)
                    r H0 H1) as H
  end.

(** A place drawn in a list of [n] elements, [0 < n], is a place of the
    list. *)
Lemma random_place {A} (l : list A) c k r :
  (forall r, 0 <= r -> r < 1 ->
     exists j, (0 <= j <= k)%Z
               /\ Builtins.array_index (Builtins.Math_floor (r * c)) = Some j) ->
  (k < Z.of_nat (List.length l))%Z ->
  0 <= r -> r < 1 ->
  exists a, Builtins.get l (Builtins.Math_floor (r * c)) = Some a /\ In a l.
Proof.
  intros H L H0 H1. destruct (H r H0 H1) as (j & J & E).
  apply (get_index l _ j E). lia.
Qed.

Ltac random_place_tac c k :=
  let r := fresh "r" in
  let H0 := fresh "H0" in
  let H1 := fresh "H1" in
  let H := fresh "H" in
  intros r H0 H1; floor_random c k r H0 H1 H;
  destruct H as (_ & _ & j & J & _ & E & _); exists j; split; assumption.

Lemma random_place_6 r :
  0 <= r -> r < 1 ->
  exists j, (0 <= j <= 5)%Z
            /\ Builtins.array_index (Builtins.Math_floor (r * 6)) = Some j.
Proof. revert r. random_place_tac 6 5%Z. Qed.

Lemma random_place_10 r :
  0 <= r -> r < 1 ->
  exists j, (0 <= j <= 9)%Z
            /\ Builtins.array_index (Builtins.Math_floor (r * 10)) = Some j.
Proof. revert r. random_place_tac 10 9%Z. Qed.

(** A wait time [Math.floor(r * c) + b], with [b] a whole number. *)
Lemma random_wait c k b base hi r :
  (0 <= r -> r < 1 ->
   is_nan (Builtins.Math_floor (r * c)) = false
   /\ is_fin (Prim2SF (Builtins.Math_floor (r * c))) = true
   /\ exists j, (0 <= j <= k)%Z
               /\ B2Z (Builtins.Math_floor (r * c)) = (j * 2 ^ 1074)%Z
               /\ Builtins.array_index (Builtins.Math_floor (r * c)) = Some j
               /\ j = (B2Z (r * c) / 2 ^ 1074)%Z) ->
  is_fin (Prim2SF b) = true -> B2Z b = (base * 2 ^ 1074)%Z ->
  B2Z hi = ((k + base) * 2 ^ 1074)%Z -> is_nan hi = false ->
  (0 <= base)%Z -> (k + base < 2 ^ 53)%Z ->
  0 <= r -> r < 1 ->
  b <= Builtins.Math_floor (r * c) + b
  /\ Builtins.Math_floor (r * c) + b <= hi.
Proof.
  intros H Fb Eb Hhi Nhi Hb Hk H0 H1.
  destruct (H H0 H1) as (N & F & j & J & E & _).
  destruct (add_fin _ b F Fb) as [N' E'].
  rewrite E, Eb in E'.
  rewrite <- Z.mul_add_distr_r, RN_int in E' by lia.
  assert (P1074 : (0 < 2 ^ 1074)%Z) by (apply Z.pow_pos_nonneg; lia).
  destruct (fin_B2Z b Fb) as [Nb _].
  split; apply fle_B2Z.
  - split; [exact Nb|split; [exact N'|]].
    rewrite E', Eb. apply Z.mul_le_mono_nonneg_r; lia.
  - split; [exact N'|split; [exact Nhi|]].
    rewrite E', Hhi. apply Z.mul_le_mono_nonneg_r; lia.
Qed.

Ltac random_wait_tac c k b base hi :=
  let r := fresh "r" in
  let H0 := fresh "H0" in
  let H1 := fresh "H1" in
  intros r H0 H1;
  refine (random_wait c k b base hi r _ eq_refl _ _ eq_refl _ _ H0 H1);
  [ let H0' := fresh "H0" in
    let H1' := fresh "H1" in
    let H := fresh "H" in
    intros H0' H1'; floor_random c k r H0' H1' H; exact H
  | vm_compute; reflexivity
  | vm_compute; reflexivity
  | lia
  | reflexivity ].

Lemma random_wait_600 r :
  0 <= r -> r < 1 ->
  30 <= Builtins.Math_floor (r * 600) + 30
  /\ Builtins.Math_floor (r * 600) + 30 <= 629.
Proof. revert r. random_wait_tac 600 599%Z 30 30%Z 629. Qed.

Lemma random_wait_400 r :
  0 <= r -> r < 1 ->
  100 <= Builtins.Math_floor (r * 400) + 100
  /\ Builtins.Math_floor (r * 400) + 100 <= 499.
Proof. revert r. random_wait_tac 400 399%Z 100 100%Z 499. Qed.

(** The ten issues that the dashboard draws from are the ten keys of the
    weight table, none of them inherited. *)
Lemma billingIssues_not_inherited issue :
  In issue BillingDashboard.billingIssues -> JS.inherited issue = false.
Proof.
  unfold BillingDashboard.billingIssues. simpl In. intros H.
  repeat (destruct H as [<- | H]; [reflexivity|]). contradiction.
Qed.

(** X5: [generateMockCall] of the dashboard that calls the scorer, for
    values of [Math.random()] from [0] up to, not including, [1]: no array
    is read out of its bounds, the probability is a score between [0.1]
    and [1], the wait time is between [30] and [629], the issue type is
    one of the ten issues and the customer a patient of the table, and the
    priority and the action are those of the probability. *)
Theorem generateMockCall_scored Number_toString random_text
    r1 r2 r3 r4 r5 r6 r7 now :
  0 <= r1 -> r1 < 1 -> 0 <= r2 -> r2 < 1 -> 0 <= r3 -> r3 < 1 ->
  0 <= r6 -> r6 < 1 -> 0 <= r7 -> r7 < 1 ->
  exists call,
    BillingDashboard.generateMockCall Number_toString random_text
      r1 r2 r3 r4 r5 r6 r7 now = Some call
    /\ 0.1 <= CallData.probability call /\ CallData.probability call <= 1
    /\ 30 <= CallData.wait_time call /\ CallData.wait_time call <= 629
    /\ In (CallData.issue_type call) BillingDashboard.billingIssues
    /\ (exists p, In p BillingDashboard.healthcareBillingData
                  /\ CallData.customer_name call = Patient.name p)
    /\ CallData.priority call = priority (CallData.probability call)
    /\ CallData.predicted_action call
       = predicted_action (CallData.probability call)
    /\ CallData.status call = Waiting.
Proof.
  intros A1 B1 A2 B2 A3 B3 A6 B6 A7 B7.
  unfold BillingDashboard.generateMockCall.
  replace (Builtins.length BillingDashboard.healthcareBillingData) with 10
    by (vm_compute; reflexivity).
  replace (Builtins.length BillingDashboard.billingIssues) with 10
    by (vm_compute; reflexivity).
  destruct (random_place BillingDashboard.healthcareBillingData 10 9 r1
              random_place_10 ltac:(vm_compute; reflexivity) A1 B1)
    as (p & -> & Ip).
  destruct (random_place BillingDashboard.billingIssues 10 9 r3
              random_place_10 ltac:(vm_compute; reflexivity) A3 B3)
    as (i & -> & Ii).
  destruct (random_place BillingDashboard.billingIssues 10 9 r7
              random_place_10 ltac:(vm_compute; reflexivity) A7 B7)
    as (i' & -> & Ii').
  destruct (random_wait_600 r2 A2 B2) as [W0 W1].
  destruct (random_wait_600 r6 A6 B6) as [V0 V1].
  destruct (patient_facts p Ip) as (C0 & _).
  eexists. split; [reflexivity|]. cbn [CallData.probability CallData.wait_time
    CallData.issue_type CallData.customer_name CallData.priority
    CallData.predicted_action CallData.status].
  assert (Z30 : 0 <= 30) by (vm_compute; reflexivity).
  destruct (predictRiskScore_bounds
              {| wait_time := Builtins.Math_floor (r2 * 600) + 30;
                 issue_type := i;
                 charge := Patient.charge p;
                 status := Patient.status p |}
              (billingIssues_not_inherited i Ii)
              (fle_trans _ _ _ Z30 W0) C0) as [L U].
  repeat split; try assumption.
  exists p. split; [exact Ip|reflexivity].
Qed.

Lemma generateMockCall_scored_witness :
  exists call,
    BillingDashboard.generateMockCall (fun _ => "") (fun _ _ => "")
      0.25 0.5 0.75 0.125 0.375 0.625 0.875 "" = Some call
    /\ 0.1 <= CallData.probability call /\ CallData.probability call <= 1
    /\ 30 <= CallData.wait_time call /\ CallData.wait_time call <= 629
    /\ In (CallData.issue_type call) BillingDashboard.billingIssues
    /\ (exists p, In p BillingDashboard.healthcareBillingData
                  /\ CallData.customer_name call = Patient.name p)
    /\ CallData.priority call = priority (CallData.probability call)
    /\ CallData.predicted_action call
       = predicted_action (CallData.probability call)
    /\ CallData.status call = Waiting.
Proof.
  exact (generateMockCall_scored (fun _ => "") (fun _ _ => "")
           0.25 0.5 0.75 0.125 0.375 0.625 0.875 ""
           eq_refl eq_refl eq_refl eq_refl eq_refl eq_refl eq_refl eq_refl
           eq_refl eq_refl).
Defined.

(** *** The wait time goes up by fifteen seconds *)






(** X7: the update of the queue never touches the priority and the
    action of a call, while it changes the probability: a call whose
    priority and action are those of its probability can lose that on the
    update.  Here a call scored [0.395], of low priority, gets the
    probability [0.4025], which is of medium priority. *)
Theorem updated_keeps_priority :
  (forall prev,
      map CallData.priority (BillingDashboard.updated prev)
      = map CallData.priority prev
      /\ map CallData.predicted_action (BillingDashboard.updated prev)
         = map CallData.predicted_action prev)
  /\ exists call call',
      BillingDashboard.updated [call] = [call']
      /\ CallData.probability call
         = predictRiskScore
             (BillingDashboard.features (CallData.wait_time call)
                (CallData.issue_type call) (CallData.customer_name call))
      /\ CallData.priority call = priority (CallData.probability call)
      /\ CallData.predicted_action call
         = predicted_action (CallData.probability call)
      /\ CallData.priority call' <> priority (CallData.probability call')
      /\ CallData.predicted_action call'
         <> predicted_action (CallData.probability call').
Proof.
  split.
  - induction prev as [|call prev [IH1 IH2]]; [split; reflexivity|].
    unfold BillingDashboard.updated in *. cbn [map].
    rewrite IH1, IH2. split; reflexivity.
  - exists {| CallData.call_id := "CALL-1";
              CallData.customer_name := "Ann Other";
              CallData.phone_number := "";
              CallData.wait_time := 390;
              CallData.issue_type := "Coverage Verification";
              CallData.probability := 0.395;
              CallData.predicted_action := "Continue Queue";
              CallData.priority := Low;
              CallData.status := Waiting;
              CallData.agent_assigned := None;
              CallData.timestamp := "" |}.
    eexists. split; [reflexivity|].
    cbn [CallData.probability CallData.priority CallData.predicted_action
         CallData.wait_time CallData.issue_type CallData.customer_name].
    repeat split; try (vm_compute; reflexivity); vm_compute; discriminate.
Qed.

(** *** The form *)

Lemma or_number_nan x d :
  is_nan d = false -> is_nan (Builtins.or_number (Some x) d) = false.
Proof.
  intros H. unfold Builtins.or_number.
  destruct (is_zero x); [exact H|]. destruct (is_nan x) eqn:N; [exact H|exact N].
Qed.

(** X8: [handlePredictSingle] of the dashboard that calls the scorer.
    A form without a customer name or without an issue type leaves the
    queue as it is.  Any other form puts one call before the queue; the
    wait time of the call is a number, whatever [parseInt] made of the
    text; its probability is NaN exactly when the issue type names a
    member inherited from [Object.prototype], and is at most [1]
    otherwise; and its priority and action are those of the
    probability. *)
Theorem handlePredictSingle_risk random_text parseInt toFixed
    form r now prev :
  let result :=
    BillingDashboard.handlePredictSingle random_text parseInt toFixed
      form r now prev in
  let call := BillingDashboard.newCall random_text parseInt form r now in
  (Form.customer_name form = "" \/ Form.issue_type form = "" ->
   fst result = prev /\ Toast.title (snd result) = "Missing Information")
  /\ (Form.customer_name form <> "" -> Form.issue_type form <> "" ->
      fst result = call :: prev)
  /\ is_nan (CallData.wait_time call) = false
  /\ (is_nan (CallData.probability call) = true
      <-> JS.inherited (Form.issue_type form) = true)
  /\ (JS.inherited (Form.issue_type form) = false ->
      CallData.probability call <= 1)
  /\ CallData.priority call = priority (CallData.probability call)
  /\ CallData.predicted_action call
     = predicted_action (CallData.probability call).
Proof.
  cbv zeta. unfold BillingDashboard.handlePredictSingle.
  assert (W : is_nan (Builtins.or_number
                        (Some (parseInt (Form.wait_time form))) 0) = false)
    by (apply or_number_nan; reflexivity).
  destruct (features_charge
              (Builtins.or_number (Some (parseInt (Form.wait_time form))) 0)
              (Form.issue_type form) (Form.customer_name form)) as [C _].
  apply fle_nan_r in C.
  split; [|split; [|split; [exact W|split; [|split; [|split; reflexivity]]]]].
  - intros [E|E]; rewrite E; [|rewrite orb_true_r]; split; reflexivity.
  - intros E1 E2. apply String.eqb_neq in E1, E2. rewrite E1, E2. reflexivity.
  - cbn [BillingDashboard.newCall CallData.probability].
    rewrite predictRiskScore_nan_cases.
    unfold BillingDashboard.features in *. cbn [issue_type wait_time charge] in *.
    rewrite W, C. intuition congruence.
  - intros I. cbn [BillingDashboard.newCall CallData.probability].
    apply predictRiskScore_le_1; assumption.
Qed.

(** ** The dashboard of [Dashboard.tsx] *)

(** *** A probability that goes up by [0.02], up to [0.95] *)

Lemma fin_002 : is_fin (Prim2SF 0.02) = true.
Proof. reflexivity. Qed.

Lemma flt_fle x y : x < y -> x <= y.
Proof.
  intros H. apply flt_B2Z in H. destruct H as (Nx & Ny & L).
  apply fle_B2Z. repeat split; auto; lia.
Qed.

(** A number between two finite numbers is finite. *)
Lemma between_fin lo x hi :
  lo <= x -> x <= hi -> is_fin (Prim2SF lo) = true ->
  is_fin (Prim2SF hi) = true -> is_fin (Prim2SF x) = true.
Proof.
  intros L U Flo Fhi. apply fle_B2Z in L, U.
  destruct L as (_ & N & L). destruct U as (_ & _ & U).
  destruct (fin_B2Z lo Flo) as [_ Blo]. destruct (fin_B2Z hi Fhi) as [_ Bhi].
  apply B2Z_fin; [exact N|lia].
Qed.

(** Below or at a ceiling that is not zero, the minimum is the number
    itself. *)
Lemma Math_min_below x c : x <= c -> B2Z c <> 0%Z -> JS.Math_min x c = x.
Proof.
  intros H Hc. pose proof H as H'. apply fle_B2Z in H'.
  destruct H' as (Nx & Nc & L).
  destruct (Z.eq_dec (B2Z x) (B2Z c)) as [E|E].
  - rewrite (Math_min_sat x c); [|apply fle_B2Z; repeat split; auto; lia|exact Hc].
    symmetry. apply B2Z_inj; auto. congruence.
  - unfold JS.Math_min. rewrite Nx, Nc. simpl orb. cbv iota.
    rewrite ltb_B2Z by assumption.
    destruct (Z.ltb_spec (B2Z x) (B2Z c)); [reflexivity|lia].
Qed.

(** A multiple of [2^(u-1074)], with at most 53 digits, is a float. *)
Lemma scaled_float k u :
  (0 < k < 2 ^ 53)%Z -> (52 <= u <= 1074)%Z ->
  exists m e, bounded prec emax m e = true
              /\ (Zpos m * 2 ^ (e + 1074) = k * 2 ^ u)%Z.
Proof.
  intros Hk Hu.
  pose proof (Zdigits2_bounds k ltac:(blia)) as Hd.
  pose proof (Zdigits2_nonneg k) as Hd0.
  set (d := Zdigits2 k) in *.
  assert (Hd1 : (1 <= d <= 53)%Z).
  { split.
    - destruct (Z_lt_le_dec d 1) as [L|L]; [|exact L].
      exfalso. assert (d = 0%Z) by blia.
      replace d with 0%Z in Hd. simpl in Hd. blia.
    - destruct (Z_lt_le_dec 53 d) as [L|L]; [|exact L].
      exfalso.
      assert (2 ^ 53 <= 2 ^ (d - 1))%Z by (apply Z.pow_le_mono_r; blia).
      blia. }
  assert (P : (0 < k * 2 ^ (53 - d))%Z).
  { apply Z.mul_pos_pos; [blia|]. apply Z.pow_pos_nonneg; blia. }
  exists (Z.to_pos (k * 2 ^ (53 - d))), (d - 53 + u - 1074)%Z.
  assert (D : Zdigits2 (k * 2 ^ (53 - d)) = 53%Z).
  { rewrite Zdigits2_mul_pow2 by blia. fold d. blia. }
  destruct (k * 2 ^ (53 - d))%Z as [|q|q] eqn:Ep; try blia.
  simpl Z.to_pos. simpl in D.
  split.
  - unfold bounded, canonical_mantissa. rewrite D.
    change (fexp prec emax (53 + (d - 53 + u - 1074)))
      with (fexp64 (53 + (d - 53 + u - 1074))).
    rewrite fexp64_eq. apply andb_true_intro. split.
    + apply Z.eqb_eq. blia.
    + apply Z.leb_le. change (emax - prec)%Z with 971%Z. blia.
  - rewrite <- Ep. rewrite <- Z.mul_assoc, <- Z.pow_add_r by blia.
    f_equal. f_equal. blia.
Qed.

Lemma RN_scaled k u :
  (0 <= k < 2 ^ 53)%Z -> (52 <= u <= 1074)%Z -> RN (k * 2 ^ u) = (k * 2 ^ u)%Z.
Proof.
  intros Hk Hu. destruct (Z.eq_dec k 0) as [->|Hk0]; [reflexivity|].
  destruct (scaled_float k u ltac:(blia) Hu) as (m & e & B & E).
  rewrite <- E.
  apply (RN_ord (S754_finite false m e)); [exact B|discriminate|discriminate].
Qed.

(** A number from [0] up to [1] goes up when a finite step of [2^-6] or
    more is added: the sum is rounded, but not back to the number. *)
Lemma add_step_lt p step :
  is_fin (Prim2SF step) = true -> (2 ^ 1068 <= B2Z step)%Z ->
  0 <= p -> p < 1 -> p < p + step.
Proof.
  intros Fs Ds P0 P1.
  assert (F : is_fin (Prim2SF p) = true).
  { apply (between_fin 0 p 1 P0 (flt_fle _ _ P1)); reflexivity. }
  apply fle_B2Z in P0. destruct P0 as (_ & Np & L0).
  apply flt_B2Z in P1. destruct P1 as (_ & _ & L1).
  replace (B2Z 0) with 0%Z in L0 by reflexivity.
  replace (B2Z 1) with (2 ^ 1074)%Z in L1 by reflexivity.
  destruct (add_fin p step F Fs) as [N E].
  apply flt_B2Z. split; [exact Np|split; [exact N|]]. rewrite E.
  assert (Pu : (0 < 2 ^ 1068)%Z) by (apply Z.pow_pos_nonneg; lia).
  assert (E64 : (2 ^ 1074 = 64 * 2 ^ 1068)%Z).
  { change 1074%Z with (6 + 1068)%Z. rewrite Z.pow_add_r by lia. reflexivity. }
  set (k := (B2Z p / 2 ^ 1068 + 1)%Z).
  pose proof (Z.div_mod (B2Z p) (2 ^ 1068) ltac:(blia)) as DM.
  pose proof (Z.mod_pos_bound (B2Z p) (2 ^ 1068) Pu) as MB.
  assert (K0 : (0 <= B2Z p / 2 ^ 1068)%Z) by (apply Z.div_pos; blia).
  assert (K1 : (B2Z p / 2 ^ 1068 < 64)%Z).
  { apply Z.div_lt_upper_bound; [exact Pu|]. rewrite Z.mul_comm, <- E64. exact L1. }
  assert (Hk : (0 <= k < 2 ^ 53)%Z).
  { unfold k. split; [lia|]. apply Z.lt_trans with 65%Z; [lia|reflexivity]. }
  pose proof (RN_scaled k 1068 Hk ltac:(lia)) as R.
  assert (Lk : (B2Z p < k * 2 ^ 1068 <= B2Z p + B2Z step)%Z).
  { unfold k. hide_pows. lia. }
  pose proof (RN_mono _ _ (proj2 Lk)) as M. rewrite R in M.
  hide_pows. lia.
Qed.

(** A number raised by a finite non-negative step, up to a cap. *)
Lemma capped_sum p step cap :
  is_fin (Prim2SF step) = true -> (0 <= B2Z step)%Z ->
  is_nan cap = false -> B2Z cap <> 0%Z ->
  (is_nan p = false -> JS.Math_min (p + step) cap <= cap)
  /\ (p <= cap -> p <= JS.Math_min (p + step) cap)
  /\ (cap < p -> JS.Math_min (p + step) cap = cap)
  /\ (p + step <= cap -> JS.Math_min (p + step) cap = p + step).
Proof.
  intros Fs Ps Nc Zc.
  assert (G : is_nan p = false -> p <= p + step).
  { intros N. apply add_const_ge; assumption. }
  split; [|split; [|split]].
  - intros N. apply Math_min_le_r; [|exact Nc].
    apply add_fin_nan; assumption.
  - intros L. apply Math_min_ge; [|exact L].
    apply G. apply (fle_nan_l _ _ L).
  - intros L. apply Math_min_sat; [|exact Zc].
    apply flt_fle in L. apply (fle_trans _ _ _ L). apply G.
    apply (fle_nan_r _ _ L).
  - intros L. apply Math_min_below; assumption.
Qed.

(** Below a cap of at most [1], a number from [0] on goes up. *)
Lemma capped_sum_lt p step cap :
  is_fin (Prim2SF step) = true -> (2 ^ 1068 <= B2Z step)%Z -> cap <= 1 ->
  0 <= p -> p < cap -> p < JS.Math_min (p + step) cap.
Proof.
  intros Fs Ds C1 P0 PC.
  assert (P1 : p < 1).
  { apply flt_B2Z in PC. apply fle_B2Z in C1. apply flt_B2Z.
    destruct PC as (A & _ & B), C1 as (_ & C & D). repeat split; auto; lia. }
  pose proof (add_step_lt p step Fs Ds P0 P1) as S.
  apply flt_B2Z in PC, S. destruct PC as (Np & Nc & Lc), S as (_ & Ns & Ls).
  destruct (Math_min_B2Z _ _ Ns Nc) as [Nm Em].
  apply flt_B2Z. split; [exact Np|split; [exact Nm|]]. rewrite Em. lia.
Qed.

Lemma step_probability p :
  (is_nan p = false -> JS.Math_min (p + 0.02) 0.95 <= 0.95)
  /\ (p <= 0.95 -> p <= JS.Math_min (p + 0.02) 0.95)
  /\ (0.95 < p -> JS.Math_min (p + 0.02) 0.95 = 0.95)
  /\ (p + 0.02 <= 0.95 -> JS.Math_min (p + 0.02) 0.95 = p + 0.02).
Proof.
  apply capped_sum; [reflexivity|vm_compute; discriminate|reflexivity
                    |vm_compute; discriminate].
Qed.

(** X9: the update of the queue every five seconds.  The wait time of
    each call goes up by [15] and its probability [p] becomes
    [Math.min(p + 0.02, 0.95)]: the sum [p + 0.02] itself when that is at
    most [0.95], so that a probability from [0] up to [0.95] goes up; a
    probability that is a number becomes at most [0.95]; one of at most
    [0.95] does not go down; one above [0.95] is lowered to [0.95].  The
    priority and the action stay as they were. *)
Theorem updated_probability prev :
  Forall2 (fun call call' =>
             CallData.wait_time call' = CallData.wait_time call + 15
             /\ CallData.probability call'
                = JS.Math_min (CallData.probability call + 0.02) 0.95
             /\ (CallData.probability call + 0.02 <= 0.95 ->
                 CallData.probability call'
                 = CallData.probability call + 0.02)
             /\ (0 <= CallData.probability call ->
                 CallData.probability call < 0.95 ->
                 CallData.probability call < CallData.probability call')
             /\ (is_nan (CallData.probability call) = false ->
                 CallData.probability call' <= 0.95)
             /\ (CallData.probability call <= 0.95 ->
                 CallData.probability call <= CallData.probability call')
             /\ (0.95 < CallData.probability call ->
                 CallData.probability call' = 0.95)
             /\ CallData.priority call' = CallData.priority call
             /\ CallData.predicted_action call'
                = CallData.predicted_action call)
          prev (Dashboard.updated prev).
Proof.
  induction prev as [|call prev IH]; [constructor|].
  cbn [Dashboard.updated map]. constructor; [|exact IH].
  unfold Dashboard.updatedCall, Dashboard.raised.
  cbn [CallData.wait_time CallData.probability CallData.priority
       CallData.predicted_action].
  destruct (step_probability (CallData.probability call)) as (A & B & C & D).
  refine (conj eq_refl (conj eq_refl (conj D (conj _ (conj A (conj B
           (conj C (conj eq_refl eq_refl)))))))).
  intros P0 P1.
  apply capped_sum_lt;
    [reflexivity|vm_compute; discriminate|reflexivity|exact P0|exact P1].
Qed.


(** *** Forty-eight ticks *)

Lemma raised_mono p q : p <= q -> Dashboard.raised p <= Dashboard.raised q.
Proof.
  intros H. unfold Dashboard.raised. apply Math_min_mono; [|reflexivity].
  apply add_mono_fin; [exact H|reflexivity|exact fin_002|exact fin_002].
Qed.

Lemma iter_raised_mono n p q :
  p <= q -> Nat.iter n Dashboard.raised p <= Nat.iter n Dashboard.raised q.
Proof.
  intros H. induction n as [|n IH]; [exact H|].
  rewrite !Nat.iter_succ. apply raised_mono. exact IH.
Qed.

Lemma iter_raised_48 p : 0 <= p -> Nat.iter 48 Dashboard.raised p = 0.95.
Proof.
  intros H. rewrite Nat.iter_succ.
  unfold Dashboard.raised at 1. apply Math_min_sat; [|vm_compute; discriminate].
  pose proof (iter_raised_mono 47 _ _ H) as M.
  assert (L : 0.95 <= Nat.iter 47 Dashboard.raised 0 + 0.02)
    by (vm_compute; reflexivity).
  apply (fle_trans _ _ _ L).
  apply add_mono_fin; [exact M|reflexivity|exact fin_002|exact fin_002].
Qed.

Lemma iter_raised_fixed n : Nat.iter n Dashboard.raised 0.95 = 0.95.
Proof.
  induction n as [|n IH]; [reflexivity|].
  rewrite Nat.iter_succ, IH. vm_compute. reflexivity.
Qed.

Lemma iter_raised_from_48 n p :
  (48 <= n)%nat -> 0 <= p -> Nat.iter n Dashboard.raised p = 0.95.
Proof.
  intros Hn H. replace n with ((n - 48) + 48)%nat by lia.
  rewrite Nat.iter_add, iter_raised_48 by exact H. apply iter_raised_fixed.
Qed.

Lemma iter_updatedCall_probability n call :
  CallData.probability (Nat.iter n Dashboard.updatedCall call)
  = Nat.iter n Dashboard.raised (CallData.probability call).
Proof.
  induction n as [|n IH]; [reflexivity|].
  rewrite !Nat.iter_succ. unfold Dashboard.updatedCall at 1.
  cbn [CallData.probability]. rewrite IH. reflexivity.
Qed.

Lemma tick_prefix r fresh prev :
  exists rest,
    Dashboard.tick r fresh prev = (Dashboard.updated prev ++ rest)%list.
Proof.
  unfold Dashboard.tick. cbv zeta.
  destruct ((0.7 <? r) && (Builtins.length (Dashboard.updated prev) <? 20)).
  - exists [fresh]. reflexivity.
  - exists []. symmetry. apply app_nil_r.
Qed.

(** The calls of a queue stay at the front of it, in their order, and
    each tick updates them. *)
Lemma ticks_prefix ts prev :
  exists rest,
    Dashboard.ticks ts prev
    = (map (Nat.iter (List.length ts) Dashboard.updatedCall) prev ++ rest)%list.
Proof.
  revert prev. induction ts as [|t ts IH]; intros prev.
  - exists []. cbn [Dashboard.ticks fold_left List.length Nat.iter nat_rect].
    rewrite map_id. symmetry. apply app_nil_r.
  - unfold Dashboard.ticks. cbn [fold_left List.length].
    fold (Dashboard.ticks ts (Dashboard.tick (fst t) (snd t) prev)).
    destruct (tick_prefix (fst t) (snd t) prev) as [rest E]. rewrite E.
    destruct (IH (Dashboard.updated prev ++ rest)%list) as [rest' E']. rewrite E'.
    rewrite map_app, <- app_assoc. eexists. f_equal.
    unfold Dashboard.updated. rewrite map_map. apply map_ext.
    intros call. rewrite Nat.iter_succ_r. reflexivity.
Qed.

(** X10: forty-eight ticks or more, whatever [Math.random()] gives and
    whatever calls are added, bring every call that was in the queue with
    a probability of [0] or more to the probability [0.95] exactly; these
    calls are still the first of the queue, in their order. *)
Theorem ticks_48 ts prev :
  (48 <= List.length ts)%nat ->
  Forall (fun call => 0 <= CallData.probability call) prev ->
  exists now rest,
    Dashboard.ticks ts prev = (now ++ rest)%list
    /\ Forall2 (fun call call' =>
                  CallData.call_id call' = CallData.call_id call
                  /\ CallData.probability call' = 0.95)
               prev now.
Proof.
  intros Hn H. destruct (ticks_prefix ts prev) as [rest E].
  exists (map (Nat.iter (List.length ts) Dashboard.updatedCall) prev), rest.
  split; [exact E|]. clear E.
  induction H as [|call prev Hc _ IH]; [constructor|].
  cbn [map]. constructor; [|exact IH]. split.
  - clear. induction (List.length ts) as [|n IHn]; [reflexivity|].
    rewrite Nat.iter_succ. exact IHn.
  - rewrite iter_updatedCall_probability.
    apply iter_raised_from_48; assumption.
Qed.

Lemma ticks_48_witness :
  let call :=
    {| CallData.call_id := "CALL-7K2M9Q4XA";
       CallData.customer_name := "John Smith";
       CallData.phone_number := "+15550100000";
       CallData.wait_time := 30;
       CallData.issue_type := "Billing";
       CallData.probability := 0.25;
       CallData.predicted_action := "Continue Queue";
       CallData.priority := Low;
       CallData.status := Waiting;
       CallData.agent_assigned := None;
       CallData.timestamp := "" |} in
  exists now rest,
    Dashboard.ticks (repeat (0.5, call) 48) [call] = (now ++ rest)%list
    /\ Forall2 (fun call call' =>
                  CallData.call_id call' = CallData.call_id call
                  /\ CallData.probability call' = 0.95)
               [call] now.
Proof.
  cbv zeta. apply ticks_48.
  - rewrite repeat_length. apply le_n.
  - constructor; [reflexivity|constructor].
Defined.

(** *** The metrics *)

Lemma Prim2SF_100 : Prim2SF 100 = S754_finite false 7036874417766400 (-46).
Proof. vm_compute. reflexivity. Qed.

Lemma mul100_mono x y : x <= y -> x * 100 <= y * 100.
Proof.
  apply (mul_mono 100 _ _ Prim2SF_100); [lia|reflexivity].
Qed.

Lemma length_pos {A} (l : list A) :
  l <> [] -> (Z.of_nat (List.length l) < 2 ^ 53)%Z ->
  (0 <? Builtins.length l) = true.
Proof.
  intros NE H. destruct (length_spec l H) as (N & _ & E).
  rewrite ltb_B2Z by (reflexivity || exact N). rewrite E.
  replace (B2Z 0) with 0%Z by reflexivity. apply Z.ltb_lt.
  destruct l as [|a l]; [congruence|].
  apply Z.mul_pos_pos; [cbn [List.length]; lia|].
  apply Z.pow_pos_nonneg; lia.
Qed.

(** X11: the metrics of a queue of fewer than [2^32] calls, the most that
    an array holds.  The predicted abandonment rate is a number between
    [0] and [100]; and for the empty queue the average wait time and the
    rate are [0], no division being made. *)
Theorem metrics_rate callQueue :
  (Z.of_nat (List.length callQueue) < 2 ^ 32)%Z ->
  let m := Dashboard.metrics callQueue in
  DashboardMetrics.total_calls m = Builtins.length callQueue
  /\ 0 <= DashboardMetrics.predicted_abandonment_rate m
  /\ DashboardMetrics.predicted_abandonment_rate m <= 100
  /\ (callQueue = [] ->
      DashboardMetrics.total_calls m = 0
      /\ DashboardMetrics.avg_wait_time m = 0
      /\ DashboardMetrics.predicted_abandonment_rate m = 0).
Proof.
  intros H. cbv zeta. unfold Dashboard.metrics. cbv zeta.
  cbn [DashboardMetrics.total_calls DashboardMetrics.avg_wait_time
       DashboardMetrics.predicted_abandonment_rate].
  split; [reflexivity|].
  assert (H53 : (Z.of_nat (List.length callQueue) < 2 ^ 53)%Z).
  { apply Z.lt_trans with (1 := H). reflexivity. }
  destruct callQueue as [|call callQueue].
  - repeat split; reflexivity.
  - rewrite (length_pos (call :: callQueue)) by (congruence || exact H53).
    set (queue := call :: callQueue) in *.
    set (high := filter (fun call => 0.6 <? CallData.probability call) queue).
    assert (Hh : (0 <= Z.of_nat (List.length high)
                  <= Z.of_nat (List.length queue))%Z).
    { split; [lia|]. apply Nat2Z.inj_le. apply filter_length_le. }
    assert (Hn : (0 < Z.of_nat (List.length queue) < 2 ^ 53)%Z).
    { split; [cbn [queue List.length]; lia|exact H53]. }
    destruct (ratio_bounds _ _ Hh Hn) as [L U].
    fold (Builtins.length high) in L, U. fold (Builtins.length queue) in L, U.
    apply mul100_mono in L, U.
    change (0 * 100) with 0 in L. change (1 * 100) with 100 in U.
    split; [exact L|split; [exact U|]]. discriminate.
Qed.

Lemma metrics_rate_witness :
  let callQueue :=
    [ {| CallData.call_id := "CALL-7K2M9Q4XA";
         CallData.customer_name := "John Smith";
         CallData.phone_number := "+15550100000";
         CallData.wait_time := 45;
         CallData.issue_type := "Billing";
         CallData.probability := 0.75;
         CallData.predicted_action := "Priority Routing";
         CallData.priority := High;
         CallData.status := Waiting;
         CallData.agent_assigned := None;
         CallData.timestamp := "" |};
      {| CallData.call_id := "CALL-B81ZP03QT";
         CallData.customer_name := "Emily Chen";
         CallData.phone_number := "+15550100001";
         CallData.wait_time := 90;
         CallData.issue_type := "Refund";
         CallData.probability := 0.25;
         CallData.predicted_action := "Continue Queue";
         CallData.priority := Low;
         CallData.status := Waiting;
         CallData.agent_assigned := None;
         CallData.timestamp := "" |} ] in
  let m := Dashboard.metrics callQueue in
  DashboardMetrics.total_calls m = Builtins.length callQueue
  /\ 0 <= DashboardMetrics.predicted_abandonment_rate m
  /\ DashboardMetrics.predicted_abandonment_rate m <= 100
  /\ (callQueue = [] ->
      DashboardMetrics.total_calls m = 0
      /\ DashboardMetrics.avg_wait_time m = 0
      /\ DashboardMetrics.predicted_abandonment_rate m = 0).
Proof.
  cbv zeta. apply metrics_rate. reflexivity.
Defined.

(** *** The risk distribution *)

Lemma risk_cases p :
  is_nan p = false ->
  ((0.7 <? p) = true /\ ((0.4 <? p) && (p <=? 0.7)) = false /\ (p <=? 0.4) = false)
  \/ ((0.7 <? p) = false /\ ((0.4 <? p) && (p <=? 0.7)) = true /\ (p <=? 0.4) = false)
  \/ ((0.7 <? p) = false /\ ((0.4 <? p) && (p <=? 0.7)) = false /\ (p <=? 0.4) = true).
Proof.
  intros N.
  rewrite !ltb_B2Z, !leb_B2Z by (reflexivity || exact N).
  assert (L : (B2Z 0.4 < B2Z 0.7)%Z) by (vm_compute; reflexivity).
  destruct (Z.ltb_spec (B2Z 0.7) (B2Z p)), (Z.ltb_spec (B2Z 0.4) (B2Z p)),
    (Z.leb_spec (B2Z p) (B2Z 0.7)), (Z.leb_spec (B2Z p) (B2Z 0.4));
    cbn [andb]; try lia; tauto.
Qed.

Lemma risk_nan p :
  is_nan p = true ->
  (0.7 <? p) = false /\ ((0.4 <? p) && (p <=? 0.7)) = false /\ (p <=? 0.4) = false.
Proof.
  intros N. rewrite !(not_lt_nan _ _ N). cbn [andb].
  repeat split. destruct (p <=? 0.4) eqn:E; [|reflexivity].
  apply leb_nan in E. destruct E. congruence.
Qed.

(** X12: the three counts of the risk distribution card.  Every call
    whose probability is a number is counted once, as high, medium or low
    risk; a call whose probability is NaN, which the scorer can give, is
    counted in none.  So the counts add up to the number of calls less
    those of probability NaN. *)
Theorem risk_distribution callQueue :
  (Dashboard.highRiskCount callQueue + Dashboard.mediumRiskCount callQueue
   + Dashboard.lowRiskCount callQueue
   + List.length (filter (fun c => is_nan (CallData.probability c)) callQueue)
   = List.length callQueue)%nat.
Proof.
  unfold Dashboard.highRiskCount, Dashboard.mediumRiskCount,
    Dashboard.lowRiskCount.
  induction callQueue as [|c callQueue IH]; [reflexivity|].
  cbn [filter]. destruct (is_nan (CallData.probability c)) eqn:N.
  - destruct (risk_nan _ N) as (-> & -> & ->). cbn [List.length]. lia.
  - destruct (risk_cases _ N) as [(-> & -> & ->)|[(-> & -> & ->)|(-> & -> & ->)]];
      cbn [List.length]; lia.
Qed.

(** *** The filter by priority *)

Lemma filterByPriority_priority p callQueue :
  Dashboard.filterByPriority (Dashboard.toLowerCase p) callQueue
  = filter (fun call =>
              match CallData.priority call, p with
              | High, High | Medium, Medium | Low, Low => true
              | _, _ => false
              end) callQueue.
Proof.
  unfold Dashboard.filterByPriority. apply filter_ext. intros c.
  destruct p, (CallData.priority c); reflexivity.
Qed.

(** X13: the filter of the queue by priority.  The value ["all"] keeps
    the queue as it is; the values ["high"], ["medium"] and ["low"] keep,
    in their order, the calls of that priority, so that every call is
    under exactly one of the three; any other value, ["High"] for one,
    keeps no call. *)
Theorem filterByPriority_spec callQueue :
  Dashboard.filterByPriority "all" callQueue = callQueue
  /\ (forall p,
        Dashboard.filterByPriority (Dashboard.toLowerCase p) callQueue
        = filter (fun call =>
                    match CallData.priority call, p with
                    | High, High | Medium, Medium | Low, Low => true
                    | _, _ => false
                    end) callQueue)
  /\ (List.length (Dashboard.filterByPriority "high" callQueue)
      + List.length (Dashboard.filterByPriority "medium" callQueue)
      + List.length (Dashboard.filterByPriority "low" callQueue)
      = List.length callQueue)%nat
  /\ (forall filterPriority,
        filterPriority <> "all" -> filterPriority <> "high" ->
        filterPriority <> "medium" -> filterPriority <> "low" ->
        Dashboard.filterByPriority filterPriority callQueue = []).
Proof.
  repeat split.
  - unfold Dashboard.filterByPriority.
    rewrite (filter_ext _ (fun _ => true)) by (intros c; reflexivity).
    induction callQueue as [|c q IH]; [reflexivity|].
    cbn [filter]. rewrite IH. reflexivity.
  - intros p. apply filterByPriority_priority.
  - change "high" with (Dashboard.toLowerCase High).
    change "medium" with (Dashboard.toLowerCase Medium).
    change "low" with (Dashboard.toLowerCase Low).
    rewrite !filterByPriority_priority.
    induction callQueue as [|c q IH]; [reflexivity|].
    cbn [filter]. destruct (CallData.priority c);
      cbn [List.length]; lia.
  - intros f H1 H2 H3 H4. unfold Dashboard.filterByPriority.
    induction callQueue as [|c q IH]; [reflexivity|].
    cbn [filter]. rewrite IH.
    apply String.eqb_neq in H1. rewrite H1. cbn [orb].
    destruct (CallData.priority c); cbn [Dashboard.toLowerCase];
      rewrite String.eqb_sym;
      [apply String.eqb_neq in H2; rewrite H2
      |apply String.eqb_neq in H3; rewrite H3
      |apply String.eqb_neq in H4; rewrite H4]; reflexivity.
Qed.

(** *** The callbacks that make a call *)

(** X14: [generateMockCall], for values of [Math.random()] from [0] up
    to, not including, [1]: the name and the issue type are read within
    the bounds of their arrays, the wait time is between [30] and [629],
    the probability is the first random value, and the priority and the
    action are those of the probability. *)
Theorem generateMockCall_defined Number_toString random_text
    r1 r2 r3 r4 r5 r6 now :
  0 <= r3 -> r3 < 1 -> 0 <= r5 -> r5 < 1 -> 0 <= r6 -> r6 < 1 ->
  exists call,
    Dashboard.generateMockCall Number_toString random_text
      r1 r2 r3 r4 r5 r6 now = Some call
    /\ In (CallData.customer_name call)
          ["John Smith"; "Sarah Johnson"; "Mike Davis"; "Emily Chen";
           "Robert Wilson"; "Jessica Brown"]
    /\ In (CallData.issue_type call)
          ["Billing"; "Technical Support"; "Account"; "Delivery";
           "Refund"; "General Inquiry"]
    /\ 30 <= CallData.wait_time call /\ CallData.wait_time call <= 629
    /\ CallData.probability call = r1
    /\ CallData.priority call = priority r1
    /\ CallData.predicted_action call = predicted_action r1
    /\ CallData.status call = Waiting
    /\ CallData.agent_assigned call = None.
Proof.
  intros A3 B3 A5 B5 A6 B6.
  unfold Dashboard.generateMockCall. cbv zeta.
  match goal with
  | |- context [Builtins.get ?l (Builtins.Math_floor (r3 * Builtins.length ?l))] =>
      replace (Builtins.length l) with 6 by (vm_compute; reflexivity);
      destruct (random_place l 6 5 r3 random_place_6
                  ltac:(vm_compute; reflexivity) A3 B3) as (name & -> & In3)
  end.
  match goal with
  | |- context [Builtins.get ?l (Builtins.Math_floor (r6 * Builtins.length ?l))] =>
      replace (Builtins.length l) with 6 by (vm_compute; reflexivity);
      destruct (random_place l 6 5 r6 random_place_6
                  ltac:(vm_compute; reflexivity) A6 B6) as (issue & -> & In6)
  end.
  destruct (random_wait_600 r5 A5 B5) as [W0 W1].
  eexists. split; [reflexivity|].
  cbn [CallData.customer_name CallData.issue_type CallData.wait_time
       CallData.probability CallData.priority CallData.predicted_action
       CallData.status CallData.agent_assigned].
  repeat split; assumption.
Qed.

Lemma generateMockCall_defined_witness :
  exists call,
    Dashboard.generateMockCall (fun _ => "") (fun _ _ => "")
      0.25 0.5 0.75 0.125 0.375 0.625 "" = Some call
    /\ In (CallData.customer_name call)
          ["John Smith"; "Sarah Johnson"; "Mike Davis"; "Emily Chen";
           "Robert Wilson"; "Jessica Brown"]
    /\ In (CallData.issue_type call)
          ["Billing"; "Technical Support"; "Account"; "Delivery";
           "Refund"; "General Inquiry"]
    /\ 30 <= CallData.wait_time call /\ CallData.wait_time call <= 629
    /\ CallData.probability call = 0.25
    /\ CallData.priority call = priority 0.25
    /\ CallData.predicted_action call = predicted_action 0.25
    /\ CallData.status call = Waiting
    /\ CallData.agent_assigned call = None.
Proof.
  exact (generateMockCall_defined (fun _ => "") (fun _ _ => "")
           0.25 0.5 0.75 0.125 0.375 0.625 ""
           eq_refl eq_refl eq_refl eq_refl eq_refl eq_refl).
Defined.

(** *** The number of calls that a refresh adds *)

Lemma ToLength_B2Z x n :
  is_fin (Prim2SF x) = true -> B2Z x = (n * 2 ^ 1074)%Z -> (0 <= n < 2 ^ 53)%Z ->
  Builtins.ToLength x = Z.to_nat n.
Proof.
  intros F E Hn. unfold Builtins.ToLength. unfold B2Z in E.
  pose proof (Prim2SF_valid x) as V.
  assert (P1074 : (0 < 2 ^ 1074)%Z) by (apply Z.pow_pos_nonneg; blia).
  destruct (Prim2SF x) as [s|s| |s m e]; try discriminate.
  - cbn [ord] in E. replace n with 0%Z by bnia. destruct s; reflexivity.
  - cbn [valid_binary] in V.
    pose proof (bounded_inv _ _ V) as (He & _).
    assert (Pe : (0 < 2 ^ (e + 1074))%Z) by (apply Z.pow_pos_nonneg; blia).
    cbv beta iota delta [ord] in E.
    destruct s; cbv beta iota delta [cond_Zopp] in E; [exfalso; bnia|].
    destruct (Z.leb_spec 0 e) as [L|L].
    + rewrite Z.pow_add_r in E by blia.
      assert (E' : (Z.pos m * 2 ^ e = n)%Z) by bnia.
      rewrite E'. f_equal. blia.
    + rewrite (pow2_split e ltac:(blia)) in E.
      assert (Em : (Z.pos m = n * 2 ^ (- e))%Z) by bnia.
      assert (Pd : (0 < 2 ^ (- e))%Z) by (apply Z.pow_pos_nonneg; blia).
      rewrite Em, Z.div_mul by blia. reflexivity.
Qed.

Lemma refreshCount_cases r :
  0 <= r -> r < 1 ->
  exists j, (0 <= j <= 2)%Z
            /\ j = (B2Z (r * 3) / 2 ^ 1074)%Z
            /\ Dashboard.refreshCount r = Z.to_nat (j + 1).
Proof.
  intros H0 H1. floor_random 3 2%Z r H0 H1 H.
  destruct H as (N & F & j & J & E & _ & Ej).
  exists j. split; [exact J|split; [exact Ej|]].
  destruct (add_fin _ 1 F eq_refl) as [N' E'].
  rewrite E in E'. replace (B2Z 1) with (1 * 2 ^ 1074)%Z in E' by (vm_compute; reflexivity).
  rewrite <- Z.mul_add_distr_r, RN_int in E' by blia.
  unfold Dashboard.refreshCount.
  apply ToLength_B2Z; [|exact E'|blia].
  apply B2Z_fin; [exact N'|]. rewrite E'.
  assert (P1074 : (0 < 2 ^ 1074)%Z) by (apply Z.pow_pos_nonneg; blia).
  pose proof BIG_pos.
  assert ((j + 1) * 2 ^ 1074 <= 3 * 2 ^ 1074)%Z by (apply Z.mul_le_mono_nonneg_r; blia).
  assert (3 * 2 ^ 1074 < BIG)%Z by (vm_compute; reflexivity).
  split; [|blia].
  assert (0 <= (j + 1) * 2 ^ 1074)%Z by (apply Z.mul_nonneg_nonneg; blia). blia.
Qed.

(** X15: [handleRefreshQueue], for a value of [Math.random()] from [0] up
    to, not including, [1]: one, two or three calls are put before the
    queue, which stays as it was behind them; and a single call is put
    when [Math.random() * 3] is below [1]. *)
Theorem handleRefreshQueue_count r calls prev :
  0 <= r -> r < 1 ->
  exists newCalls,
    Dashboard.handleRefreshQueue r calls prev = (newCalls ++ prev)%list
    /\ (1 <= List.length newCalls <= 3)%nat
    /\ (r * 3 < 1 -> List.length newCalls = 1%nat).
Proof.
  intros H0 H1. unfold Dashboard.handleRefreshQueue. cbv zeta.
  eexists. split; [reflexivity|].
  rewrite length_map, length_seq.
  destruct (refreshCount_cases r H0 H1) as (j & J & E & ->).
  split; [blia|]. intros L.
  apply flt_B2Z in L. destruct L as (N & _ & L).
  replace (B2Z 1) with (2 ^ 1074)%Z in L by (vm_compute; reflexivity).
  assert (P1074 : (0 < 2 ^ 1074)%Z) by (apply Z.pow_pos_nonneg; blia).
  assert (Q : (B2Z (r * 3) / 2 ^ 1074 <= 0)%Z).
  { apply Z.lt_succ_r. apply Z.div_lt_upper_bound; blia. }
  replace j with 0%Z by blia. reflexivity.
Qed.

Lemma handleRefreshQueue_count_witness :
  exists newCalls,
    Dashboard.handleRefreshQueue 0.25
      (fun i =>
         {| CallData.call_id := "CALL-7K2M9Q4XA";
            CallData.customer_name := "Maria Garcia";
            CallData.phone_number := "+15550100000";
            CallData.wait_time := 45;
            CallData.issue_type := "Refund";
            CallData.probability := 0.5;
            CallData.predicted_action := "Offer Callback";
            CallData.priority := Medium;
            CallData.status := Waiting;
            CallData.agent_assigned := None;
            CallData.timestamp := "" |}) []
    = (newCalls ++ [])%list
    /\ (1 <= List.length newCalls <= 3)%nat
    /\ (0.25 * 3 < 1 -> List.length newCalls = 1%nat).
Proof.
  exact (handleRefreshQueue_count 0.25 _ [] eq_refl eq_refl).
Defined.

(** *** The probability of a sample call *)

(** X16: the probability that [handleLoadSample] gives to a sample call,
    in the dashboard that calls the scorer.  For a patient whose claim is
    denied, the probability [p] becomes [Math.min(p + 0.4, 0.9)]: the sum
    [p + 0.4] itself when that is at most [0.9], so that a probability
    from [0] up to [0.9] goes up; a probability that is a number becomes
    at most [0.9]; one of at most [0.9] does not go down; one above [0.9]
    is lowered to [0.9]; and one of [0] or more ends at [0.4] or more.
    For any other patient the probability stays as it is. *)
Theorem adjustedProbability_spec patientData probability :
  (Patient.status patientData <> "Denied" ->
   BillingDashboard.adjustedProbability patientData probability = probability)
  /\ (Patient.status patientData = "Denied" ->
      let adjusted :=
        BillingDashboard.adjustedProbability patientData probability in
      adjusted = JS.Math_min (probability + 0.4) 0.9
      /\ (probability + 0.4 <= 0.9 -> adjusted = probability + 0.4)
      /\ (0 <= probability -> probability < 0.9 -> probability < adjusted)
      /\ (is_nan probability = false -> adjusted <= 0.9)
      /\ (probability <= 0.9 -> probability <= adjusted)
      /\ (0.9 < probability -> adjusted = 0.9)
      /\ (0 <= probability -> 0.4 <= adjusted)).
Proof.
  unfold BillingDashboard.adjustedProbability. split.
  - intros H. apply String.eqb_neq in H. rewrite H. reflexivity.
  - intros H. rewrite H. cbv zeta. cbn [String.eqb Ascii.eqb Bool.eqb].
    change (if (if true then true else false) then ?a else ?b) with a.
    destruct (capped_sum probability 0.4 0.9 eq_refl
                ltac:(vm_compute; discriminate) eq_refl
                ltac:(vm_compute; discriminate)) as (A & B & C & D).
    refine (conj eq_refl (conj D (conj _ (conj A (conj B (conj C _)))))).
    + intros P0 P1.
      apply capped_sum_lt;
        [reflexivity|vm_compute; discriminate|reflexivity|exact P0|exact P1].
    + intros P. apply Math_min_ge; [|reflexivity].
      change 0.4 with (0 + 0.4) at 1.
      apply add_mono_fin; [exact P|reflexivity|reflexivity|reflexivity].
Qed.

(** *** The actions on a call *)

Lemma Math_floor_mono x y :
  x <= y -> is_fin (Prim2SF x) = true -> is_fin (Prim2SF y) = true ->
  Builtins.Math_floor x <= Builtins.Math_floor y.
Proof.
  intros H Fx Fy. apply fle_B2Z in H. destruct H as (_ & _ & L).
  destruct (Math_floor_B2Z x Fx) as (Nx & _ & Ex).
  destruct (Math_floor_B2Z y Fy) as (Ny & _ & Ey).
  apply fle_B2Z. split; [exact Nx|split; [exact Ny|]].
  rewrite Ex, Ey.
  assert (P1074 : (0 < 2 ^ 1074)%Z) by (apply Z.pow_pos_nonneg; lia).
  apply Z.mul_le_mono_nonneg_r; [lia|]. apply Z.div_le_mono; lia.
Qed.

(** The number of an agent, [Math.floor(r * c + 1)]. *)
Lemma agent_number c mc ec hi r :
  Prim2SF c = S754_finite false mc ec -> (ec <= 0)%Z ->
  Zpos (digits2_pos mc) = 53%Z ->
  is_fin (Prim2SF (0x1.fffffffffffffp-1 * c + 1)) = true ->
  0 * c + 1 = 1 ->
  Builtins.Math_floor (0x1.fffffffffffffp-1 * c + 1) = hi ->
  0 <= r -> r < 1 ->
  1 <= Builtins.Math_floor (r * c + 1) /\ Builtins.Math_floor (r * c + 1) <= hi.
Proof.
  intros C He Hm Ftop E0 Etop H0 H1.
  pose proof (lt_1_le_below_1 r H1) as H2.
  pose proof (mul_mono c mc ec C He Hm _ _ H0) as L.
  pose proof (mul_mono c mc ec C He Hm _ _ H2) as U.
  assert (R1 : 1 <= 1) by reflexivity.
  pose proof (add_mono_fin _ _ _ _ L R1 eq_refl eq_refl) as L'.
  pose proof (add_mono_fin _ _ _ _ U R1 eq_refl eq_refl) as U'.
  rewrite E0 in L'.
  assert (F : is_fin (Prim2SF (r * c + 1)) = true).
  { apply (between_fin _ _ _ L' U'); [reflexivity|exact Ftop]. }
  split.
  - change 1 with (Builtins.Math_floor 1) at 1.
    apply Math_floor_mono; [exact L'|reflexivity|exact F].
  - rewrite <- Etop. apply Math_floor_mono; [exact U'|exact F|exact Ftop].
Qed.

Lemma agent_number_50 r :
  0 <= r -> r < 1 ->
  1 <= Builtins.Math_floor (r * 50 + 1)
  /\ Builtins.Math_floor (r * 50 + 1) <= 50.
Proof.
  apply (agent_number 50 7036874417766400 (-47));
    [vm_compute; reflexivity|lia|reflexivity|reflexivity|reflexivity
    |vm_compute; reflexivity].
Qed.

Lemma agent_number_5 r :
  0 <= r -> r < 1 ->
  1 <= Builtins.Math_floor (r * 5 + 1)
  /\ Builtins.Math_floor (r * 5 + 1) <= 5.
Proof.
  apply (agent_number 5 5629499534213120 (-50));
    [vm_compute; reflexivity|lia|reflexivity|reflexivity|reflexivity
    |vm_compute; reflexivity].
Qed.

Lemma eqb_B2Z x y :
  is_nan x = false -> is_nan y = false -> (x =? y) = (B2Z x =? B2Z y)%Z.
Proof.
  intros Hx Hy. apply is_nan_false in Hx, Hy.
  rewrite eqb_spec. unfold SFeqb, B2Z.
  rewrite SFcompare_ord by (auto using Prim2SF_valid).
  unfold Z.eqb. destruct (ord (Prim2SF x) ?= ord (Prim2SF y))%Z eqn:E.
  - apply Z.compare_eq in E. rewrite E.
    destruct (ord (Prim2SF y)) as [|p|p]; rewrite ?Pos.eqb_refl; reflexivity.
  - destruct (ord (Prim2SF x)) as [|p|p], (ord (Prim2SF y)) as [|q|q];
      try reflexivity; try discriminate;
      cbn [Z.compare] in E; symmetry; apply Pos.eqb_neq; intros ->;
      rewrite ?Pos.compare_refl in E; discriminate.
  - destruct (ord (Prim2SF x)) as [|p|p], (ord (Prim2SF y)) as [|q|q];
      try reflexivity; try discriminate;
      cbn [Z.compare] in E; symmetry; apply Pos.eqb_neq; intros ->;
      rewrite ?Pos.compare_refl in E; discriminate.
Qed.

(** A list is empty when its length is [0]. *)
Lemma length_eqb_0 {A} (l : list A) :
  (Z.of_nat (List.length l) < 2 ^ 53)%Z ->
  (Builtins.length l =? 0) = match l with [] => true | _ => false end.
Proof.
  intros H. destruct (length_spec l H) as (N & _ & E).
  rewrite eqb_B2Z by (reflexivity || exact N). rewrite E.
  replace (B2Z 0) with 0%Z by reflexivity.
  assert (P1074 : (0 < 2 ^ 1074)%Z) by (apply Z.pow_pos_nonneg; lia).
  destruct l as [|a l]; [reflexivity|].
  apply Z.eqb_neq. cbn [List.length]. bnia.
Qed.

(** What [handleTakeAction] makes of one call of the queue. *)
Abbreviation taken Number_toString rs callId action :=
  (fun c c' : CallData.t =>
     (CallData.call_id c <> callId -> c' = c)
     /\ (CallData.call_id c = callId ->
         CallData.call_id c' = CallData.call_id c
         /\ CallData.customer_name c' = CallData.customer_name c
         /\ CallData.phone_number c' = CallData.phone_number c
         /\ CallData.wait_time c' = CallData.wait_time c
         /\ CallData.issue_type c' = CallData.issue_type c
         /\ CallData.probability c' = CallData.probability c
         /\ CallData.predicted_action c' = CallData.predicted_action c
         /\ CallData.priority c' = CallData.priority c
         /\ CallData.timestamp c' = CallData.timestamp c
         /\ CallData.status c'
            = (if String.eqb action "callback" then Completed else InProgress)
         /\ ((action <> "priority")%string ->
             CallData.agent_assigned c' = None)
         /\ ((action = "priority")%string ->
             exists n,
               CallData.agent_assigned c'
               = Some ("Agent #"
                       ++ Number_toString
                            (Builtins.Math_floor (rs n * 50 + 1)))
               /\ (0 <= rs n -> rs n < 1 ->
                   1 <= Builtins.Math_floor (rs n * 50 + 1)
                   /\ Builtins.Math_floor (rs n * 50 + 1) <= 50)))).

Lemma takeAction_taken Number_toString rs callId action n prev :
  Forall2 (taken Number_toString rs callId action) prev
    (Dashboard.takeAction Number_toString rs n callId action prev).
Proof.
  revert n. induction prev as [|c prev IH]; intros n; [constructor|].
  cbn [Dashboard.takeAction].
  destruct (String.eqb_spec (CallData.call_id c) callId) as [E|E].
  - constructor; [|apply IH]. split; [congruence|]. intros _.
    cbn [CallData.call_id CallData.customer_name CallData.phone_number
         CallData.wait_time CallData.issue_type CallData.probability
         CallData.predicted_action CallData.priority CallData.status
         CallData.agent_assigned CallData.timestamp].
    repeat split.
    + intros A. apply String.eqb_neq in A. rewrite A. reflexivity.
    + intros ->. exists n. split; [reflexivity|]. apply agent_number_50.
  - constructor; [|apply IH]. split; [reflexivity|congruence].
Qed.

(** X17: [handleTakeAction].  When no call of the queue it was given has
    the identifier, the queue stays as it is.  Else every call with
    another identifier stays as it is, and every call with the identifier
    keeps all its other data and gets the status Completed for the action
    ["callback"] and In Progress for any other action; it gets an agent,
    whose number is between 1 and 50 for a value of [Math.random()] from
    [0] up to [1], for the action ["priority"], and loses the agent it
    had for any other action. *)
Theorem handleTakeAction_spec Number_toString rs callId action
    callQueue prev :
  let next :=
    Dashboard.handleTakeAction Number_toString rs callId action
      callQueue prev in
  ((forall c, In c callQueue -> CallData.call_id c <> callId) -> next = prev)
  /\ ((exists c, In c callQueue /\ CallData.call_id c = callId) ->
      Forall2 (taken Number_toString rs callId action) prev next).
Proof.
  cbv zeta. unfold Dashboard.handleTakeAction.
  destruct (find (fun c => String.eqb (CallData.call_id c) callId) callQueue)
    as [c|] eqn:F.
  - split.
    + intros H. exfalso. apply find_some in F. destruct F as [I E].
      apply String.eqb_eq in E. exact (H c I E).
    + intros _. apply takeAction_taken.
  - split; [reflexivity|]. intros (c & I & E). exfalso.
    pose proof (find_none _ _ F c I) as N. cbv beta in N.
    rewrite E, String.eqb_refl in N. discriminate.
Qed.
(** What [handleEmergencyCallback] makes of one call of the queue. *)
Abbreviation escalated Number_toString rs :=
  (fun c c' : CallData.t =>
     (~ 0.8 < CallData.probability c -> c' = c)
     /\ (0.8 < CallData.probability c ->
         CallData.call_id c' = CallData.call_id c
         /\ CallData.customer_name c' = CallData.customer_name c
         /\ CallData.phone_number c' = CallData.phone_number c
         /\ CallData.wait_time c' = CallData.wait_time c
         /\ CallData.issue_type c' = CallData.issue_type c
         /\ CallData.probability c' = CallData.probability c
         /\ CallData.predicted_action c' = CallData.predicted_action c
         /\ CallData.priority c' = CallData.priority c
         /\ CallData.timestamp c' = CallData.timestamp c
         /\ CallData.status c' = InProgress
         /\ exists n,
             CallData.agent_assigned c'
             = Some ("Emergency Agent #"
                     ++ Number_toString
                          (Builtins.Math_floor (rs n * 5 + 1)))
             /\ (0 <= rs n -> rs n < 1 ->
                 1 <= Builtins.Math_floor (rs n * 5 + 1)
                 /\ Builtins.Math_floor (rs n * 5 + 1) <= 5))).

Lemma emergency_escalated Number_toString rs n prev :
  Forall2 (escalated Number_toString rs) prev
    (Dashboard.emergency Number_toString rs n prev).
Proof.
  revert n. induction prev as [|c prev IH]; intros n; [constructor|].
  cbn [Dashboard.emergency]. unfold flt.
  destruct (0.8 <? CallData.probability c) eqn:E.
  - constructor; [|apply IH]. split; [congruence|]. intros _.
    cbn [CallData.call_id CallData.customer_name CallData.phone_number
         CallData.wait_time CallData.issue_type CallData.probability
         CallData.predicted_action CallData.priority CallData.status
         CallData.agent_assigned CallData.timestamp].
    repeat split. exists n. split; [reflexivity|]. apply agent_number_5.
  - constructor; [|apply IH]. split; [reflexivity|congruence].
Qed.

(** X18: [handleEmergencyCallback], for a queue of fewer than [2^32]
    calls.  When no call of the queue it saw has a probability above
    [0.8], the queue stays as it is.  Else, in the queue of the moment,
    every call with a probability above [0.8] keeps all its other data,
    gets the status In Progress, whatever status it had, and an emergency agent
    whose number is between 1 and 5; every other call, one of probability
    NaN included, stays as it is. *)
Theorem handleEmergencyCallback_spec Number_toString rs callQueue prev :
  (Z.of_nat (List.length callQueue) < 2 ^ 32)%Z ->
  let next :=
    Dashboard.handleEmergencyCallback Number_toString rs callQueue prev in
  ((forall c, In c callQueue -> ~ 0.8 < CallData.probability c) ->
   next = prev)
  /\ ((exists c, In c callQueue /\ 0.8 < CallData.probability c) ->
      Forall2 (escalated Number_toString rs) prev next).
Proof.
  intros H. cbv zeta. unfold Dashboard.handleEmergencyCallback. cbv zeta.
  set (high := filter (fun call => 0.8 <? CallData.probability call) callQueue).
  assert (H53 : (Z.of_nat (List.length high) < 2 ^ 53)%Z).
  { pose proof (filter_length_le (fun call => 0.8 <? CallData.probability call)
                  callQueue) as L. fold high in L.
    apply Z.le_lt_trans with (Z.of_nat (List.length callQueue)); [lia|].
    apply Z.lt_trans with (1 := H). reflexivity. }
  rewrite (length_eqb_0 high H53).
  destruct high as [|c0 high'] eqn:E.
  - split; [reflexivity|]. intros (c & I & P). exfalso.
    assert (I' : In c high) by (apply filter_In; split; assumption).
    rewrite E in I'. exact I'.
  - split; [|intros _; apply emergency_escalated].
    intros N. exfalso.
    assert (I : In c0 high) by (rewrite E; left; reflexivity).
    apply filter_In in I. destruct I as [I P]. exact (N c0 I P).
Qed.
Lemma handleEmergencyCallback_spec_witness :
  let callQueue :=
    [ {| CallData.call_id := "CALL-7K2M9Q4XA";
         CallData.customer_name := "John Smith";
         CallData.phone_number := "+15550100000";
         CallData.wait_time := 30;
         CallData.issue_type := "Billing";
         CallData.probability := 0.875;
         CallData.predicted_action := "Priority Routing";
         CallData.priority := High;
         CallData.status := Completed;
         CallData.agent_assigned := None;
         CallData.timestamp := "" |} ] in
  let next :=
    Dashboard.handleEmergencyCallback (fun _ => "3") (fun _ => 0.5)
      callQueue callQueue in
  ((forall c, In c callQueue -> ~ 0.8 < CallData.probability c) ->
   next = callQueue)
  /\ ((exists c, In c callQueue /\ 0.8 < CallData.probability c) ->
      Forall2 (escalated (fun _ : float => "3") (fun _ : nat => 0.5))
              callQueue next).
Proof.
  cbv zeta. apply handleEmergencyCallback_spec. reflexivity.
Defined.

(** *** The average wait time *)

Local Open Scope Z_scope.

Lemma round_units a e :
  -1074 <= e < 0 ->
  (a * 2 ^ (e + 1074) + 2 ^ 1073) / 2 ^ 1074 = (2 * a + 2 ^ (- e)) / (2 * 2 ^ (- e)).
Proof.
  intros H.
  assert (Ph : 0 < 2 ^ (- e - 1)) by (apply Z.pow_pos_nonneg; blia).
  assert (Pu : 0 < 2 ^ (e + 1074)) by (apply Z.pow_pos_nonneg; blia).
  assert (E1 : 2 ^ (- e) = 2 * 2 ^ (- e - 1)).
  { rewrite <- Z.pow_succ_r by blia. f_equal. blia. }
  assert (E2 : 2 ^ 1073 = 2 ^ (- e - 1) * 2 ^ (e + 1074)).
  { rewrite <- Z.pow_add_r by blia. f_equal. blia. }
  assert (E3 : 2 ^ 1074 = 2 * 2 ^ (- e - 1) * 2 ^ (e + 1074)).
  { rewrite <- E1, <- Z.pow_add_r by blia. f_equal. blia. }
  rewrite E3, E2, E1, <- Z.mul_add_distr_r.
  rewrite Z.div_mul_cancel_r by blia.
  replace (2 * a + 2 * 2 ^ (- e - 1)) with (2 * (a + 2 ^ (- e - 1))) by blia.
  rewrite Z.div_mul_cancel_l by blia. reflexivity.
Qed.

(** [Math.round] of a finite float: the multiple of the unit that is
    closest to its value, the upper one at a tie. *)
Lemma Math_round_B2Z x :
  is_fin (Prim2SF x) = true ->
  is_nan (Builtins.Math_round x) = false
  /\ is_fin (Prim2SF (Builtins.Math_round x)) = true
  /\ B2Z (Builtins.Math_round x) = (B2Z x + 2 ^ 1073) / 2 ^ 1074 * 2 ^ 1074.
Proof.
  intros F. unfold Builtins.Math_round, B2Z.
  pose proof (Prim2SF_valid x) as V.
  assert (P1074 : 0 < 2 ^ 1074) by (apply Z.pow_pos_nonneg; blia).
  assert (S1073 : 0 <= 2 ^ 1073 < 2 ^ 1074).
  { split; [apply Z.pow_nonneg; blia|apply Z.pow_lt_mono_r; blia]. }
  destruct (Prim2SF x) as [s|s| |s m e] eqn:E; try discriminate.
  - rewrite E. split; [apply is_nan_false; rewrite E; discriminate|split; [reflexivity|]].
    cbn [ord]. rewrite Z.add_0_l, Z.div_small by blia. reflexivity.
  - cbn [valid_binary] in V.
    pose proof (bounded_inv _ _ V) as (He & _).
    pose proof (mantissa_bound _ _ V) as Hm.
    destruct (Z.leb_spec 0 e) as [L|L].
    + rewrite E. split; [apply is_nan_false; rewrite E; discriminate|split; [reflexivity|]].
      cbv beta iota delta [ord].
      replace (cond_Zopp s (Zpos m * 2 ^ (e + 1074)))
        with (cond_Zopp s (Zpos m * 2 ^ e) * 2 ^ 1074).
      * rewrite Z.div_add_l, (Z.div_small (2 ^ 1073)) by blia. blia.
      * rewrite Z.pow_add_r by blia. destruct s; cbv beta iota delta [cond_Zopp]; blia.
    + cbv zeta.
      assert (Pd : 1 <= 2 ^ (- e)).
      { apply Z.lt_pred_le. apply Z.pow_pos_nonneg; blia. }
      destruct s; cbv beta iota delta [cond_Zopp].
      * change (ord (S754_finite true m e)) with (- (Zpos m * 2 ^ (e + 1074))).
        rewrite <- Z.mul_opp_l, round_units by blia.
        set (q := (2 * - Z.pos m + 2 ^ (- e)) / (2 * 2 ^ (- e))).
        assert (Hq : 0 <= - q < 2 ^ 53).
        { pose proof (Z.div_mod (2 * - Z.pos m + 2 ^ (- e)) (2 * 2 ^ (- e))
                        ltac:(blia)) as DM.
          pose proof (Z.mod_pos_bound (2 * - Z.pos m + 2 ^ (- e))
                        (2 * 2 ^ (- e)) ltac:(blia)) as MB.
          fold q in DM. bnia. }
        destruct (of_Z_spec (- q) Hq) as (Fq & _ & Eq).
        unfold B2Z in Eq.
        assert (N : Prim2SF (- of_uint63 (Uint63.of_Z (- q))) <> S754_nan).
        { rewrite opp_spec.
          destruct (Prim2SF (of_uint63 (Uint63.of_Z (- q)))); discriminate. }
        split; [apply is_nan_false; exact N|].
        rewrite opp_spec, ord_opp, Eq.
        split; [|blia].
        destruct (Prim2SF (of_uint63 (Uint63.of_Z (- q)))); try discriminate; reflexivity.
      * change (ord (S754_finite false m e)) with (Zpos m * 2 ^ (e + 1074)).
        rewrite round_units by blia.
        set (q := (2 * Z.pos m + 2 ^ (- e)) / (2 * 2 ^ (- e))).
        assert (Hq : 0 <= q < 2 ^ 53).
        { pose proof (Z.div_mod (2 * Z.pos m + 2 ^ (- e)) (2 * 2 ^ (- e))
                        ltac:(blia)) as DM.
          pose proof (Z.mod_pos_bound (2 * Z.pos m + 2 ^ (- e))
                        (2 * 2 ^ (- e)) ltac:(blia)) as MB.
          fold q in DM. bnia. }
        destruct (of_Z_spec q Hq) as (Fq & _ & Eq).
        split; [apply of_Z_nan; exact Hq|split; [exact Fq|]].
        exact Eq.
Qed.

(** The quotient of a multiple of the divisor is exact. *)
Lemma div_rnd_multiple mc ec k :
  -1074 <= ec <= 0 -> 0 <= k < 2 ^ 53 ->
  div_rnd mc ec (k * (Zpos mc * 2 ^ (ec + 1074))) = k * 2 ^ 1074.
Proof.
  intros He Hk. unfold div_rnd. cbv zeta.
  assert (E : 2 ^ (ec + 1074) * 2 ^ (- ec) = 2 ^ 1074).
  { rewrite <- Z.pow_add_r by blia. f_equal. blia. }
  replace (2 * (k * (Z.pos mc * 2 ^ (ec + 1074)) * 2 ^ (- ec)))
    with (2 * (k * 2 ^ 1074) * Z.pos mc) by (rewrite <- E; ring).
  rewrite Z.div_mul, Z.mod_mul by blia.
  change (negb (0 =? 0)) with false.
  fold (add_rnd (k * 2 ^ 1074)).
  assert (P : 0 <= k * 2 ^ 1074).
  { apply Z.mul_nonneg_nonneg; [blia|apply Z.pow_nonneg; blia]. }
  pose proof (RN_int k Hk) as R. unfold RN, oddext in R.
  destruct (Z.leb_spec 0 (k * 2 ^ 1074)); [exact R|blia].
Qed.

(** A float that is finite and its own floor is a multiple of the unit,
    and conversely. *)
Lemma integral_B2Z x :
  is_fin (Prim2SF x) = true -> Builtins.Math_floor x = x ->
  B2Z x = B2Z x / 2 ^ 1074 * 2 ^ 1074.
Proof.
  intros F E. destruct (Math_floor_B2Z x F) as (_ & _ & H).
  rewrite E in H. exact H.
Qed.

Lemma B2Z_integral x k :
  is_fin (Prim2SF x) = true -> B2Z x = k * 2 ^ 1074 ->
  Builtins.Math_floor x = x.
Proof.
  intros F E. destruct (Math_floor_B2Z x F) as (N & _ & H).
  destruct (fin_B2Z x F) as [Nx _].
  rewrite E, Z.div_mul in H by (apply Z.pow_nonzero; blia).
  destruct (Z.eq_dec (B2Z x) 0) as [Z0|NZ].
  - unfold Builtins.Math_floor. unfold B2Z in Z0.
    pose proof (Prim2SF_valid x) as V.
    destruct (Prim2SF x) as [s|s| |s m e]; try reflexivity.
    exfalso. cbn [valid_binary] in V.
    pose proof (finite_ord_bounds _ _ V) as (B0 & _).
    cbv beta iota delta [ord] in Z0.
    destruct s; cbv beta iota delta [cond_Zopp] in Z0; blia.
  - apply B2Z_inj; [exact N|exact Nx|blia|blia].
Qed.

Local Open Scope float_scope.

Section Average.
Variables lo hi : float.
Hypothesis lo_nonneg : 0 <= lo.
Hypothesis hi_bound : hi <= 1048576.

Lemma wait_integer w :
  Builtins.Math_floor w = w -> lo <= w -> w <= hi ->
  is_fin (Prim2SF w) = true
  /\ exists k, (- (- B2Z lo / 2 ^ 1074) <= k <= B2Z hi / 2 ^ 1074)%Z
               /\ B2Z w = (k * 2 ^ 1074)%Z.
Proof.
  intros I L U.
  assert (F : is_fin (Prim2SF w) = true).
  { apply (between_fin 0 w 1048576); try reflexivity.
    - apply (fle_trans _ _ _ lo_nonneg L).
    - apply (fle_trans _ _ _ U hi_bound). }
  split; [exact F|]. pose proof (integral_B2Z w F I) as E.
  exists (B2Z w / 2 ^ 1074)%Z. split; [|exact E].
  apply fle_B2Z in L, U. destruct L as (_ & _ & L). destruct U as (_ & _ & U).
  assert (P1074 : (0 < 2 ^ 1074)%Z) by (apply Z.pow_pos_nonneg; blia).
  split.
  - apply Z.opp_le_mono. rewrite Z.opp_involutive.
    rewrite E in L. set (k := (B2Z w / 2 ^ 1074)%Z) in *.
    replace (- B2Z lo)%Z with (- B2Z lo + 0)%Z by blia.
    apply Z.div_le_lower_bound; [blia|]. blia.
  - apply Z.div_le_mono; blia.
Qed.

Lemma bounds_integer :
  (0 <= - (- B2Z lo / 2 ^ 1074))%Z /\ (B2Z hi / 2 ^ 1074 <= 2 ^ 20)%Z
  /\ (B2Z lo <= - (- B2Z lo / 2 ^ 1074) * 2 ^ 1074)%Z
  /\ (B2Z hi / 2 ^ 1074 * 2 ^ 1074 <= B2Z hi)%Z.
Proof.
  pose proof lo_nonneg as L. pose proof hi_bound as U.
  apply fle_B2Z in L, U. destruct L as (_ & _ & L). destruct U as (_ & _ & U).
  replace (B2Z 0) with 0%Z in L by reflexivity.
  replace (B2Z 1048576) with (2 ^ 20 * 2 ^ 1074)%Z in U by (vm_compute; reflexivity).
  assert (P1074 : (0 < 2 ^ 1074)%Z) by (apply Z.pow_pos_nonneg; blia).
  pose proof (Z.div_mod (- B2Z lo) (2 ^ 1074) ltac:(blia)) as DM1.
  pose proof (Z.mod_pos_bound (- B2Z lo) (2 ^ 1074) P1074) as MB1.
  pose proof (Z.div_mod (B2Z hi) (2 ^ 1074) ltac:(blia)) as DM2.
  pose proof (Z.mod_pos_bound (B2Z hi) (2 ^ 1074) P1074) as MB2.
  repeat split; bnia.
Qed.

(** The sum of the wait times, from the left, is exact. *)
Lemma sum_waits callQueue :
  Forall (fun call =>
            Builtins.Math_floor (CallData.wait_time call)
            = CallData.wait_time call
            /\ lo <= CallData.wait_time call
            /\ CallData.wait_time call <= hi) callQueue ->
  forall acc A,
    is_fin (Prim2SF acc) = true -> B2Z acc = (A * 2 ^ 1074)%Z ->
    (0 <= A)%Z ->
    (A + Z.of_nat (List.length callQueue) * 2 ^ 20 < 2 ^ 53)%Z ->
    let sum :=
      fold_left (fun sum call => sum + CallData.wait_time call)
                callQueue acc in
    is_fin (Prim2SF sum) = true
    /\ exists S,
        B2Z sum = (S * 2 ^ 1074)%Z
        /\ (A + Z.of_nat (List.length callQueue) * - (- B2Z lo / 2 ^ 1074)
            <= S
            <= A + Z.of_nat (List.length callQueue) * (B2Z hi / 2 ^ 1074))%Z.
Proof.
  destruct bounds_integer as (L0 & H20 & _ & _).
  induction 1 as [|call callQueue (I & L & U) _ IH]; intros acc A F E HA HB.
  - cbn [fold_left List.length]. split; [exact F|]. exists A. split; [exact E|blia].
  - cbn [fold_left]. rewrite length_cons, Nat2Z.inj_succ in *.
    destruct (wait_integer _ I L U) as (Fw & k & Hk & Ek).
    destruct (add_fin acc _ F Fw) as [N' E'].
    rewrite E, Ek, <- Z.mul_add_distr_r, RN_int in E' by bnia.
    assert (F' : is_fin (Prim2SF (acc + CallData.wait_time call)) = true).
    { apply B2Z_fin; [exact N'|]. rewrite E'. pose proof BIG_pos.
      assert (P1074 : (0 < 2 ^ 1074)%Z) by (apply Z.pow_pos_nonneg; blia).
      assert ((A + k) * 2 ^ 1074 < 2 ^ 53 * 2 ^ 1074)%Z
        by (apply Z.mul_lt_mono_pos_r; bnia).
      assert (2 ^ 53 * 2 ^ 1074 < BIG)%Z by (vm_compute; reflexivity).
      assert (0 <= (A + k) * 2 ^ 1074)%Z by (apply Z.mul_nonneg_nonneg; blia).
      blia. }
    destruct (IH _ (A + k)%Z F' E' ltac:(blia) ltac:(bnia)) as (Fs & S & Es & HS).
    split; [exact Fs|]. exists S. split; [exact Es|]. bnia.
Qed.

(** X19: the average wait time of the metrics.  For a queue that is not
    empty and has fewer than [2^32] calls, whose wait times are whole
    numbers between [lo] and [hi], with [0 <= lo] and [hi <= 1048576],
    the average wait time is a whole number between [lo] and [hi]. *)
Theorem metrics_avg_wait_time callQueue :
  callQueue <> [] ->
  (Z.of_nat (List.length callQueue) < 2 ^ 32)%Z ->
  Forall (fun call =>
            Builtins.Math_floor (CallData.wait_time call)
            = CallData.wait_time call
            /\ lo <= CallData.wait_time call
            /\ CallData.wait_time call <= hi) callQueue ->
  let avg := DashboardMetrics.avg_wait_time (Dashboard.metrics callQueue) in
  Builtins.Math_floor avg = avg /\ lo <= avg /\ avg <= hi.
Proof.
  intros NE H32 HW. cbv zeta. unfold Dashboard.metrics. cbv zeta.
  cbn [DashboardMetrics.avg_wait_time].
  assert (H53 : (Z.of_nat (List.length callQueue) < 2 ^ 53)%Z).
  { apply Z.lt_trans with (1 := H32). reflexivity. }
  rewrite (length_pos callQueue NE H53).
  destruct bounds_integer as (L0 & H20 & BL & BH).
  set (n := Z.of_nat (List.length callQueue)) in *.
  assert (Hn : (0 < n < 2 ^ 53)%Z).
  { split; [|exact H53]. destruct callQueue; [congruence|].
    unfold n. cbn [List.length]. blia. }
  destruct (sum_waits callQueue HW 0 0%Z eq_refl eq_refl ltac:(blia)
              ltac:(fold n; bnia)) as (Fs & S & Es & HS).
  fold n in HS. rewrite !Z.add_0_l in HS.
  set (sum := fold_left (fun sum call => sum + CallData.wait_time call)
                        callQueue 0) in *.
  destruct (length_c_spec n Hn) as (mc & ec & C & He & E).
  change (of_uint63 (Uint63.of_Z n)) with (Builtins.length callQueue) in C.
  pose proof (Prim2SF_valid (Builtins.length callQueue)) as V.
  rewrite C in V. cbn [valid_binary] in V.
  pose proof (bounded_inv _ _ V) as (He' & _).
  destruct (div_fin _ mc ec C He sum Fs) as [Nq Eq].
  rewrite Es in Eq.
  assert (P1074 : (0 < 2 ^ 1074)%Z) by (apply Z.pow_pos_nonneg; blia).
  set (Lk := (- (- B2Z lo / 2 ^ 1074))%Z) in *.
  set (Hk := (B2Z hi / 2 ^ 1074)%Z) in *.
  assert (S0 : (0 <= S * 2 ^ 1074)%Z) by bnia.
  unfold oddext in Eq.
  destruct (Z.leb_spec 0 (S * 2 ^ 1074)) as [_|G]; [|blia].
  assert (Q : (Lk * 2 ^ 1074
               <= B2Z (sum / Builtins.length callQueue)
               <= Hk * 2 ^ 1074)%Z).
  { rewrite Eq.
    rewrite <- (div_rnd_multiple mc ec Lk) by bnia.
    rewrite <- (div_rnd_multiple mc ec Hk) by bnia.
    rewrite E.
    split; apply div_rnd_mono; try exact He; bnia. }
  assert (Fq : is_fin (Prim2SF (sum / Builtins.length callQueue)) = true).
  { apply B2Z_fin; [exact Nq|]. pose proof BIG_pos.
    assert (Hk * 2 ^ 1074 <= 2 ^ 20 * 2 ^ 1074)%Z
      by (apply Z.mul_le_mono_nonneg_r; blia).
    assert (2 ^ 20 * 2 ^ 1074 < BIG)%Z by (vm_compute; reflexivity).
    bnia. }
  destruct (Math_round_B2Z _ Fq) as (Nr & Fr & Er).
  set (avg := Builtins.Math_round (sum / Builtins.length callQueue)) in *.
  set (B := B2Z (sum / Builtins.length callQueue)) in *.
  assert (S1073 : (2 * 2 ^ 1073 = 2 ^ 1074)%Z) by reflexivity.
  assert (R : (Lk <= (B + 2 ^ 1073) / 2 ^ 1074 <= Hk)%Z).
  { split.
    - apply Z.div_le_lower_bound; blia.
    - apply Z.lt_succ_r. apply Z.div_lt_upper_bound; blia. }
  pose proof lo_nonneg as NL. apply fle_nan_r in NL.
  pose proof hi_bound as NH. apply fle_nan_l in NH.
  split; [|split].
  - apply (B2Z_integral _ _ Fr Er).
  - apply fle_B2Z. split; [exact NL|split; [exact Nr|]]. rewrite Er. bnia.
  - apply fle_B2Z. split; [exact Nr|split; [exact NH|]]. rewrite Er. bnia.
Qed.
End Average.

Lemma metrics_avg_wait_time_witness :
  let callQueue :=
    [ {| CallData.call_id := "CALL-7K2M9Q4XA";
         CallData.customer_name := "John Smith";
         CallData.phone_number := "+15550100000";
         CallData.wait_time := 45;
         CallData.issue_type := "Billing";
         CallData.probability := 0.75;
         CallData.predicted_action := "Priority Routing";
         CallData.priority := High;
         CallData.status := Waiting;
         CallData.agent_assigned := None;
         CallData.timestamp := "" |};
      {| CallData.call_id := "CALL-B81ZP03QT";
         CallData.customer_name := "Emily Chen";
         CallData.phone_number := "+15550100001";
         CallData.wait_time := 90;
         CallData.issue_type := "Refund";
         CallData.probability := 0.25;
         CallData.predicted_action := "Continue Queue";
         CallData.priority := Low;
         CallData.status := Waiting;
         CallData.agent_assigned := None;
         CallData.timestamp := "" |} ] in
  let avg := DashboardMetrics.avg_wait_time (Dashboard.metrics callQueue) in
  Builtins.Math_floor avg = avg /\ 30 <= avg /\ avg <= 629.
Proof.
  cbv zeta. apply (metrics_avg_wait_time 30 629 eq_refl eq_refl).
  - discriminate.
  - reflexivity.
  - repeat constructor.
Defined.

(** *** The sample calls *)

(** The issue type of a sample call is the name of an issue followed by
    a detail, which is no key of the weight table. *)
Lemma sample_issue Number_toString random_text i r1 r2 r3 now call :
  BillingDashboard.sampleCall Number_toString random_text i r1 r2 r3 now
  = Some call ->
  JS.own_property issueTypeWeights (CallData.issue_type call) = None
  /\ JS.inherited (CallData.issue_type call) = false.
Proof.
  unfold BillingDashboard.sampleCall.
  destruct (nth_error _ _) as [p|]; [|discriminate]. cbv zeta.
  do 6 (destruct i as [|i];
        [cbn [nth_error]; intros [= <-]; cbn [CallData.issue_type];
         split; vm_compute; reflexivity|]).
  cbn [nth_error]. rewrite nth_error_nil. intros [= <-].
  cbn [CallData.issue_type]. split; vm_compute; reflexivity.
Qed.

(** X20: the sample calls of [handleLoadSample], in the dashboard that
    calls the scorer, for an index below [6] and a value of
    [Math.random()] from [0] up to [1] for the wait time.  The call is
    made, with a wait time between [100] and [499]; its issue type, the
    name of an issue followed by a detail, is no key of the weight table,
    so that the next update of the queue scores the call with the default
    weight [0.1], by the reference formula. *)
Theorem sampleCall_default_weight Number_toString random_text
    i r1 r2 r3 now :
  (i < 6)%nat -> 0 <= r3 -> r3 < 1 ->
  exists call call',
    BillingDashboard.sampleCall Number_toString random_text i r1 r2 r3 now
    = Some call
    /\ 100 <= CallData.wait_time call /\ CallData.wait_time call <= 499
    /\ JS.own_property issueTypeWeights (CallData.issue_type call) = None
    /\ JS.inherited (CallData.issue_type call) = false
    /\ Spec.w (CallData.issue_type call) = 0.1
    /\ BillingDashboard.updated [call] = [call']
    /\ CallData.probability call'
       = Spec.score
           (BillingDashboard.features (CallData.wait_time call + 15)
              (CallData.issue_type call) (CallData.customer_name call)).
Proof.
  intros Hi A3 B3.
  destruct (BillingDashboard.sampleCall Number_toString random_text
              i r1 r2 r3 now) as [call|] eqn:E.
  - destruct (sample_issue _ _ _ _ _ _ _ _ E) as [O I].
    exists call. eexists. split; [reflexivity|].
    assert (W : 100 <= CallData.wait_time call
                /\ CallData.wait_time call <= 499).
    { revert E. unfold BillingDashboard.sampleCall.
      destruct (nth_error _ _) as [p|]; [|discriminate]. cbv zeta.
      destruct (match nth_error _ i with Some d => Some d | None => _ end)
        as [[issue phone]|]; [|discriminate].
      intros [= <-]. cbn [CallData.wait_time].
      apply random_wait_400; assumption. }
    destruct W as [W0 W1].
    repeat split; try assumption.
    + unfold Spec.w. rewrite O. reflexivity.
    + cbn [BillingDashboard.updated map BillingDashboard.updatedCall
           CallData.probability].
      apply predictRiskScore_formula. exact I.
  - exfalso. revert E. unfold BillingDashboard.sampleCall.
    do 6 (destruct i as [|i]; [discriminate|]). lia.
Qed.

Lemma sampleCall_default_weight_witness :
  exists call call',
    BillingDashboard.sampleCall (fun _ => "1240") (fun _ _ => "7K2M9Q")
      2 0.25 0.5 0.75 "" = Some call
    /\ 100 <= CallData.wait_time call /\ CallData.wait_time call <= 499
    /\ JS.own_property issueTypeWeights (CallData.issue_type call) = None
    /\ JS.inherited (CallData.issue_type call) = false
    /\ Spec.w (CallData.issue_type call) = 0.1
    /\ BillingDashboard.updated [call] = [call']
    /\ CallData.probability call'
       = Spec.score
           (BillingDashboard.features (CallData.wait_time call + 15)
              (CallData.issue_type call) (CallData.customer_name call)).
Proof.
  apply (sampleCall_default_weight (fun _ => "1240") (fun _ _ => "7K2M9Q")
           2 0.25 0.5 0.75 "").
  - repeat constructor.
  - reflexivity.
  - reflexivity.
Defined.
